(** * Voice-operated OTC trading bot: the conversation engine of [app.py]

    A shallow embedding of the request handlers of [src/app.py]
    ([start_call], [webhook], [poll_messages], [end_call]) and of the
    helpers they call ([extract_exchange], [extract_trading_pair],
    [extract_number], [get_current_price], [cleanup_old_states]), followed
    by the properties of the conversation state machine.

    Conventions of the embedding.
    - Python [str] values are [string]s of ASCII characters; [lower],
      [upper], [strip], the [in] operator and [str.replace] are written
      out below.  The embedding is exact on ASCII text ([is_ascii]): there
      [str.lower], [str.upper], [\d], [\w], [\s] and the class
      [[,$€£¥]] are what [Text.lower], [Text.upper], [Text.is_digit],
      [Text.is_word], [Text.is_space] and [is_currency_mark] compute.
      Characters outside ASCII are passed through unchanged, which is not
      what Python does with them; the properties that depend on it are
      stated for ASCII transcripts.
    - The regular expressions of the source are terms of [regex], run by
      a backtracking matcher with the greedy, leftmost semantics of
      Python's [re] module.
    - What the process gets from outside (float conversion and
      formatting, the [word2number] parser, the wall clock) is the
      interface [Platform]; what a single request gets from outside
      (timestamps, the outcome of each ticker fetch) is an argument of
      the handler.
    - [conversation_state] is a [gmap] from call ids to session records,
      passed explicitly; handlers return the response and the new map. *)

From Stdlib Require Import ZArith Lia Bool Ascii String List.
From stdpp Require Import gmap strings list fin_maps.
Import ListNotations.

Local Open Scope string_scope.
Local Open Scope Z_scope.

(** ** Characters and strings *)

Module Text.

Definition between (lo hi : nat) (c : ascii) : bool :=
  (lo <=? nat_of_ascii c)%nat && (nat_of_ascii c <=? hi)%nat.

(** The character is an ASCII one.  On these the classes and the case
    maps below are those of Python; a character outside ASCII is in none
    of the classes and is its own lower and upper case here, which need
    not be so in Python. *)
Definition is_ascii (c : ascii) : bool := (nat_of_ascii c <=? 127)%nat.

(** [\d] on ASCII. *)
Definition is_digit (c : ascii) : bool := between 48 57 c.
Definition is_upper (c : ascii) : bool := between 65 90 c.
Definition is_lower (c : ascii) : bool := between 97 122 c.

(** [\s] and [str.strip]: tab, newline, vertical tab, form feed, carriage
    return, the four separators 0x1c-0x1f, and the space. *)
Definition is_space (c : ascii) : bool :=
  between 9 13 c || between 28 32 c.

(** [\w] on ASCII: letters, digits and the underscore. *)
Definition is_word (c : ascii) : bool :=
  is_digit c || is_upper c || is_lower c || (nat_of_ascii c =? 95)%nat.

(** The class [[A-Z0-9]] of the trading-pair patterns. *)
Definition is_token_char (c : ascii) : bool := is_upper c || is_digit c.

(** The class [[/\- ]] of the first trading-pair pattern. *)
Definition is_separator (c : ascii) : bool :=
  (nat_of_ascii c =? 47)%nat || (nat_of_ascii c =? 45)%nat
  || (nat_of_ascii c =? 32)%nat.

Definition lower_char (c : ascii) : ascii :=
  if is_upper c then ascii_of_nat (nat_of_ascii c + 32) else c.

Definition upper_char (c : ascii) : ascii :=
  if is_lower c then ascii_of_nat (nat_of_ascii c - 32) else c.

Fixpoint map_chars (f : ascii -> ascii) (s : string) : string :=
  match s with
  | EmptyString => EmptyString
  | String c r => String (f c) (map_chars f r)
  end.

Definition lower : string -> string := map_chars lower_char.
Definition upper : string -> string := map_chars upper_char.

(** [s.capitalize()]: first character upper-cased, the rest lower-cased. *)
Definition capitalize (s : string) : string :=
  match s with
  | EmptyString => EmptyString
  | String c r => String (upper_char c) (lower r)
  end.

Fixpoint lstrip (s : string) : string :=
  match s with
  | EmptyString => EmptyString
  | String c r => if is_space c then lstrip r else s
  end.

Fixpoint rstrip (s : string) : string :=
  match s with
  | EmptyString => EmptyString
  | String c r =>
      match rstrip r with
      | EmptyString => if is_space c then EmptyString else String c EmptyString
      | r' => String c r'
      end
  end.

Definition strip (s : string) : string := rstrip (lstrip s).

(** [needle in hay]. *)
Fixpoint contains (needle hay : string) : bool :=
  String.prefix needle hay
  || match hay with
     | EmptyString => false
     | String _ r => contains needle r
     end.

(** Truthiness of a [str]: the empty string is false. *)
Definition nonempty (s : string) : bool :=
  match s with EmptyString => false | String _ _ => true end.

(** [drop n s] is [s[n:]]. *)
Fixpoint drop_chars (n : nat) (s : string) : string :=
  match n, s with
  | O, _ => s
  | S n', String _ r => drop_chars n' r
  | S _, EmptyString => EmptyString
  end.

(** [take n s] is [s[:n]]. *)
Fixpoint take_chars (n : nat) (s : string) : string :=
  match n, s with
  | O, _ => EmptyString
  | S n', String c r => String c (take_chars n' r)
  | S _, EmptyString => EmptyString
  end.

(** [s.replace(old, new)] for a non-empty [old]: occurrences are replaced
    from left to right without overlap.  [skip] counts the characters of
    an occurrence that are still to be dropped. *)
Fixpoint replace_from (old new : string) (skip : nat) (s : string) : string :=
  match skip, s with
  | S k, String _ r => replace_from old new k r
  | S _, EmptyString => EmptyString
  | O, EmptyString => EmptyString
  | O, String c r =>
      if String.prefix old s
      then new ++ replace_from old new (String.length old - 1) r
      else String c (replace_from old new O r)
  end.

Definition replace (old new s : string) : string := replace_from old new O s.

(** [sep.join(parts)]. *)
Fixpoint join (sep : string) (parts : list string) : string :=
  match parts with
  | [] => ""
  | [p] => p
  | p :: rest => p ++ sep ++ join sep rest
  end.

End Text.

(** ** Regular expressions

    The fragment of Python's [re] syntax that the source uses: character
    classes, literals, [\b], greedy bounded repetition of a class
    ([{m,n}], [*], [+]), a greedy optional group [(?:r)?], concatenation and
    numbered capture groups.  The matcher is written in continuation
    passing style: [run r k st] tries the alternatives of [r] from the
    greediest down and commits to the first one that the continuation
    [k] accepts, which is how the backtracking engine of [re] proceeds. *)

Module Re.

Import Text.

Inductive regex : Type :=
| Chr (p : ascii -> bool)
| Lit (s : string)
| WordB
| Rep (p : ascii -> bool) (lo : nat) (hi : option nat)
| Opt (r : regex)
| Seq (r1 r2 : regex)
| Grp (n : nat) (r : regex).

(** A position in the subject: the character before it (for [\b]), the
    text from it on, and the capture groups closed so far. *)
Record cursor : Type := Cursor {
  before : option ascii;
  rest   : string;
  groups : list (nat * string)
}.

Definition word_before (c : cursor) : bool :=
  match before c with Some a => is_word a | None => false end.

Definition word_after (c : cursor) : bool :=
  match rest c with String a _ => is_word a | EmptyString => false end.

Definition at_boundary (c : cursor) : bool := xorb (word_before c) (word_after c).

(** Consumes the literal [lit], or fails. *)
Fixpoint eat (lit : string) (prev : option ascii) (s : string)
  : option (option ascii * string) :=
  match lit with
  | EmptyString => Some (prev, s)
  | String a lit' =>
      match s with
      | String b s' => if Ascii.eqb a b then eat lit' (Some b) s' else None
      | EmptyString => None
      end
  end.

Definition may_take (hi : option nat) : bool :=
  match hi with Some O => false | _ => true end.

Definition one_less (hi : option nat) : option nat :=
  match hi with Some n => Some (Nat.pred n) | None => None end.

Section Matcher.
Context {R : Type}.

(** Greedy repetition of the class [p], between [lo] and [hi] more
    characters: take one more character whenever that is allowed and
    leads to a match, otherwise stop here if [lo] has been reached. *)
Fixpoint repeat_class (p : ascii -> bool) (lo : nat) (hi : option nat)
    (k : cursor -> option R) (prev : option ascii) (gs : list (nat * string))
    (s : string) : option R :=
  let stop :=
    match lo with
    | O => k (Cursor prev s gs)
    | S _ => None
    end in
  match s with
  | String c s' =>
      if p c && may_take hi then
        match repeat_class p (Nat.pred lo) (one_less hi) k (Some c) gs s' with
        | Some res => Some res
        | None => stop
        end
      else stop
  | EmptyString => stop
  end.

Fixpoint run (r : regex) (k : cursor -> option R) (c : cursor) : option R :=
  match r with
  | Chr p =>
      match rest c with
      | String a s' => if p a then k (Cursor (Some a) s' (groups c)) else None
      | EmptyString => None
      end
  | Lit lit =>
      match eat lit (before c) (rest c) with
      | Some (prev, s') => k (Cursor prev s' (groups c))
      | None => None
      end
  | WordB => if at_boundary c then k c else None
  | Rep p lo hi => repeat_class p lo hi k (before c) (groups c) (rest c)
  | Opt r1 =>
      match run r1 k c with
      | Some res => Some res
      | None => k c
      end
  | Seq r1 r2 => run r1 (run r2 k) c
  | Grp n r1 =>
      run r1
        (fun c' =>
           let len := (String.length (rest c) - String.length (rest c'))%nat in
           k (Cursor (before c') (rest c')
                ((n, take_chars len (rest c)) :: groups c')))
        c
  end.
End Matcher.

(** A match anchored at a position: the matched text, what follows it,
    and the groups. *)
Record found : Type := Found {
  matched : string;
  after   : string;
  captures : list (nat * string)
}.

Definition match_here (r : regex) (prev : option ascii) (s : string) : option found :=
  run r
    (fun c =>
       Some (Found (take_chars (String.length s - String.length (rest c)) s)
               (rest c) (groups c)))
    (Cursor prev s []).

(** [match.group(n)]; an unset group reads as the empty text. *)
Fixpoint group (n : nat) (gs : list (nat * string)) : string :=
  match gs with
  | [] => ""
  | (m, t) :: gs' => if (m =? n)%nat then t else group n gs'
  end.

(** [re.search(r, s)]: the match at the leftmost position that has one. *)
Fixpoint search_from (r : regex) (prev : option ascii) (s : string) : option found :=
  match match_here r prev s with
  | Some f => Some f
  | None =>
      match s with
      | String c s' => search_from r (Some c) s'
      | EmptyString => None
      end
  end.

Definition search (r : regex) (s : string) : option found := search_from r None s.

(** [re.findall(r, s)] for a pattern without groups: the texts of the
    successive matches, left to right, without overlap.  [skip] counts the
    characters of the last match that the scan still has to pass. *)
Fixpoint findall_from (r : regex) (prev : option ascii) (skip : nat) (s : string)
  : list string :=
  match skip with
  | S k =>
      match s with
      | String c s' => findall_from r (Some c) k s'
      | EmptyString => []
      end
  | O =>
      match match_here r prev s with
      | Some f =>
          matched f ::
          match s with
          | String c s' =>
              findall_from r (Some c) (Nat.pred (String.length (matched f))) s'
          | EmptyString => []
          end
      | None =>
          match s with
          | String c s' => findall_from r (Some c) O s'
          | EmptyString => []
          end
      end
  end.

Definition findall (r : regex) (s : string) : list string := findall_from r None O s.

(** [re.sub(r, repl, s)] for a replacement without back-references. *)
Fixpoint sub_from (r : regex) (repl : string) (prev : option ascii) (skip : nat)
    (s : string) : string :=
  match skip with
  | S k =>
      match s with
      | String c s' => sub_from r repl (Some c) k s'
      | EmptyString => ""
      end
  | O =>
      match match_here r prev s with
      | Some f =>
          repl ++
          match s with
          | String c s' =>
              match String.length (matched f) with
              | O => String c (sub_from r repl (Some c) O s')
              | S k => sub_from r repl (Some c) k s'
              end
          | EmptyString => ""
          end
      | None =>
          match s with
          | String c s' => String c (sub_from r repl (Some c) O s')
          | EmptyString => ""
          end
      end
  end.

Definition sub (r : regex) (repl s : string) : string := sub_from r repl None O s.

(** Shorthands for the quantifiers of the source patterns. *)
Definition plus (p : ascii -> bool) : regex := Rep p 1 None.
Definition star (p : ascii -> bool) : regex := Rep p 0 None.
Definition one_char (a : ascii) : regex := Chr (Ascii.eqb a).

End Re.

(** ** What the process gets from outside

    [num] is the type of the Python numbers that flow through a session:
    the floats built by [float(...)] and the ints or floats returned by
    [w2n.word_to_num].  Nothing below depends on their arithmetic, only
    on how they are built, tested for truth and printed. *)

(** How a call of [w2n.word_to_num] ends. *)
Inductive parse (num : Type) : Type :=
| Number (n : num)   (* it returns [n] *)
| ValueError         (* it raises [ValueError] *)
| OtherError.        (* it raises another exception, as [IndexError] on
                        "thousand one" *)

Arguments Number {num} n.
Arguments ValueError {num}.
Arguments OtherError {num}.

Class Platform : Type := {
  num : Type;
  (** [float(s)] for a text [s] matched by [\d+(?:\.\d+)?]. *)
  float_of_literal : string -> num;
  (** [w2n.word_to_num(s)]. *)
  word_to_num : string -> parse num;
  (** Truth value of a number ([0] and [0.0] are false). *)
  truthy : num -> bool;
  (** [f"{x}"]. *)
  show_num : num -> string;
  (** [f"{x:.2f}"]. *)
  show_2f : num -> string;
  (** Readings of [time.time()]. *)
  instant : Type;
  (** [now - created > 300]. *)
  older_than_300 : instant -> instant -> bool
}.

(** ** Module-level tables of [app.py] *)

Definition correction_keywords : list string :=
  ["i meant"; "actually"; "instead"; "change to"; "correct to"; "no,"; "not";
   "mistake"; "wrong"].

Definition exchange_display_names : list (string * string) :=
  [("okx", "OKX"); ("bybit", "Bybit"); ("deribit", "Deribit"); ("binance", "Binance")].

Definition mispronunciations : list (string * string) :=
  [("e t h", "ETH"); ("b t c", "BTC"); ("u s d t", "USDT"); ("u s d", "USD");
   ("u s DTPL", "USDT"); ("bit coin", "BTC"); ("ether", "ETH")].

(** [d.get(key, default)] on a table kept in insertion order. *)
Fixpoint dict_get (d : list (string * string)) (key default : string) : string :=
  match d with
  | [] => default
  | (k, v) :: d' => if String.eqb k key then v else dict_get d' key default
  end.

(** ** Extractors *)

Import Text.

(** The table local to [extract_exchange]. *)
Definition exchanges : list (string * list string) :=
  [("okx", ["okx"; "okay ex"; "okay x"; "o k x"; "ok ex"; "ok x"]);
   ("bybit", ["bybit"; "buy bit"; "by bit"]);
   ("deribit", ["deribit"; "dairy bit"; "deri bit"]);
   ("binance", ["binance"; "finance"; "by nance"])].

(** The nested loop returns at the first exchange, in table order, one of
    whose variants occurs in the lower-cased transcript. *)
Definition extract_exchange (transcript : string) : option string :=
  let transcript_l := lower transcript in
  match
    List.find
      (fun entry => existsb (fun variant => contains variant transcript_l) (snd entry))
      exchanges
  with
  | Some entry => Some (fst entry)
  | None => None
  end.

Fixpoint cat (rs : list Re.regex) : Re.regex :=
  match rs with
  | [] => Re.Lit ""
  | [r] => r
  | r :: rs' => Re.Seq r (cat rs')
  end.

(** [[A-Z0-9]{2,6}]. *)
Definition token : Re.regex := Re.Rep is_token_char 2 (Some 6%nat).

(** [\bSLASH\b], [\bDASH\b], [\bHYPHEN\b]. *)
Definition spoken (word : string) : Re.regex := cat [Re.WordB; Re.Lit word; Re.WordB].

(** The five patterns of [extract_trading_pair], in the order of the
    source list.  The literals are spelled as in the source, in lower
    case. *)
Definition patterns : list Re.regex :=
  [ cat [Re.WordB; Re.Grp 1 token; Re.star is_space; Re.Chr is_separator;
         Re.star is_space; Re.Grp 2 token; Re.WordB];
    cat [Re.Lit "trade"; Re.plus is_space; Re.Grp 1 token; Re.plus is_space;
         Re.Lit "with"; Re.plus is_space; Re.Grp 2 token];
    cat [Re.Lit "trade"; Re.plus is_space; Re.Grp 1 token; Re.plus is_space;
         Re.Lit "against"; Re.plus is_space; Re.Grp 2 token];
    cat [Re.Grp 1 token; Re.plus is_space; Re.Lit "to"; Re.plus is_space;
         Re.Grp 2 token];
    cat [Re.Grp 1 token; Re.plus is_space; Re.Lit "versus"; Re.plus is_space;
         Re.Grp 2 token] ].

(** The loop over [patterns]: the first pattern with a match decides. *)
Fixpoint first_pattern (ps : list Re.regex) (transcript : string) : option string :=
  match ps with
  | [] => None
  | pattern :: ps' =>
      match Re.search pattern transcript with
      | Some m =>
          let base := Re.group 1 (Re.captures m) in
          let quote := Re.group 2 (Re.captures m) in
          Some (base ++ "/" ++ quote)
      | None => first_pattern ps' transcript
      end
  end.

Definition extract_trading_pair (transcript : string) : option string :=
  let transcript := upper transcript in
  let transcript := Re.sub (spoken "SLASH") "/" transcript in
  let transcript := Re.sub (spoken "DASH") "-" transcript in
  let transcript := Re.sub (spoken "HYPHEN") "-" transcript in
  let transcript :=
    fold_left (fun t entry => replace (upper (fst entry)) (snd entry) t)
      mispronunciations transcript in
  first_pattern patterns transcript.

(** [\d+(?:\.\d+)?]. *)
Definition number_pattern : Re.regex :=
  Re.Seq (Re.plus is_digit)
    (Re.Opt (Re.Seq (Re.one_char ".") (Re.plus is_digit))).

(** The class [[,$€£¥]] restricted to ASCII: the comma and the dollar.
    The three other marks are not ASCII characters and do not occur in
    the texts on which the embedding is exact. *)
Definition is_currency_mark (c : ascii) : bool :=
  (nat_of_ascii c =? 44)%nat || (nat_of_ascii c =? 36)%nat.

Section WithPlatform.
Context `{P : Platform}.

(** The value that [extract_number] returns.  When the word parser
    raises an exception that is not a [ValueError], the [except] clause
    does not catch it and the call returns nothing: [extract_number_raises]
    tells so, and the [None] given here is then not a result of the
    call. *)
Definition extract_number (transcript : string) : option num :=
  let clean_str := Re.sub (Re.Chr is_currency_mark) "" transcript in
  match Re.search number_pattern clean_str with
  | Some m => Some (float_of_literal (Re.matched m))
  | None =>
      match word_to_num clean_str with
      | Number n => Some n
      | ValueError => None
      | OtherError => None
      end
  end.

(** The call of [extract_number] ends with an exception. *)
Definition extract_number_raises (transcript : string) : bool :=
  let clean_str := Re.sub (Re.Chr is_currency_mark) "" transcript in
  match Re.search number_pattern clean_str with
  | Some _ => false
  | None =>
      match word_to_num clean_str with
      | OtherError => true
      | Number _ | ValueError => false
      end
  end.

(** ** Price lookup *)

Definition normalize_symbol (exchange_name symbol : string) : string :=
  if nonempty symbol then replace "/" "" symbol else symbol.

(** How a call of [get_current_price] ends. *)
Inductive ending : Type :=
| Returned (result : option num * option string)  (* a [return] of the loop *)
| FellThrough   (* the loop ran out without a [return]: the call returns [None] *)
| SleepRaised.  (* [time.sleep] raised [ValueError] on a negative delay, inside
                   the [except] block: the exception leaves the call *)

(** What one call of [get_current_price] did: how it ended and the
    arguments of its completed calls to [time.sleep], in order. *)
Record lookup : Type := Lookup {
  returned : ending;
  slept : list Z
}.

(** [ticker exchange_name normalized_symbol attempt] is the outcome of the
    [try] block on the given attempt: the float of [ticker['last']], or
    [None] when anything in the block raised. *)
Definition ticker_feed : Type := string -> string -> nat -> option num.

Fixpoint attempt_loop (ticker : ticker_feed) (exchange_name normalized_symbol : string)
    (retries : nat) (todo : list nat) (delay : Z) (naps : list Z) : lookup :=
  match todo with
  | [] => Lookup FellThrough naps
  | attempt :: todo' =>
      match ticker exchange_name normalized_symbol attempt with
      | Some last => Lookup (Returned (Some last, None)) naps
      | None =>
          if (attempt <? retries - 1)%nat
          then
            if delay <? 0 then Lookup SleepRaised naps
            else attempt_loop ticker exchange_name normalized_symbol retries todo'
                   (delay * 2) (naps ++ [delay])
          else Lookup (Returned (None, Some "failed to fetch price")) naps
      end
  end.

Definition get_current_price (ticker : ticker_feed) (exchange_name symbol : string)
    (retries : nat) (delay : Z) : lookup :=
  let normalized_symbol := normalize_symbol exchange_name symbol in
  attempt_loop ticker exchange_name normalized_symbol retries (seq 0 retries) delay [].

End WithPlatform.

(** ** Sessions *)

(** The keys of a session that hold an order parameter, in the order of
    the list [['exchange', 'trading_pair', 'quantity', 'price']]. *)
Inductive slot : Type := Exchange | TradingPair | Quantity | Price.

Definition slot_eqb (a b : slot) : bool :=
  match a, b with
  | Exchange, Exchange | TradingPair, TradingPair
  | Quantity, Quantity | Price, Price => true
  | _, _ => false
  end.

Record message : Type := Message {
  sender : string;
  text : string;
  timestamp : string
}.

(** [o is not None]. *)
Definition is_set {A : Type} (o : option A) : bool :=
  match o with Some _ => true | None => false end.

Section Engine.
Context `{P : Platform}.

(** One value of the dict [conversation_state]. *)
Record state : Type := State {
  exchange : option string;
  trading_pair : option string;
  quantity : option num;
  price : option num;
  messages : list message;
  ended : bool;
  created : instant;
  current_step : slot;
  retry_count : Z
}.

Definition set_exchange (v : string) (st : state) : state :=
  State (Some v) (trading_pair st) (quantity st) (price st) (messages st)
    (ended st) (created st) (current_step st) (retry_count st).

Definition set_trading_pair (v : string) (st : state) : state :=
  State (exchange st) (Some v) (quantity st) (price st) (messages st)
    (ended st) (created st) (current_step st) (retry_count st).

Definition set_quantity (v : num) (st : state) : state :=
  State (exchange st) (trading_pair st) (Some v) (price st) (messages st)
    (ended st) (created st) (current_step st) (retry_count st).

Definition set_price (v : num) (st : state) : state :=
  State (exchange st) (trading_pair st) (quantity st) (Some v) (messages st)
    (ended st) (created st) (current_step st) (retry_count st).

Definition append_message (m : message) (st : state) : state :=
  State (exchange st) (trading_pair st) (quantity st) (price st)
    (messages st ++ [m])%list (ended st) (created st) (current_step st) (retry_count st).

Definition set_ended (b : bool) (st : state) : state :=
  State (exchange st) (trading_pair st) (quantity st) (price st) (messages st)
    b (created st) (current_step st) (retry_count st).

Definition set_current_step (s : slot) (st : state) : state :=
  State (exchange st) (trading_pair st) (quantity st) (price st) (messages st)
    (ended st) (created st) s (retry_count st).

Definition set_retry_count (n : Z) (st : state) : state :=
  State (exchange st) (trading_pair st) (quantity st) (price st) (messages st)
    (ended st) (created st) (current_step st) n.

(** [state[s] is None]. *)
Definition is_missing (st : state) (s : slot) : bool :=
  match s with
  | Exchange => negb (is_set (exchange st))
  | TradingPair => negb (is_set (trading_pair st))
  | Quantity => negb (is_set (quantity st))
  | Price => negb (is_set (price st))
  end.

Definition missing_slots (st : state) : list slot :=
  List.filter (is_missing st) [Exchange; TradingPair; Quantity; Price].

Definition initial_message : string :=
  "Hello! Welcome to Voice Trading Assistant. Please choose an exchange: OKX, Bybit, Deribit, or Binance.".

Definition initial_state (now_iso : string) (now : instant) : state :=
  State None None None None [Message "bot" initial_message now_iso] false now
    Exchange 0.

(** ** One turn of [webhook] *)

(** [any(keyword in transcript_lower for keyword in correction_keywords)]. *)
Definition is_correction_of (transcript_lower : string) : bool :=
  existsb (fun keyword => contains keyword transcript_lower) correction_keywords.

(** [[float(n) for n in re.findall(...)] or [extract_number(transcript)]]:
    an empty list of literals gives way to the one-element list holding
    the result of [extract_number], which may be [None]. *)
Definition numbers_of (transcript transcript_lower : string) : list (option num) :=
  match Re.findall number_pattern transcript_lower with
  | [] => [extract_number transcript]
  | found => List.map (fun n => Some (float_of_literal n)) found
  end.

(** [numbers[0]] and [numbers[-1]] of a non-empty list; [None] stands for
    Python's [None] element here. *)
Definition first_number (numbers : list (option num)) : option num :=
  match numbers with
  | n :: _ => n
  | [] => None
  end.

Definition last_number (numbers : list (option num)) : option num :=
  List.last numbers None.

(** Truth value of [state['quantity']]: set and not zero. *)
Definition quantity_truthy (st : state) : bool :=
  match quantity st with
  | Some q => truthy q
  | None => false
  end.

Definition list_truthy {A : Type} (l : list A) : bool :=
  match l with [] => false | _ :: _ => true end.

(** The candidates of lines 252 and 253. *)
Definition qty_candidate (numbers : list (option num)) (transcript_lower : string)
  : option num :=
  if list_truthy numbers && negb (contains "at" transcript_lower)
  then first_number numbers
  else None.

Definition price_candidate (st : state) (numbers : list (option num))
    (transcript_lower : string) : option num :=
  if list_truthy numbers && contains "at" transcript_lower
  then last_number numbers
  else if list_truthy numbers && quantity_truthy st
       then first_number numbers
       else None.

Definition display_name (exch : string) : string :=
  dict_get exchange_display_names exch exch.

(** Truth value of an optional string: set and non-empty. *)
Definition str_truthy (o : option string) : bool :=
  match o with Some s => nonempty s | None => false end.

(** The four candidates extracted from one transcript. *)
Record candidates : Type := Candidates {
  exch : option string;
  symbol : option string;
  qty : option num;
  price_c : option num
}.

(** The session under update together with [updated_slots]. *)
Definition progress : Type := (state * list string)%type.

Definition assign_exchange (c : candidates) (pr : progress) : progress :=
  match exch c with
  | Some e => (set_exchange e (fst pr),
               (snd pr ++ [("exchange to " ++ display_name e)%string])%list)
  | None => pr
  end.

Definition assign_trading_pair (c : candidates) (pr : progress) : progress :=
  match symbol c with
  | Some s => (set_trading_pair s (fst pr), (snd pr ++ [("trading pair to " ++ s)%string])%list)
  | None => pr
  end.

Definition assign_quantity (c : candidates) (pr : progress) : progress :=
  match qty c with
  | Some q => (set_quantity q (fst pr), (snd pr ++ [("quantity to " ++ show_num q)%string])%list)
  | None => pr
  end.

Definition assign_price (c : candidates) (pr : progress) : progress :=
  match price_c c with
  | Some p => (set_price p (fst pr), (snd pr ++ [("price to " ++ show_num p)%string])%list)
  | None => pr
  end.

(** Lines 259-286: the two branches of the parameter update. *)
Definition update_slots (is_correction : bool) (c : candidates) (pr : progress)
  : progress :=
  if is_correction then
    let pr := if str_truthy (exch c) then assign_exchange c pr else pr in
    let pr := if str_truthy (symbol c) then assign_trading_pair c pr else pr in
    let pr := if is_set (qty c) then assign_quantity c pr else pr in
    let pr := if is_set (price_c c) then assign_price c pr else pr in
    pr
  else
    let pr := if is_missing (fst pr) Exchange && str_truthy (exch c)
              then assign_exchange c pr else pr in
    let pr := if is_missing (fst pr) TradingPair && str_truthy (symbol c)
              then assign_trading_pair c pr else pr in
    let pr := if is_missing (fst pr) Quantity && is_set (qty c)
              then assign_quantity c pr else pr in
    let pr := if is_missing (fst pr) Price && is_set (price_c c)
              then assign_price c pr else pr in
    pr.

End Engine.

(** ** Handlers *)

Section Handlers.
Context `{P : Platform}.

(** What a request reads from outside while it runs: the two readings of
    [datetime.now(timezone.utc).isoformat()] and the ticker. *)
Record world : Type := World {
  now_user : string;
  now_bot : string;
  ticker : ticker_feed
}.

(** The JSON body of a [/webhook] request: an object whose [call_id],
    [transcript] and [timestamp], when present, are strings.  An absent
    transcript is the empty one. *)
Record request : Type := Request {
  call_id : option string;
  transcript : string;
  timestamp_field : option string
}.

Inductive outcome : Type :=
| Ok (bot_response : string)   (* 200, [{'response': bot_response}] *)
| InvalidSession               (* 400, 'Invalid or missing call_id' *)
| SessionEnded                 (* 400, 'Session has ended' *)
| Raised.                      (* an exception left the handler: 500 *)

(** [f"{state['trading_pair']}"]. *)
Definition pair_text (st : state) : string :=
  match trading_pair st with Some p => p | None => "None" end.

(** The dict [prompts], built from the session as it is after the update. *)
Definition prompts (st : state) (step : slot) : list string :=
  match step with
  | Exchange =>
      ["Please choose an exchange: OKX, Bybit, Deribit, or Binance.";
       "Which exchange? Say OKX, Bybit, Deribit, or Binance.";
       "Exchange name, please (e.g., OKX)."]
  | TradingPair =>
      ["What trading pair would you like? (e.g., BTC/USDT)";
       "Please specify the trading pair, like ETH/USDT.";
       "Trading pair? (e.g., BTC/USDT)"]
  | Quantity =>
      ["How many units of " ++ pair_text st ++ "?";
       "Number of " ++ pair_text st ++ " units, please.";
       "Quantity for " ++ pair_text st ++ "?"]
  | Price =>
      ["At what price? Just say the number.";
       "Please say the price (e.g., 2000).";
       "Price?"]
  end.

(** [l[i]] with Python's negative indices; [None] is [IndexError]. *)
Definition list_item (l : list string) (i : Z) : option string :=
  let len := Z.of_nat (List.length l) in
  if 0 <=? i then nth_error l (Z.to_nat i)
  else if - len <=? i then nth_error l (Z.to_nat (len + i))
  else None.

Definition fallback_response : string :=
  "Sorry, I didn’t catch that. Please try again.".

(** The condition [ack or prompt_idx > 0] of line 344. *)
Definition shows_prompt (ack : string) (prompt_idx : Z) : bool :=
  nonempty ack || (0 <? prompt_idx).

(** Lines 294-307.  [None] as response: an exception was raised. *)
Definition confirm_order (w : world) (st : state) : option string * state :=
  match exchange st, trading_pair st, quantity st, price st with
  | Some e, Some tp, Some q, Some p =>
      match returned (get_current_price (ticker w) e tp 3 1) with
      | Returned (current_price, error) =>
          let exchange_display := dict_get exchange_display_names e (capitalize e) in
          let price_msg :=
            match current_price with
            | Some cp =>
                if truthy cp
                then "Current market price is $" ++ show_2f cp ++ "."
                else "⚠️ Couldn't fetch price: " ++ default "None" error ++ "."
            | None => "⚠️ Couldn't fetch price: " ++ default "None" error ++ "."
            end in
          let bot_response :=
            "✅ Order confirmed: Trading " ++ show_num q ++ " " ++ tp ++ " on "
            ++ exchange_display ++ " at $" ++ show_2f p ++ ". " ++ price_msg
            ++ " Goodbye!" in
          let st := set_ended true st in
          let st := set_retry_count 0 st in
          (Some bot_response, st)
      | FellThrough | SleepRaised => (None, st)
      end
  | _, _, _, _ => (None, st)
  end.

(** Lines 309-344. *)
Definition prompt_next (next_step : slot) (updated_slots : list string) (st : state)
  : option string * state :=
  let st := set_current_step next_step st in
  let st :=
    if list_truthy updated_slots then st
    else set_retry_count (retry_count st + 1) st in
  let ack :=
    if list_truthy updated_slots
    then "Got it, updated " ++ join " and " updated_slots ++ "."
    else "" in
  let prompt_idx := Z.min (retry_count st) 2 in
  if shows_prompt ack prompt_idx then
    match list_item (prompts st next_step) prompt_idx with
    | Some prompt => (Some (strip (ack ++ " " ++ prompt)), st)
    | None => (None, st)
    end
  else (Some fallback_response, st).

(** Lines 246-253: the candidates that one transcript yields in a
    session. *)
(** Building the list [numbers] ends with an exception: no literal is
    found and the call of [extract_number] raises.  Nothing else in the
    extraction can raise: [float] is applied to matches of the number
    pattern only. *)
Definition numbers_raise (transcript transcript_lower : string) : bool :=
  match Re.findall number_pattern transcript_lower with
  | [] => extract_number_raises transcript
  | _ :: _ => false
  end.

Definition extract (st : state) (transcript : string) : candidates :=
  let transcript_lower := lower transcript in
  let exch := extract_exchange transcript in
  let symbol := extract_trading_pair transcript in
  let numbers := numbers_of transcript transcript_lower in
  let qty := qty_candidate numbers transcript_lower in
  let price := price_candidate st numbers transcript_lower in
  Candidates exch symbol qty price.

(** The body of [webhook] under the lock, once the session is known to be
    live.  The session is a dictionary that the handler updates in place:
    when an exception leaves the handler, what was written before it
    stays written, here the user entry. *)
Definition turn (w : world) (r : request) (st : state) : outcome * state :=
  let transcript := strip (transcript r) in
  let st :=
    append_message
      (Message "user" transcript (default (now_user w) (timestamp_field r))) st in
  let transcript_lower := lower transcript in
  let is_correction := is_correction_of transcript_lower in
  if numbers_raise transcript transcript_lower then (Raised, st) else
  let '(st, updated_slots) :=
    update_slots is_correction (extract st transcript) (st, []) in
  let '(response, st) :=
    match missing_slots st with
    | [] => confirm_order w st
    | next_step :: _ => prompt_next next_step updated_slots st
    end in
  match response with
  | Some bot_response =>
      (Ok bot_response, append_message (Message "bot" bot_response (now_bot w)) st)
  | None => (Raised, st)
  end.

Definition webhook (w : world) (r : request) (conversation_state : gmap string state)
  : outcome * gmap string state :=
  match call_id r with
  | None => (InvalidSession, conversation_state)
  | Some id =>
      if negb (nonempty id) then (InvalidSession, conversation_state)
      else
        match conversation_state !! id with
        | None => (InvalidSession, conversation_state)
        | Some st =>
            if ended st then (SessionEnded, conversation_state)
            else
              let '(res, st') := turn w r st in
              (res, <[id := st']> conversation_state)
        end
  end.

(** [start_call], with the fresh [uuid4] and the two clock readings as
    arguments.  The response carries the id and the greeting. *)
Definition start_call (uuid now_iso : string) (now : instant)
    (conversation_state : gmap string state)
  : (string * string) * gmap string state :=
  ((uuid, initial_message), <[uuid := initial_state now_iso now]> conversation_state).

(** A session is removed when it has ended and is older than 300 s. *)
Definition expired (now : instant) (st : state) : bool :=
  ended st && older_than_300 now (created st).

Definition cleanup_old_states (now : instant) (conversation_state : gmap string state)
  : gmap string state :=
  filter (fun kv => expired now (snd kv) = false) conversation_state.

(** [poll_messages]: [None] is the 404 answer. *)
Definition poll_messages (now : instant) (id : string)
    (conversation_state : gmap string state)
  : option (list message * bool) * gmap string state :=
  let conversation_state := cleanup_old_states now conversation_state in
  match conversation_state !! id with
  | None => (None, conversation_state)
  | Some st => (Some (messages st, ended st), conversation_state)
  end.

(** [end_call]: [false] is the 404 answer. *)
Definition end_call (id : option string) (conversation_state : gmap string state)
  : bool * gmap string state :=
  match id with
  | None => (false, conversation_state)
  | Some id =>
      match conversation_state !! id with
      | Some st => (true, <[id := set_ended true st]> conversation_state)
      | None => (false, conversation_state)
      end
  end.

(** ** Runs of the service *)

Inductive op : Type :=
| StartCall (uuid now_iso : string) (now : instant)
| Webhook (w : world) (r : request)
| PollMessages (now : instant) (id : string)
| EndCall (id : option string).

Definition apply_op (o : op) (cs : gmap string state) : gmap string state :=
  match o with
  | StartCall uuid now_iso now => snd (start_call uuid now_iso now cs)
  | Webhook w r => snd (webhook w r cs)
  | PollMessages now id => snd (poll_messages now id cs)
  | EndCall id => snd (end_call id cs)
  end.

(** A request can be served in a store when, for [start_call], the text
    of the id drawn by [uuid4] is not empty and not in use. *)
Definition admissible (o : op) (cs : gmap string state) : Prop :=
  match o with
  | StartCall uuid _ _ => Text.nonempty uuid = true /\ cs !! uuid = None
  | _ => True
  end.

(** The stores that the service can be in: it starts empty and serves
    requests one at a time (the handlers run under [state_lock]). *)
Inductive reachable : gmap string state -> Prop :=
| reachable_empty : reachable ∅
| reachable_step (cs : gmap string state) (o : op) :
    reachable cs -> admissible o cs -> reachable (apply_op o cs).

End Handlers.

(** * Vocabulary of the properties *)

(** ** Texts *)

Section TextVocabulary.
Import Text.

(** The last character exists and is not white space. *)
Fixpoint ends_solid (s : string) : bool :=
  match s with
  | EmptyString => false
  | String c EmptyString => negb (is_space c)
  | String _ r => ends_solid r
  end.

(** The first character, if there is one. *)
Definition head_char (s : string) : option ascii :=
  match s with String c _ => Some c | EmptyString => None end.

(** The first character exists and is not white space. *)
Definition starts_solid (s : string) : bool :=
  match s with String c _ => negb (is_space c) | EmptyString => false end.

(** No character of the text is a lower-case letter. *)
Fixpoint no_lower (s : string) : bool :=
  match s with
  | EmptyString => true
  | String c r => negb (is_lower c) && no_lower r
  end.

(** The pattern has to read a literal that starts with a lower-case
    letter. *)
Fixpoint needs_lower (r : Re.regex) : bool :=
  match r with
  | Re.Lit (String a _) => is_lower a
  | Re.Seq r1 r2 => needs_lower r1 || needs_lower r2
  | Re.Grp _ r1 => needs_lower r1
  | _ => false
  end.

(** A continuation that rejects every position whose remaining text has
    no lower-case letter. *)
Definition dead {R : Type} (k : Re.cursor -> option R) : Prop :=
  forall c, no_lower (Re.rest c) = true -> k c = None.

(** The transcript as [extract_trading_pair] prepares it for matching. *)
Definition prepared (transcript : string) : string :=
  let transcript := upper transcript in
  let transcript := Re.sub (spoken "SLASH") "/" transcript in
  let transcript := Re.sub (spoken "DASH") "-" transcript in
  let transcript := Re.sub (spoken "HYPHEN") "-" transcript in
  fold_left (fun t entry => replace (upper (fst entry)) (snd entry) t)
    mispronunciations transcript.

End TextVocabulary.

Section Vocabulary.
Context `{P : Platform}.
Import Text.

(** A slot holds an exchange id or pair (strings) or a number. *)
Inductive value : Type :=
| Str (s : string)
| Num (n : num).

(** [state[s]]. *)
Definition slot_value (st : state) (s : slot) : option value :=
  match s with
  | Exchange => Str <$> exchange st
  | TradingPair => Str <$> trading_pair st
  | Quantity => Num <$> quantity st
  | Price => Num <$> price st
  end.

(** The non-empty candidate for a slot: [None] when nothing was extracted
    for it (or, for the two string slots, an empty string was). *)
Definition candidate (c : candidates) (s : slot) : option value :=
  match s with
  | Exchange => if str_truthy (exch c) then Str <$> exch c else None
  | TradingPair => if str_truthy (symbol c) then Str <$> symbol c else None
  | Quantity => Num <$> qty c
  | Price => Num <$> price_c c
  end.

(** The part of a session that [update_slots] never writes. *)
Definition same_frame (a b : state) : Prop :=
  messages a = messages b /\ ended a = ended b /\ created a = created b
  /\ current_step a = current_step b /\ retry_count a = retry_count b.

(** The utterance as the handler sees it. *)
Definition utterance (r : request) : string := strip (transcript r).

(** The session after the user entry was appended. *)
Definition heard (w : world) (r : request) (st : state) : state :=
  append_message
    (Message "user" (utterance r) (default (now_user w) (timestamp_field r))) st.

(** The extraction of the turn ends with an exception: the handler is
    left right after the user entry was appended. *)
Definition extraction_raises (r : request) : bool :=
  numbers_raise (utterance r) (lower (utterance r)).

(** The session and [updated_slots] after the parameter update. *)
Definition resolved (w : world) (r : request) (st : state) : progress :=
  update_slots (is_correction_of (lower (utterance r)))
    (extract (heard w r st) (utterance r)) (heard w r st, []).

(** The branch taken after the update, with its response. *)
Definition answered (w : world) (r : request) (st : state) : option string * state :=
  match missing_slots (fst (resolved w r st)) with
  | [] => confirm_order w (fst (resolved w r st))
  | next_step :: _ => prompt_next next_step (snd (resolved w r st)) (fst (resolved w r st))
  end.

(** The text of the confirmation. *)
Definition confirmation (e tp : string) (q p : num) (price_msg : string) : string :=
  "✅ Order confirmed: Trading " ++ show_num q ++ " " ++ tp ++ " on "
  ++ dict_get exchange_display_names e (capitalize e) ++ " at $" ++ show_2f p
  ++ ". " ++ price_msg ++ " Goodbye!".

(** The session that [prompt_next] leaves behind. *)
Definition prompted (next_step : slot) (updated_slots : list string) (st : state) : state :=
  if list_truthy updated_slots then set_current_step next_step st
  else set_retry_count (retry_count st + 1) (set_current_step next_step st).

(** The acknowledgement clause of a turn that updated something. *)
Definition acknowledgement (updated_slots : list string) : string :=
  "Got it, updated " ++ join " and " updated_slots ++ ".".

(** A session is sound when its retry counter is not negative and, once
    its four slots are set, it has ended. *)
Definition sound (st : state) : Prop :=
  0 <= retry_count st /\ (missing_slots st = [] -> ended st = true).

(** The invariant of the store: ids are not empty and sessions are sound. *)
Definition store_sound (cs : gmap string state) : Prop :=
  forall id st, cs !! id = Some st -> nonempty id = true /\ sound st.

(** The two entries that an answered turn adds to the history. *)
Definition turn_entries (w : world) (r : request) (bot_response : string)
  : list message :=
  [Message "user" (utterance r) (default (now_user w) (timestamp_field r));
   Message "bot" bot_response (now_bot w)].

(** The request, served on the store [cs], is a call of [end_call] that
    finds the session [id] there. *)
Definition ends_session (id : string) (o : op) (cs : gmap string state) : bool :=
  match o with
  | EndCall (Some i) => String.eqb i id && is_set (cs !! id)
  | _ => false
  end.

(** The stores reached by runs in which [end_call] was never served on
    the session [id].  Calls of [end_call] on other sessions, without id
    or for an id that is not in the store are allowed. *)
Inductive reachable_unforced (id : string) : gmap string state -> Prop :=
| unforced_empty : reachable_unforced id ∅
| unforced_step (cs : gmap string state) (o : op) :
    reachable_unforced id cs -> admissible o cs -> ends_session id o cs = false ->
    reachable_unforced id (apply_op o cs).

(** The reading of the specification that the code does not meet: a session
    whose flag is true has its four slots set. *)
Definition ended_implies_all_set : Prop :=
  forall (cs : gmap string state) (id : string) (st : state),
    reachable cs -> cs !! id = Some st -> ended st = true -> missing_slots st = [].

(** [\bword\b] has a match in the lower-cased utterance. *)
Definition says_word (word utterance : string) : bool :=
  is_set (Re.search (spoken word) (lower utterance)).

(** The reading of the specification that the code does not meet, for an
    utterance with a single number [n] written in digits: the keyword is
    the word "at", and a quantity that is known makes [n] the price. *)
Definition candidates_by_word : Prop :=
  forall (st : state) (t n : string),
    Re.findall number_pattern (lower t) = [n] ->
    (says_word "at" t = true ->
       price_c (extract st t) = Some (float_of_literal n) /\ qty (extract st t) = None)
    /\ (says_word "at" t = false -> is_set (quantity st) = true ->
          price_c (extract st t) = Some (float_of_literal n))
    /\ (says_word "at" t = false -> quantity st = None ->
          qty (extract st t) = Some (float_of_literal n)).

(** The fragment that stands in for the market price when the lookup
    failed on its last attempt. *)
Definition price_warning : string :=
  "⚠️ Couldn't fetch price: failed to fetch price.".

End Vocabulary.

(** ** A platform to run examples on

    Numbers are kept as the literal they were read from: a number is true
    when one of its digits is not [0], and prints as its literal (where
    Python would print the float, as in [65000.0] and [65000.00]).  The
    word parser knows no number word: it raises [ValueError], except on
    "thousand one", where the library raises [IndexError] (it forms the
    multiplier of "thousand" from an empty list of words).  The examples
    below write their numbers in digits or contain none. *)

Definition literal_truthy (s : string) : bool :=
  existsb (fun c => Text.is_digit c && negb (Ascii.eqb c "0"))
    (list_ascii_of_string s).

#[export] Instance literal_platform : Platform := {|
  num := string;
  float_of_literal := fun s => s;
  word_to_num := fun s =>
    if String.eqb s "thousand one" then OtherError else ValueError;
  truthy := literal_truthy;
  show_num := fun s => s;
  show_2f := fun s => s;
  instant := Z;
  older_than_300 := fun now created => 300 <? now - created
|}.

(** ** Runs on the literal platform *)

(** A world in which every attempt of the price lookup fails. *)
Definition offline : world := World "t1" "t2" (fun _ _ _ => None).

(** The request of session [c1] carrying the utterance [t]. *)
Definition say (t : string) : op := Webhook offline (Request (Some "c1") t None).

(** The same request, as [webhook] takes it. *)
Definition ask (t : string) : request := Request (Some "c1") t None.

(** The store after serving [ops], in order, from the empty store. *)
Definition run (ops : list op) : gmap string state :=
  fold_left (fun cs o => apply_op o cs) ops ∅.

(** The session [c1] of a store (a fresh one when it is absent). *)
Definition session (cs : gmap string state) : state :=
  default (initial_state "" 0) (cs !! "c1").

(** The session that [start_call] creates. *)
Definition fresh : state := initial_state "t0" 0.

(** One session, just created. *)
Definition opened : gmap string state := run [StartCall "c1" "t0" 0].

(** One session, closed by [end_call] before any turn. *)
Definition hung_up : gmap string state :=
  run [StartCall "c1" "t0" 0; EndCall (Some "c1")].

(** One session with exchange, pair and quantity set: the price is next. *)
Definition priced_next : gmap string state :=
  run [StartCall "c1" "t0" 0; say "okx"; say "BTC/USDT"; say "0.5"].

(** One session whose first turn raised and whose second was answered. *)
Definition stalled : gmap string state :=
  run [StartCall "c1" "t0" 0; say "thousand one"; say "okx"].

(** One session, confirmed by its fourth turn. *)
Definition confirmed : gmap string state :=
  run [StartCall "c1" "t0" 0; say "okx"; say "BTC/USDT"; say "0.5"; say "at 65000"].

(** ** Vocabulary of the further properties *)

Section FurtherVocabulary.
Context `{P : Platform}.
Import Text.

(** The live session is asked for its first missing slot. *)
Definition on_step (st : state) : Prop :=
  ended st = false -> exists rest, missing_slots st = current_step st :: rest.

(** Every character of the text is in the class [p]. *)
Fixpoint all_chars (p : ascii -> bool) (s : string) : bool :=
  match s with
  | EmptyString => true
  | String c r => p c && all_chars p r
  end.

(** The text is made of ASCII characters: the embedding of the text
    functions is exact on it. *)
Definition ascii_text (s : string) : bool := all_chars is_ascii s.

(** The text of a token of a trading pair: 2 to 6 characters of
    [[A-Z0-9]]. *)
Definition token_text (s : string) : Prop :=
  (2 <= String.length s <= 6)%nat /\ all_chars is_token_char s = true.

(** The text contains a digit. *)
Fixpoint has_digit (s : string) : bool :=
  match s with
  | EmptyString => false
  | String c r => is_digit c || has_digit r
  end.

(** The characters of the text that are in the class [p], in order. *)
Fixpoint filter_chars (p : ascii -> bool) (s : string) : string :=
  match s with
  | EmptyString => EmptyString
  | String c r => if p c then String c (filter_chars p r) else filter_chars p r
  end.

(** The character is not the slash. *)
Definition not_slash (c : ascii) : bool := negb (Ascii.eqb c "/").

(** The pattern has no capture group. *)
Fixpoint group_free (r : Re.regex) : bool :=
  match r with
  | Re.Grp _ _ => false
  | Re.Seq r1 r2 => group_free r1 && group_free r2
  | Re.Opt r1 => group_free r1
  | _ => true
  end.

(** The character is not one of the marks that [extract_number] drops. *)
Definition not_currency_mark (c : ascii) : bool := negb (is_currency_mark c).

(** The transcript as [extract_number] hands it to its parsers. *)
Definition clean_str (transcript : string) : string :=
  Re.sub (Re.Chr is_currency_mark) "" transcript.

(** The ids of the table of [extract_exchange], in its order. *)
Definition exchange_ids : list string := List.map fst exchanges.

(** A variant of the table entry occurs in the lower-cased transcript. *)
Definition mentions (transcript : string) (entry : string * list string) : bool :=
  existsb (fun variant => contains variant (lower transcript)) (snd entry).

(** The rank of a slot in the list
    [['exchange', 'trading_pair', 'quantity', 'price']]. *)
Definition slot_index (s : slot) : nat :=
  match s with Exchange => 0 | TradingPair => 1 | Quantity => 2 | Price => 3 end.

(** Entries of the user and of the bot in which every entry of the bot
    comes right after an entry of the user; [after_user] tells whether the
    entry before the list is one of the user. *)
Fixpoint dialogue_from (after_user : bool) (ms : list message) : bool :=
  match ms with
  | [] => true
  | m :: rest =>
      if String.eqb (sender m) "user" then dialogue_from true rest
      else String.eqb (sender m) "bot" && after_user && dialogue_from false rest
  end.

Definition dialogue (ms : list message) : bool := dialogue_from false ms.

(** The number of entries of a sender. *)
Definition entries_of (who : string) (ms : list message) : nat :=
  List.length (List.filter (fun m => String.eqb (sender m) who) ms).

(** A history opens with the greeting of the bot and goes on as a
    dialogue. *)
Definition transcript_shape (ms : list message) : Prop :=
  exists greeting rest,
    ms = greeting :: rest /\ sender greeting = "bot"
    /\ text greeting = initial_message /\ dialogue rest = true.

(** The update writes slot [s]: in a correction when there is a non-empty
    candidate for it, otherwise when moreover the slot is unset. *)
Definition written (is_correction : bool) (st : state) (c : candidates) (s : slot)
  : bool :=
  if is_correction then is_set (candidate c s)
  else is_missing st s && is_set (candidate c s).

(** The entry of [updated_slots] for a slot that is written. *)
Definition fragment (c : candidates) (s : slot) : string :=
  match s with
  | Exchange => "exchange to " ++ display_name (default "" (exch c))
  | TradingPair => "trading pair to " ++ default "" (symbol c)
  | Quantity => "quantity to " ++ match qty c with Some q => show_num q | None => "" end
  | Price => "price to " ++ match price_c c with Some p => show_num p | None => "" end
  end.

(** The first [n] delays of the backoff that starts at [delay]. *)
Definition backoff (delay : Z) (n : nat) : list Z :=
  List.map (fun j => delay * 2 ^ Z.of_nat j) (seq 0 n).

(** The sentence about the market price, for a lookup that returned
    [current_price] without error. *)
Definition price_notice (current_price : num) : string :=
  if truthy current_price
  then "Current market price is $" ++ show_2f current_price ++ "."
  else "⚠️ Couldn't fetch price: None.".

End FurtherVocabulary.

(** A world in which the first attempt of the price lookup succeeds. *)
Definition online : world := World "t1" "t2" (fun _ _ _ => Some "64000.5").

(** * Properties *)

(** ** Slot resolution *)

Section SlotResolution.
Context `{P : Platform}.

Lemma is_missing_slot_value (st : state) (s : slot) :
  is_missing st s = negb (is_set (slot_value st s)).
Proof. destruct s; cbn; [destruct (exchange st) | destruct (trading_pair st)
                        | destruct (quantity st) | destruct (price st)]; reflexivity. Qed.

Ltac split_candidates c :=
  destruct c as [[[|? ?]|] [[|? ?]|] [?|] [?|]].

(** In a correction every non-empty candidate lands in its slot, and a
    slot without candidate is left alone. *)
Lemma update_slots_correction (c : candidates) (pr : progress) (s : slot) :
  slot_value (fst (update_slots true c pr)) s
  = match candidate c s with
    | Some v => Some v
    | None => slot_value (fst pr) s
    end.
Proof.
  destruct pr as [st us]. split_candidates c; destruct s; reflexivity.
Qed.

(** Outside a correction a set slot keeps its value, and an unset slot
    receives the non-empty candidate, if there is one. *)
Lemma update_slots_ordinary (c : candidates) (pr : progress) (s : slot) :
  slot_value (fst (update_slots false c pr)) s
  = match slot_value (fst pr) s with
    | Some v => Some v
    | None => candidate c s
    end.
Proof.
  destruct pr as [[[e|] [tp|] [q|] [p|] ms en cr step rc] us];
    split_candidates c; destruct s; reflexivity.
Qed.

Lemma update_slots_frame (b : bool) (c : candidates) (pr : progress) :
  same_frame (fst pr) (fst (update_slots b c pr)).
Proof.
  destruct pr as [[[e|] [tp|] [q|] [p|] ms en cr step rc] us];
    destruct b; split_candidates c; repeat split.
Qed.

(** When [updated_slots] comes out empty, no slot was written. *)
Lemma update_slots_quiet (b : bool) (c : candidates) (st : state) :
  snd (update_slots b c (st, [])) = [] ->
  fst (update_slots b c (st, [])) = st.
Proof.
  destruct st as [[e|] [tp|] [q|] [p|] ms en cr step rc];
    destruct b; split_candidates c; cbn; intros H;
    first [reflexivity | discriminate H].
Qed.

End SlotResolution.

(** ** Strings that [strip] leaves alone *)

Section Stripping.
Import Text.

Lemma rstrip_solid (s : string) : ends_solid s = true -> rstrip s = s.
Proof.
  induction s as [|c r IH]; [discriminate|].
  destruct r as [|d r'].
  - cbn. destruct (is_space c); [discriminate|reflexivity].
  - intros H. change (ends_solid (String c (String d r'))) with (ends_solid (String d r')) in H.
    specialize (IH H).
    change (rstrip (String c (String d r')))
      with (match rstrip (String d r') with
            | EmptyString => if is_space c then EmptyString else String c EmptyString
            | r0 => String c r0
            end).
    rewrite IH. reflexivity.
Qed.

Lemma lstrip_solid (s : string) : starts_solid s = true -> lstrip s = s.
Proof.
  destruct s as [|c r]; [discriminate|]. cbn.
  destruct (is_space c); [discriminate|reflexivity].
Qed.

Lemma ends_solid_app (a b : string) :
  ends_solid b = true -> ends_solid (a ++ b) = true.
Proof.
  intros H. induction a as [|c a IH]; [exact H|].
  change (String c a ++ b) with (String c (a ++ b)).
  destruct (a ++ b) as [|d r] eqn:E.
  - destruct a; [change b with ("" ++ b) in H; rewrite E in H|]; discriminate.
  - exact IH.
Qed.

Lemma strip_solid (s : string) :
  starts_solid s = true -> ends_solid s = true -> strip s = s.
Proof.
  intros Hs He. unfold strip. rewrite (lstrip_solid _ Hs). apply rstrip_solid, He.
Qed.

(** A leading space in front of a solid text is all that [strip] removes. *)
Lemma strip_space_solid (s : string) :
  starts_solid s = true -> ends_solid s = true -> strip (" " ++ s) = s.
Proof.
  intros Hs He. unfold strip.
  change (lstrip (" " ++ s)) with (lstrip s).
  rewrite (lstrip_solid _ Hs). apply rstrip_solid, He.
Qed.

End Stripping.

(** ** The price lookup *)

Section PriceLookup.
Context `{P : Platform}.

(** With the default [retries=3] the loop always ends in a [return]. *)
Lemma get_current_price_returns (tk : ticker_feed) (e tp : string) :
  exists current_price error,
    returned (get_current_price tk e tp 3 1) = Returned (current_price, error).
Proof.
  unfold get_current_price. cbn [seq attempt_loop].
  destruct (tk e (normalize_symbol e tp) 0%nat); [cbn; eauto|].
  cbn [Nat.ltb Nat.leb Nat.sub attempt_loop Z.ltb Z.compare Z.mul Pos.mul].
  destruct (tk e (normalize_symbol e tp) 1%nat); [cbn; eauto|].
  cbn [Nat.ltb Nat.leb Nat.sub attempt_loop Z.ltb Z.compare Z.mul Pos.mul].
  destruct (tk e (normalize_symbol e tp) 2%nat); cbn; eauto.
Qed.

(** Three failed attempts: the call slept 1 then 2 units and returned the
    pair [(None, "failed to fetch price")]. *)
Lemma get_current_price_exhausted (tk : ticker_feed) (e tp : string) :
  (forall attempt, (attempt < 3)%nat -> tk e (normalize_symbol e tp) attempt = None) ->
  get_current_price tk e tp 3 1
  = Lookup (Returned (None, Some "failed to fetch price")) [1; 2].
Proof.
  intros H. unfold get_current_price. cbn [seq attempt_loop].
  rewrite (H 0%nat) by lia.
  cbn [Nat.ltb Nat.leb Nat.sub attempt_loop Z.ltb Z.compare Z.mul Pos.mul].
  rewrite (H 1%nat) by lia.
  cbn [Nat.ltb Nat.leb Nat.sub attempt_loop Z.ltb Z.compare Z.mul Pos.mul].
  rewrite (H 2%nat) by lia. reflexivity.
Qed.

End PriceLookup.

(** ** Anatomy of a turn *)

Section Turn.
Context `{P : Platform}.
Import Text.

Lemma turn_eq (w : world) (r : request) (st : state) :
  turn w r st
  = if extraction_raises r then (Raised, heard w r st)
    else
      match fst (answered w r st) with
      | Some bot_response =>
          (Ok bot_response,
           append_message (Message "bot" bot_response (now_bot w)) (snd (answered w r st)))
      | None => (Raised, snd (answered w r st))
      end.
Proof.
  unfold turn, extraction_raises, answered, resolved, heard, utterance.
  destruct (numbers_raise _ _); [reflexivity|].
  destruct (update_slots _ _ _) as [st2 us]. cbn [fst snd].
  destruct (missing_slots st2); [destruct (confirm_order w st2)
                                | destruct (prompt_next _ _ _)]; reflexivity.
Qed.

(** A turn whose extraction raises stops after the user entry. *)
Lemma turn_raised (w : world) (r : request) (st : state) :
  extraction_raises r = true -> turn w r st = (Raised, heard w r st).
Proof. intros H. rewrite turn_eq, H. reflexivity. Qed.

(** A turn whose extraction returns goes on to the update and the answer. *)
Lemma turn_answered (w : world) (r : request) (st : state) :
  extraction_raises r = false ->
  turn w r st
  = match fst (answered w r st) with
    | Some bot_response =>
        (Ok bot_response,
         append_message (Message "bot" bot_response (now_bot w)) (snd (answered w r st)))
    | None => (Raised, snd (answered w r st))
    end.
Proof. intros H. rewrite turn_eq, H. reflexivity. Qed.

Lemma missing_slots_nil (st : state) :
  missing_slots st = [] <->
  exists e tp q p, exchange st = Some e /\ trading_pair st = Some tp
                   /\ quantity st = Some q /\ price st = Some p.
Proof.
  unfold missing_slots. cbn.
  destruct (exchange st), (trading_pair st), (quantity st), (price st); cbn;
    split; intros H; try discriminate H; eauto 10;
    destruct H as (? & ? & ? & ? & ? & ? & ? & ?); discriminate.
Qed.

(** The slots fix [missing_slots]. *)
Lemma missing_slots_ext (a b : state) :
  (forall s, slot_value a s = slot_value b s) -> missing_slots a = missing_slots b.
Proof.
  intros H. unfold missing_slots.
  apply filter_ext. intros s. rewrite !is_missing_slot_value, H. reflexivity.
Qed.

Lemma confirm_order_spec (w : world) (st : state) :
  missing_slots st = [] ->
  exists bot_response,
    confirm_order w st = (Some bot_response, set_retry_count 0 (set_ended true st)).
Proof.
  intros H. apply missing_slots_nil in H. destruct H as (e & tp & q & p & He & Ht & Hq & Hp).
  unfold confirm_order. rewrite He, Ht, Hq, Hp.
  destruct (get_current_price_returns (ticker w) e tp) as (cp & err & ->).
  eauto.
Qed.

Lemma prompts_length (st : state) (step : slot) : List.length (prompts st step) = 3%nat.
Proof. destruct step; reflexivity. Qed.

Lemma list_item_in_range (l : list string) (i : Z) :
  0 <= i < Z.of_nat (List.length l) ->
  exists x, list_item l i = Some x /\ nth_error l (Z.to_nat i) = Some x.
Proof.
  intros H. unfold list_item.
  destruct (0 <=? i) eqn:E; [|lia].
  destruct (nth_error l (Z.to_nat i)) eqn:N; [eauto|].
  apply nth_error_None in N. lia.
Qed.

End Turn.

Section Prompting.
Context `{P : Platform}.
Import Text.

(** Every scripted prompt starts and ends with a character that [strip]
    keeps, and none starts like the fallback sentence. *)
Lemma prompts_solid (st : state) (step : slot) (i : nat) (prompt : string) :
  nth_error (prompts st step) i = Some prompt ->
  starts_solid prompt = true /\ ends_solid prompt = true
  /\ head_char prompt <> head_char fallback_response.
Proof.
  intros H.
  destruct step; destruct i as [|[|[|i]]];
    try (destruct i; discriminate H);
    injection H as <-;
    (split; [reflexivity|]; split; [|discriminate]);
    first [reflexivity | do 2 apply ends_solid_app; reflexivity].
Qed.

Lemma prompt_next_eq (next_step : slot) (updated_slots : list string) (st : state) :
  prompt_next next_step updated_slots st
  = if shows_prompt
         (if list_truthy updated_slots then acknowledgement updated_slots else "")
         (Z.min (retry_count (prompted next_step updated_slots st)) 2)
    then
      match
        list_item (prompts (prompted next_step updated_slots st) next_step)
          (Z.min (retry_count (prompted next_step updated_slots st)) 2)
      with
      | Some prompt =>
          (Some (strip ((if list_truthy updated_slots
                         then acknowledgement updated_slots else "")
                        ++ " " ++ prompt)),
           prompted next_step updated_slots st)
      | None => (None, prompted next_step updated_slots st)
      end
    else (Some fallback_response, prompted next_step updated_slots st).
Proof.
  unfold prompt_next, prompted, acknowledgement.
  destruct (list_truthy updated_slots); reflexivity.
Qed.

Lemma prompt_next_spec (next_step : slot) (updated_slots : list string) (st : state) :
  0 <= retry_count st ->
  let st' := prompted next_step updated_slots st in
  let prompt_idx := Z.min (retry_count st') 2 in
  exists prompt,
    nth_error (prompts st' next_step) (Z.to_nat prompt_idx) = Some prompt
    /\ 0 <= prompt_idx <= 2
    /\ ((updated_slots = [] /\ 1 <= prompt_idx
         /\ prompt_next next_step updated_slots st = (Some prompt, st'))
        \/ (updated_slots <> []
            /\ prompt_next next_step updated_slots st
               = (Some (acknowledgement updated_slots ++ " " ++ prompt), st'))).
Proof.
  intros Hrc st' prompt_idx.
  assert (Hst' : 0 <= retry_count st').
  { subst st'. unfold prompted. destruct (list_truthy updated_slots); cbn; lia. }
  assert (Hidx : 0 <= prompt_idx < Z.of_nat (List.length (prompts st' next_step))).
  { rewrite prompts_length. subst prompt_idx. lia. }
  destruct (list_item_in_range _ _ Hidx) as (prompt & Hitem & Hnth).
  destruct (prompts_solid _ _ _ _ Hnth) as (Hs & He & _).
  exists prompt. split; [exact Hnth|]. split; [subst prompt_idx; lia|].
  assert (H1 : updated_slots = [] -> 1 <= prompt_idx).
  { intros ->. subst prompt_idx st'. unfold prompted. cbn. lia. }
  rewrite prompt_next_eq. fold st'. fold prompt_idx. rewrite Hitem.
  clearbody st' prompt_idx.
  destruct updated_slots as [|frag more].
  - left. split; [reflexivity|].
    specialize (H1 eq_refl). split; [exact H1|].
    cbn [list_truthy]. unfold shows_prompt. cbn [nonempty orb].
    destruct (0 <? prompt_idx) eqn:E; [|lia].
    change ("" ++ " " ++ prompt) with (" " ++ prompt).
    rewrite (strip_space_solid _ Hs He). reflexivity.
  - right. split; [discriminate|].
    cbn [list_truthy].
    assert (Hshow : shows_prompt (acknowledgement (frag :: more)) prompt_idx = true)
      by reflexivity.
    rewrite Hshow. rewrite strip_solid; [reflexivity|reflexivity|].
    do 2 apply ends_solid_app. exact He.
Qed.

End Prompting.

(** ** What a turn does to a live session *)

Section TurnEffects.
Context `{P : Platform}.
Import Text.

Lemma resolved_frame (w : world) (r : request) (st : state) :
  same_frame (heard w r st) (fst (resolved w r st)).
Proof.
  unfold resolved.
  exact (update_slots_frame _ _ (heard w r st, [])).
Qed.

Lemma resolved_retry_count (w : world) (r : request) (st : state) :
  retry_count (fst (resolved w r st)) = retry_count st.
Proof. destruct (resolved_frame w r st) as (_ & _ & _ & _ & <-). reflexivity. Qed.

Lemma resolved_ended (w : world) (r : request) (st : state) :
  ended (fst (resolved w r st)) = ended st.
Proof. destruct (resolved_frame w r st) as (_ & <- & _). reflexivity. Qed.

Lemma resolved_messages (w : world) (r : request) (st : state) :
  messages (fst (resolved w r st))
  = (messages st
     ++ [Message "user" (utterance r) (default (now_user w) (timestamp_field r))])%list.
Proof. destruct (resolved_frame w r st) as (<- & _). reflexivity. Qed.

(** The turn that leaves no slot missing confirms the order. *)
Lemma turn_finalizes (w : world) (r : request) (st : state) :
  extraction_raises r = false ->
  missing_slots (fst (resolved w r st)) = [] ->
  exists bot_response,
    confirm_order w (fst (resolved w r st))
    = (Some bot_response, set_retry_count 0 (set_ended true (fst (resolved w r st))))
    /\ turn w r st
       = (Ok bot_response,
          append_message (Message "bot" bot_response (now_bot w))
            (set_retry_count 0 (set_ended true (fst (resolved w r st))))).
Proof.
  intros Hx H. destruct (confirm_order_spec w _ H) as (resp & Hc).
  exists resp. split; [exact Hc|].
  rewrite (turn_answered w r st Hx). unfold answered. rewrite H, Hc. reflexivity.
Qed.

(** The turn that leaves a slot missing asks for the first missing one. *)
Lemma turn_prompts (w : world) (r : request) (st : state) (next_step : slot)
    (rest : list slot) :
  extraction_raises r = false ->
  0 <= retry_count st ->
  missing_slots (fst (resolved w r st)) = next_step :: rest ->
  let updated_slots := snd (resolved w r st) in
  let st' := prompted next_step updated_slots (fst (resolved w r st)) in
  let prompt_idx := Z.min (retry_count st') 2 in
  exists prompt bot_response,
    nth_error (prompts st' next_step) (Z.to_nat prompt_idx) = Some prompt
    /\ 0 <= prompt_idx <= 2
    /\ ((updated_slots = [] /\ 1 <= prompt_idx /\ bot_response = prompt)
        \/ (updated_slots <> []
            /\ bot_response = acknowledgement updated_slots ++ " " ++ prompt))
    /\ turn w r st
       = (Ok bot_response, append_message (Message "bot" bot_response (now_bot w)) st').
Proof.
  intros Hx Hrc Hm us st' idx.
  assert (Hrc' : 0 <= retry_count (fst (resolved w r st)))
    by (rewrite resolved_retry_count; exact Hrc).
  destruct (prompt_next_spec next_step us _ Hrc') as (prompt & Hnth & Hidx & Hcase).
  fold st' in Hnth, Hidx, Hcase. fold idx in Hnth, Hidx, Hcase.
  exists prompt.
  destruct Hcase as [(Hus & H1 & Hp) | (Hus & Hp)].
  - exists prompt. split; [exact Hnth|]. split; [exact Hidx|].
    split; [left; auto|].
    rewrite (turn_answered w r st Hx). unfold answered. rewrite Hm. fold us.
    rewrite Hp. reflexivity.
  - exists (acknowledgement us ++ " " ++ prompt).
    split; [exact Hnth|]. split; [exact Hidx|]. split; [right; auto|].
    rewrite (turn_answered w r st Hx). unfold answered. rewrite Hm. fold us.
    rewrite Hp. reflexivity.
Qed.

Lemma missing_slots_append_message (m : message) (st : state) :
  missing_slots (append_message m st) = missing_slots st.
Proof. reflexivity. Qed.

Lemma missing_slots_prompted (next_step : slot) (us : list string) (st : state) :
  missing_slots (prompted next_step us st) = missing_slots st.
Proof. unfold prompted. destruct (list_truthy us); reflexivity. Qed.

(** A turn on a sound session whose extraction returns is answered, and
    leaves a sound session. *)
Lemma turn_answered_sound (w : world) (r : request) (st : state) :
  extraction_raises r = false ->
  sound st ->
  exists bot_response, fst (turn w r st) = Ok bot_response /\ sound (snd (turn w r st)).
Proof.
  intros Hx [Hrc _].
  destruct (missing_slots (fst (resolved w r st))) as [|next rest] eqn:Hm.
  - destruct (turn_finalizes w r st Hx Hm) as (resp & _ & ->).
    exists resp. split; [reflexivity|]. split; [cbn; lia|reflexivity].
  - destruct (turn_prompts w r st next rest Hx Hrc Hm) as (prompt & resp & _ & _ & _ & ->).
    exists resp. split; [reflexivity|]. cbn [snd]. split.
    + cbn. unfold prompted. rewrite <- (resolved_retry_count w r st) in Hrc.
      destruct (list_truthy _); cbn; lia.
    + rewrite missing_slots_append_message, missing_slots_prompted, Hm. discriminate.
Qed.

(** A turn on a sound session leaves a sound session, answered or not. *)
Lemma turn_sound (w : world) (r : request) (st : state) :
  sound st -> sound (snd (turn w r st)).
Proof.
  intros Hs. destruct (extraction_raises r) eqn:Hx.
  - rewrite (turn_raised w r st Hx). cbn [snd]. exact Hs.
  - destruct (turn_answered_sound w r st Hx Hs) as (_ & _ & H). exact H.
Qed.

(** On a sound session, the turn is answered exactly when its extraction
    returns. *)
Lemma turn_Ok_iff (w : world) (r : request) (st : state) :
  sound st ->
  (exists bot_response, fst (turn w r st) = Ok bot_response)
  <-> extraction_raises r = false.
Proof.
  intros Hs. split.
  - intros (resp & H). destruct (extraction_raises r) eqn:Hx; [|reflexivity].
    rewrite (turn_raised w r st Hx) in H. discriminate H.
  - intros Hx. destruct (turn_answered_sound w r st Hx Hs) as (resp & H & _). eauto.
Qed.

End TurnEffects.

(** ** The store *)

Section Store.
Context `{P : Platform}.
Import Text.

(** [webhook] on a live session runs [turn] and stores its result. *)
Lemma webhook_live (w : world) (r : request) (cs : gmap string state)
    (id : string) (st : state) :
  call_id r = Some id -> nonempty id = true -> cs !! id = Some st ->
  ended st = false ->
  webhook w r cs = (fst (turn w r st), <[id := snd (turn w r st)]> cs).
Proof.
  intros Hid Hne Hl He. unfold webhook. rewrite Hid, Hne, Hl, He. cbn.
  destruct (turn w r st); reflexivity.
Qed.

(** Every call of [webhook] is either rejected, leaving the store as it
    was, or runs [turn] on a live session. *)
Lemma webhook_cases (w : world) (r : request) (cs : gmap string state) :
  (webhook w r cs = (InvalidSession, cs)
   /\ forall id st, call_id r = Some id -> nonempty id = true ->
        cs !! id = Some st -> False)
  \/ (exists id st, call_id r = Some id /\ nonempty id = true
        /\ cs !! id = Some st /\ ended st = true
        /\ webhook w r cs = (SessionEnded, cs))
  \/ (exists id st, call_id r = Some id /\ nonempty id = true
        /\ cs !! id = Some st /\ ended st = false
        /\ webhook w r cs = (fst (turn w r st), <[id := snd (turn w r st)]> cs)).
Proof.
  unfold webhook.
  destruct (call_id r) as [id|] eqn:Hid; [|left; split; [reflexivity|discriminate]].
  destruct (nonempty id) eqn:Hne; cbn [negb].
  - destruct (cs !! id) as [st|] eqn:Hl.
    + destruct (ended st) eqn:He.
      * right; left. exists id, st. auto.
      * right; right. exists id, st. repeat (split; [auto; fail|]).
        destruct (turn w r st); reflexivity.
    + left. split; [reflexivity|]. intros id' st' [= <-] _ H. congruence.
  - left. split; [reflexivity|]. intros id' st' [= <-] H. congruence.
Qed.

Lemma cleanup_lookup (now : instant) (cs : gmap string state) (id : string) (st : state) :
  cleanup_old_states now cs !! id = Some st <->
  cs !! id = Some st /\ expired now st = false.
Proof. unfold cleanup_old_states. apply map_lookup_filter_Some. Qed.

Lemma apply_op_sound (o : op) (cs : gmap string state) :
  store_sound cs -> admissible o cs -> store_sound (apply_op o cs).
Proof.
  intros Hs Ha id st. destruct o as [uuid iso now|w r|now pid|eid]; cbn.
  - destruct Ha as [Hne _]. rewrite lookup_insert_Some.
    intros [[<- <-]|[_ H]]; [|exact (Hs _ _ H)].
    split; [exact Hne|]. split; [cbn; lia|discriminate].
  - destruct (webhook_cases w r cs) as [[-> _]|[(i & s & _ & _ & _ & _ & ->)
      |(i & s & _ & Hne & Hl & _ & ->)]]; cbn [snd]; try exact (Hs id st).
    rewrite lookup_insert_Some. intros [[<- <-]|[_ H]]; [|exact (Hs _ _ H)].
    split; [exact Hne|].
    exact (turn_sound w r s (proj2 (Hs _ _ Hl))).
  - unfold poll_messages.
    destruct (cleanup_old_states now cs !! pid); cbn [snd];
      intros H; apply cleanup_lookup in H; exact (Hs _ _ (proj1 H)).
  - unfold end_call. destruct eid as [i|]; [|exact (Hs id st)].
    destruct (cs !! i) as [s|] eqn:Hl; cbn [snd]; [|exact (Hs id st)].
    rewrite lookup_insert_Some. intros [[<- <-]|[_ H]]; [|exact (Hs _ _ H)].
    destruct (Hs _ _ Hl) as (Hne & Hrc & _).
    split; [exact Hne|]. split; [exact Hrc|reflexivity].
Qed.

Lemma reachable_sound (cs : gmap string state) : reachable cs -> store_sound cs.
Proof.
  induction 1 as [|cs o _ IH Ha].
  - intros id st H. rewrite lookup_empty in H. discriminate.
  - apply apply_op_sound; assumption.
Qed.

End Store.

(** ** Slots across a turn *)

Section TurnSlots.
Context `{P : Platform}.
Import Text.

Lemma answered_slots (w : world) (r : request) (st : state) (s : slot) :
  slot_value (snd (answered w r st)) s = slot_value (fst (resolved w r st)) s.
Proof.
  unfold answered. generalize (resolved w r st). intros [st2 us]. cbn [fst snd].
  destruct (missing_slots st2) as [|next rest].
  - unfold confirm_order.
    destruct (exchange st2), (trading_pair st2), (quantity st2), (price st2);
      try reflexivity.
    destruct (returned _) as [[cp err]| |]; reflexivity.
  - rewrite prompt_next_eq.
    assert (H : slot_value (prompted next us st2) s = slot_value st2 s).
    { unfold prompted. destruct (list_truthy us); destruct s; reflexivity. }
    destruct (shows_prompt _ _); [destruct (list_item _ _)|]; exact H.
Qed.

Lemma turn_slots (w : world) (r : request) (st : state) (s : slot) :
  extraction_raises r = false ->
  slot_value (snd (turn w r st)) s = slot_value (fst (resolved w r st)) s.
Proof.
  intros Hx. rewrite (turn_answered w r st Hx), <- answered_slots.
  destruct (fst (answered w r st)); destruct s; reflexivity.
Qed.

(** A turn whose extraction raises writes no slot. *)
Lemma turn_raised_slots (w : world) (r : request) (st : state) (s : slot) :
  extraction_raises r = true ->
  slot_value (snd (turn w r st)) s = slot_value st s.
Proof.
  intros Hx. rewrite (turn_raised w r st Hx). destruct s; reflexivity.
Qed.

(** An answered turn went through its extraction. *)
Lemma turn_Ok_returns (w : world) (r : request) (st : state) (bot_response : string) :
  fst (turn w r st) = Ok bot_response -> extraction_raises r = false.
Proof.
  intros H. destruct (extraction_raises r) eqn:Hx; [|reflexivity].
  rewrite (turn_raised w r st Hx) in H. discriminate H.
Qed.

(** The candidates depend on the session through its quantity alone, which
    appending the user entry does not touch. *)
Lemma extract_heard (w : world) (r : request) (st : state) :
  extract (heard w r st) (utterance r) = extract st (utterance r).
Proof. reflexivity. Qed.

Lemma resolved_correction (w : world) (r : request) (st : state) (s : slot) :
  is_correction_of (lower (utterance r)) = true ->
  slot_value (fst (resolved w r st)) s
  = match candidate (extract st (utterance r)) s with
    | Some v => Some v
    | None => slot_value st s
    end.
Proof.
  intros H. unfold resolved. rewrite H, update_slots_correction, (extract_heard w r st).
  destruct (candidate _ s); [reflexivity|]. destruct s; reflexivity.
Qed.

Lemma resolved_ordinary (w : world) (r : request) (st : state) (s : slot) :
  is_correction_of (lower (utterance r)) = false ->
  slot_value (fst (resolved w r st)) s
  = match slot_value st s with
    | Some v => Some v
    | None => candidate (extract st (utterance r)) s
    end.
Proof.
  intros H. unfold resolved. rewrite H, update_slots_ordinary, (extract_heard w r st).
  replace (slot_value (fst (heard w r st, [])) s) with (slot_value st s)
    by (destruct s; reflexivity).
  reflexivity.
Qed.

(** An answered call of [webhook] ran [turn] on a live session. *)
Lemma webhook_Ok (w : world) (r : request) (cs cs' : gmap string state)
    (bot_response : string) :
  webhook w r cs = (Ok bot_response, cs') ->
  exists id st, call_id r = Some id /\ nonempty id = true /\ cs !! id = Some st
    /\ ended st = false /\ turn w r st = (Ok bot_response, snd (turn w r st))
    /\ cs' = <[id := snd (turn w r st)]> cs
    /\ extraction_raises r = false.
Proof.
  intros H.
  destruct (webhook_cases w r cs) as [[E _]|[(i & s & _ & _ & _ & _ & E)
    |(i & s & Hid & Hne & Hl & He & E)]]; rewrite E in H; try discriminate H.
  injection H as H1 H2. exists i, s. repeat (split; [assumption|]).
  split; [|split; [symmetry; exact H2|exact (turn_Ok_returns w r s _ H1)]].
  rewrite <- H1. destruct (turn w r s); reflexivity.
Qed.

(** C1. On every answered turn of a live session: when the utterance is
    not flagged as a correction, each slot that was set keeps its value
    and an unset slot receives the non-empty candidate extracted for it,
    if any (so a candidate is applied to unset slots only); when the
    utterance is flagged as a correction, each slot for which a non-empty
    candidate was extracted holds that candidate afterwards, whether it
    was set before or not. *)
Theorem C1_slot_resolution (w : world) (r : request) (cs cs' : gmap string state)
    (bot_response : string) :
  webhook w r cs = (Ok bot_response, cs') ->
  exists id st st',
    call_id r = Some id /\ cs !! id = Some st /\ ended st = false
    /\ cs' !! id = Some st'
    /\ (is_correction_of (lower (utterance r)) = false ->
        (forall s v, slot_value st s = Some v -> slot_value st' s = Some v)
        /\ (forall s, slot_value st s = None ->
              slot_value st' s = candidate (extract st (utterance r)) s))
    /\ (is_correction_of (lower (utterance r)) = true ->
        forall s v, candidate (extract st (utterance r)) s = Some v ->
          slot_value st' s = Some v).
Proof.
  intros H. apply webhook_Ok in H.
  destruct H as (id & st & Hid & _ & Hl & He & _ & -> & Hx).
  exists id, st, (snd (turn w r st)).
  repeat (split; [assumption|]). split; [apply lookup_insert_eq|].
  split; intros Hc.
  - split.
    + intros s v Hv.
      rewrite (turn_slots w r st s Hx), (resolved_ordinary _ _ _ _ Hc), Hv. reflexivity.
    + intros s Hv.
      rewrite (turn_slots w r st s Hx), (resolved_ordinary _ _ _ _ Hc), Hv. reflexivity.
  - intros s v Hv.
    rewrite (turn_slots w r st s Hx), (resolved_correction _ _ _ _ Hc), Hv. reflexivity.
Qed.

End TurnSlots.

(** ** History and the ended flag across requests *)

Section Requests.
Context `{P : Platform}.
Import Text.

Lemma answered_messages (w : world) (r : request) (st : state) :
  messages (snd (answered w r st)) = messages (fst (resolved w r st)).
Proof.
  unfold answered. generalize (resolved w r st). intros [st2 us]. cbn [fst snd].
  destruct (missing_slots st2) as [|next rest].
  - unfold confirm_order.
    destruct (exchange st2), (trading_pair st2), (quantity st2), (price st2);
      try reflexivity.
    destruct (returned _) as [[cp err]| |]; reflexivity.
  - rewrite prompt_next_eq.
    assert (H : messages (prompted next us st2) = messages st2).
    { unfold prompted. destruct (list_truthy us); reflexivity. }
    destruct (shows_prompt _ _); [destruct (list_item _ _)|]; exact H.
Qed.

Lemma turn_messages (w : world) (r : request) (st st' : state) (bot_response : string) :
  turn w r st = (Ok bot_response, st') ->
  messages st' = (messages st ++ turn_entries w r bot_response)%list.
Proof.
  rewrite turn_eq. destruct (extraction_raises r); [discriminate|].
  destruct (fst (answered w r st)) as [resp|]; [|discriminate].
  intros [= <- <-]. cbn [append_message messages].
  rewrite answered_messages, resolved_messages, <- app_assoc. reflexivity.
Qed.

(** The history after a turn whose extraction raises: the user entry was
    appended, and nothing after it. *)
Lemma turn_raised_messages (w : world) (r : request) (st : state) :
  extraction_raises r = true ->
  messages (snd (turn w r st))
  = (messages st
     ++ [Message "user" (utterance r) (default (now_user w) (timestamp_field r))])%list.
Proof. intros Hx. rewrite (turn_raised w r st Hx). reflexivity. Qed.

Lemma webhook_ended (w : world) (r : request) (cs : gmap string state)
    (id : string) (st : state) :
  call_id r = Some id -> nonempty id = true -> cs !! id = Some st ->
  ended st = true -> webhook w r cs = (SessionEnded, cs).
Proof.
  intros Hid Hne Hl He. unfold webhook. rewrite Hid, Hne, Hl, He. reflexivity.
Qed.

(** On a live sound session the flag is raised by exactly the turns that
    leave no slot missing. *)
Lemma turn_ended_iff (w : world) (r : request) (st : state) :
  sound st -> ended st = false ->
  (ended (snd (turn w r st)) = true <-> missing_slots (snd (turn w r st)) = []).
Proof.
  intros [Hrc Hall] He.
  destruct (extraction_raises r) eqn:Hx.
  { rewrite (turn_raised w r st Hx). cbn [snd].
    change (ended (heard w r st)) with (ended st).
    change (missing_slots (heard w r st)) with (missing_slots st).
    rewrite He. split; [discriminate|]. intros H. rewrite (Hall H) in He. discriminate He. }
  destruct (missing_slots (fst (resolved w r st))) as [|next rest] eqn:Hm.
  - destruct (turn_finalizes w r st Hx Hm) as (resp & _ & ->). cbn [snd].
    rewrite missing_slots_append_message.
    change (missing_slots (set_retry_count 0 (set_ended true (fst (resolved w r st)))))
      with (missing_slots (fst (resolved w r st))).
    rewrite Hm. split; reflexivity.
  - destruct (turn_prompts w r st next rest Hx Hrc Hm)
      as (prompt & resp & _ & _ & _ & ->).
    cbn [snd]. rewrite missing_slots_append_message, missing_slots_prompted, Hm.
    assert (E : ended (append_message (Message "bot" resp (now_bot w))
                         (prompted next (snd (resolved w r st)) (fst (resolved w r st))))
                = false).
    { unfold prompted. destruct (list_truthy _); cbn; rewrite resolved_ended; exact He. }
    rewrite E. split; discriminate.
Qed.

(** C3. In every store the service can reach, a call of [webhook] for a
    session whose ended flag is true returns the session-ended error and
    the store it was given: slots, history and flag of the session (and
    everything else) are as before. *)
Theorem C3_ended_session_rejects (cs : gmap string state) (w : world) (r : request)
    (id : string) (st : state) :
  reachable cs -> call_id r = Some id -> cs !! id = Some st -> ended st = true ->
  webhook w r cs = (SessionEnded, cs).
Proof.
  intros Hr Hid Hl He.
  destruct (reachable_sound cs Hr id st Hl) as [Hne _].
  exact (webhook_ended w r cs id st Hid Hne Hl He).
Qed.

(** What a request does to the history of a session that is in the store
    before and after it: entries are only added at the end. *)
Lemma apply_op_history (o : op) (cs : gmap string state) (id : string) (st st' : state) :
  admissible o cs -> cs !! id = Some st -> apply_op o cs !! id = Some st' ->
  exists more, messages st' = (messages st ++ more)%list.
Proof.
  intros Ha Hl. destruct o as [uuid iso now|w r|now pid|eid]; cbn.
  - destruct Ha as [_ Hfresh]. rewrite lookup_insert_Some.
    intros [[<- _]|[_ H]]; [congruence|].
    exists []. rewrite app_nil_r. congruence.
  - destruct (webhook_cases w r cs) as [[-> _]|[(i & s & _ & _ & _ & _ & ->)
      |(i & s & _ & _ & Hi & _ & ->)]]; cbn [snd];
      try (intros H; exists []; rewrite app_nil_r; congruence).
    rewrite lookup_insert_Some. intros [[<- <-]|[_ H]].
    + assert (s = st) as -> by congruence.
      rewrite turn_eq. destruct (extraction_raises r); [cbn; eauto|].
      destruct (fst (answered w r st)) as [resp|]; cbn [snd].
      * exists (turn_entries w r resp). cbn [append_message messages].
        rewrite answered_messages, resolved_messages, <- app_assoc. reflexivity.
      * rewrite answered_messages, resolved_messages. eauto.
    + exists []. rewrite app_nil_r. congruence.
  - unfold poll_messages.
    destruct (cleanup_old_states now cs !! pid); cbn [snd];
      intros H; apply cleanup_lookup in H; destruct H as [H _];
      exists []; rewrite app_nil_r; congruence.
  - unfold end_call. destruct eid as [i|]; cbn [snd];
      [|intros H; exists []; rewrite app_nil_r; congruence].
    destruct (cs !! i) as [s|] eqn:Hi; cbn [snd];
      [|intros H; exists []; rewrite app_nil_r; congruence].
    rewrite lookup_insert_Some. intros [[<- <-]|[_ H]].
    + assert (s = st) as -> by congruence. exists []. rewrite app_nil_r. reflexivity.
    + exists []. rewrite app_nil_r. congruence.
Qed.

(** C4. The history of a session only grows: for every request served
    on a reachable store, a session present before and after it has its
    old history as a prefix of the new one.  A call of [webhook] on a live
    session whose extraction returns is answered, and the history grew by
    the user entry followed by the bot entry.  But when the extraction
    raises (the word parser leaves [extract_number] with an exception
    that is not a [ValueError]), the call is not rejected either: the
    user entry is appended, the exception leaves the handler, and no bot
    entry follows, so this turn appends one entry and not two. *)
Theorem C4_raising_turn_appends_user_entry_only (cs : gmap string state)
    (id : string) (st : state) :
  reachable cs -> cs !! id = Some st ->
  (forall o st', admissible o cs -> apply_op o cs !! id = Some st' ->
     (exists more, messages st' = (messages st ++ more)%list)
     /\ (List.length (messages st) <= List.length (messages st'))%nat)
  /\ (forall w r,
        call_id r = Some id -> ended st = false -> extraction_raises r = false ->
        exists bot_response st',
          webhook w r cs = (Ok bot_response, <[id := st']> cs)
          /\ messages st'
             = (messages st
                ++ [Message "user" (utterance r)
                      (default (now_user w) (timestamp_field r));
                    Message "bot" bot_response (now_bot w)])%list)
  /\ (forall w r,
        call_id r = Some id -> ended st = false -> extraction_raises r = true ->
        webhook w r cs = (Raised, <[id := heard w r st]> cs)
        /\ messages (heard w r st)
           = (messages st
              ++ [Message "user" (utterance r)
                    (default (now_user w) (timestamp_field r))])%list
        /\ List.length (messages (heard w r st)) = S (List.length (messages st))).
Proof.
  intros Hr Hl. destruct (reachable_sound cs Hr id st Hl) as [Hne Hs].
  split; [|split].
  - intros o st' Ha Hl'.
    destruct (apply_op_history o cs id st st' Ha Hl Hl') as [more Hm].
    split; [eauto|]. rewrite Hm, length_app. lia.
  - intros w r Hid He Hx.
    rewrite (webhook_live w r cs id st Hid Hne Hl He).
    destruct (turn_answered_sound w r st Hx Hs) as (resp & Hok & _).
    exists resp, (snd (turn w r st)). rewrite Hok. split; [reflexivity|].
    apply (turn_messages w r st _ resp).
    rewrite <- Hok. destruct (turn w r st); reflexivity.
  - intros w r Hid He Hx.
    rewrite (webhook_live w r cs id st Hid Hne Hl He), (turn_raised w r st Hx).
    split; [reflexivity|]. split; [reflexivity|].
    cbn [heard append_message messages]. rewrite length_app. cbn. lia.
Qed.

End Requests.

(** ** Finalization *)

Section Finalization.
Context `{P : Platform}.
Import Text.

Lemma unforced_reachable (id : string) (cs : gmap string state) :
  reachable_unforced id cs -> reachable cs.
Proof. induction 1; [constructor|apply reachable_step; assumption]. Qed.

(** In such runs only finalization raises the flag of the session. *)
Lemma unforced_all_set (id : string) (cs : gmap string state) :
  reachable_unforced id cs ->
  forall st, cs !! id = Some st -> ended st = true -> missing_slots st = [].
Proof.
  induction 1 as [|cs o Hu IH Ha Hne]; intros st.
  - rewrite lookup_empty. discriminate.
  - destruct o as [uuid iso now|w r|now pid|eid]; cbn.
    + rewrite lookup_insert_Some. intros [[_ <-]|[_ H]]; [discriminate|exact (IH _ H)].
    + destruct (webhook_cases w r cs) as [[-> _]|[(i & s & _ & _ & _ & _ & ->)
        |(i & s & _ & _ & Hi & He & ->)]]; cbn [snd]; try exact (IH st).
      rewrite lookup_insert_Some. intros [[_ <-]|[_ H]]; [|exact (IH _ H)].
      apply turn_ended_iff; [|exact He].
      exact (proj2 (reachable_sound cs (unforced_reachable id cs Hu) i s Hi)).
    + unfold poll_messages.
      destruct (cleanup_old_states now cs !! pid); cbn [snd];
        intros H; apply cleanup_lookup in H; exact (IH _ (proj1 H)).
    + unfold end_call. destruct eid as [i|]; [|exact (IH st)].
      destruct (cs !! i) as [s|] eqn:Hi; cbn [snd]; [|exact (IH st)].
      cbn [ends_session] in Hne.
      destruct (String.eqb_spec i id) as [->|Hd].
      * rewrite Hi in Hne. discriminate Hne.
      * rewrite lookup_insert_ne by exact Hd. exact (IH st).
Qed.

(** C2, as amended.  For every session of a reachable store:
    (1) if its four slots are set, its ended flag is true;
    (2) an answered turn found the flag false, and leaves it true exactly
        when the turn leaves no slot missing, so the flag is raised on the
        turn that sets the last slot;
    (3) once the flag is true every turn is rejected and changes nothing,
        so finalization is not entered again;
    (4) [end_call] raises the flag and keeps the slots as they are, set
        or not;
    (5) in a run in which [end_call] was never served on this session
        (whatever was requested for other sessions), a true flag implies
        that the four slots are set. *)
Theorem C2_finalization (cs : gmap string state) (id : string) (st : state) :
  reachable cs -> cs !! id = Some st ->
  (missing_slots st = [] -> ended st = true)
  /\ (forall w r bot_response cs',
        call_id r = Some id -> webhook w r cs = (Ok bot_response, cs') ->
        ended st = false
        /\ exists st', cs' !! id = Some st'
             /\ (ended st' = true <-> missing_slots st' = []))
  /\ (ended st = true ->
      forall w r, call_id r = Some id -> webhook w r cs = (SessionEnded, cs))
  /\ (exists st', snd (end_call (Some id) cs) !! id = Some st'
        /\ ended st' = true /\ forall s, slot_value st' s = slot_value st s)
  /\ (reachable_unforced id cs -> ended st = true -> missing_slots st = []).
Proof.
  intros Hr Hl. destruct (reachable_sound cs Hr id st Hl) as [Hne Hs].
  split; [exact (proj2 Hs)|]. split.
  { intros w r resp cs' Hid H. apply webhook_Ok in H.
    destruct H as (i & s & Hi & _ & Hli & He & _ & -> & _).
    assert (i = id) as -> by congruence. assert (s = st) as -> by congruence.
    split; [exact He|]. exists (snd (turn w r st)).
    split; [apply lookup_insert_eq|]. apply turn_ended_iff; assumption. }
  split.
  { intros He w r Hid. exact (webhook_ended w r cs id st Hid Hne Hl He). }
  split.
  { exists (set_ended true st). unfold end_call. rewrite Hl. cbn [snd].
    split; [apply lookup_insert_eq|]. split; [reflexivity|].
    intros s; destruct s; reflexivity. }
  intros Hu He. exact (unforced_all_set id cs Hu st Hl He).
Qed.

End Finalization.

(** ** Quantity and price candidates *)

Section Candidates.
Context `{P : Platform}.
Import Text.

Lemma last_number_literals (l : list string) (d : string) :
  l <> [] ->
  last_number (List.map (fun n => Some (float_of_literal n)) l)
  = Some (float_of_literal (List.last l d)).
Proof.
  unfold last_number. induction l as [|a l IH]; [congruence|]. intros _.
  destruct l as [|b l']; [reflexivity|].
  change (List.last (List.map (fun n => Some (float_of_literal n)) (b :: l')) None
          = Some (float_of_literal (List.last (b :: l') d))).
  apply IH. discriminate.
Qed.

Lemma numbers_of_literals (t n : string) (more : list string) :
  Re.findall number_pattern (lower t) = n :: more ->
  numbers_of t (lower t) = List.map (fun n => Some (float_of_literal n)) (n :: more).
Proof. intros H. unfold numbers_of. rewrite H. reflexivity. Qed.

(** The candidates of an utterance with numbers written in digits and
    without "at". *)
Lemma candidates_without_at (st : state) (t n : string) (more : list string) :
  Re.findall number_pattern (lower t) = n :: more ->
  contains "at" (lower t) = false ->
  qty (extract st t) = Some (float_of_literal n)
  /\ price_c (extract st t)
     = if quantity_truthy st then Some (float_of_literal n) else None.
Proof.
  intros H Hat. unfold extract. cbn [qty price_c].
  rewrite (numbers_of_literals t n more H).
  unfold qty_candidate, price_candidate. rewrite Hat.
  split; [reflexivity|]. destruct (quantity_truthy st); reflexivity.
Qed.

Lemma numbers_of_truthy (t : string) : list_truthy (numbers_of t (lower t)) = true.
Proof.
  unfold numbers_of. destruct (Re.findall number_pattern (lower t)); reflexivity.
Qed.

(** C5 (amended).  Let [numbers] be the numeric mentions of the
    utterance: its numbers written in digits, in order, or else the one
    result of the word parser.  If the lower-cased utterance contains the
    substring "at" (anywhere, also inside a word), the last of [numbers]
    is the price candidate and there is no quantity candidate; otherwise
    the first of [numbers] is the quantity candidate, and it is the price
    candidate as well when the quantity of the session is set and not
    zero, while there is no price candidate when that quantity is unset
    or zero. *)
Theorem C5_candidates (st : state) (t : string) :
  let numbers := numbers_of t (lower t) in
  (contains "at" (lower t) = true ->
     qty (extract st t) = None /\ price_c (extract st t) = last_number numbers)
  /\ (contains "at" (lower t) = false ->
        qty (extract st t) = first_number numbers
        /\ (quantity_truthy st = true -> price_c (extract st t) = first_number numbers)
        /\ (quantity_truthy st = false -> price_c (extract st t) = None))
  /\ (forall n more,
        Re.findall number_pattern (lower t) = n :: more ->
        first_number numbers = Some (float_of_literal n)
        /\ last_number numbers = Some (float_of_literal (List.last (n :: more) n)))
  /\ (Re.findall number_pattern (lower t) = [] -> numbers = [extract_number t]).
Proof.
  intros numbers. unfold extract. cbn [qty price_c]. fold numbers.
  unfold qty_candidate, price_candidate. fold numbers.
  replace (list_truthy numbers) with true by (symmetry; apply numbers_of_truthy).
  cbn [andb]. split; [|split; [|split]].
  - intros ->. split; reflexivity.
  - intros ->. cbn [negb]. split; [reflexivity|].
    split; intros ->; reflexivity.
  - intros n more H. subst numbers. rewrite (numbers_of_literals t n more H).
    split; [reflexivity|]. apply last_number_literals. discriminate.
  - intros H. subst numbers. unfold numbers_of. rewrite H. reflexivity.
Qed.

Lemma slot_number (o : option num) (x : num) :
  Num <$> o = Some (Num x) -> o = Some x.
Proof. destruct o; cbn; congruence. Qed.

(** C10. On a turn of a live session whose utterance is flagged as a
    correction, contains a number written in digits and does not contain
    the substring "at", while the quantity of the session is set and not
    zero: after the turn the quantity slot and the price slot both hold
    the first number of the utterance. *)
Theorem C10_correction_overwrites_both (w : world) (r : request)
    (cs : gmap string state) (id : string) (st : state) (n : string)
    (more : list string) :
  call_id r = Some id -> nonempty id = true -> cs !! id = Some st ->
  ended st = false ->
  is_correction_of (lower (utterance r)) = true ->
  Re.findall number_pattern (lower (utterance r)) = n :: more ->
  contains "at" (lower (utterance r)) = false ->
  quantity_truthy st = true ->
  exists st', snd (webhook w r cs) !! id = Some st'
    /\ quantity st' = Some (float_of_literal n)
    /\ price st' = Some (float_of_literal n).
Proof.
  intros Hid Hne Hl He Hc Hn Hat Hq.
  rewrite (webhook_live w r cs id st Hid Hne Hl He). cbn [snd].
  exists (snd (turn w r st)). split; [apply lookup_insert_eq|].
  destruct (candidates_without_at st (utterance r) n more Hn Hat) as (Hqty & Hprice).
  rewrite Hq in Hprice.
  assert (Hx : extraction_raises r = false)
    by (unfold extraction_raises, numbers_raise; rewrite Hn; reflexivity).
  pose proof (turn_slots w r st Quantity Hx) as HQ.
  pose proof (turn_slots w r st Price Hx) as HP.
  rewrite (resolved_correction w r st _ Hc) in HQ.
  rewrite (resolved_correction w r st _ Hc) in HP.
  cbn [candidate] in HQ, HP. rewrite Hqty in HQ. rewrite Hprice in HP.
  split; apply slot_number; assumption.
Qed.

End Candidates.

(** ** Responses *)

Section Responses.
Context `{P : Platform}.
Import Text.

Lemma turn_missing_slots (w : world) (r : request) (st : state) :
  extraction_raises r = false ->
  missing_slots (snd (turn w r st)) = missing_slots (fst (resolved w r st)).
Proof. intros Hx. apply missing_slots_ext. intros s. apply turn_slots, Hx. Qed.

Lemma turn_raised_missing_slots (w : world) (r : request) (st : state) :
  extraction_raises r = true ->
  missing_slots (snd (turn w r st)) = missing_slots st.
Proof. intros Hx. rewrite (turn_raised w r st Hx). reflexivity. Qed.

(** A turn of a live sound session that leaves no slot missing went
    through its extraction. *)
Lemma turn_all_set_returns (w : world) (r : request) (st : state) :
  sound st -> ended st = false -> missing_slots (snd (turn w r st)) = [] ->
  extraction_raises r = false.
Proof.
  intros [_ Hall] He Hm. destruct (extraction_raises r) eqn:Hx; [|reflexivity].
  rewrite (turn_raised_missing_slots w r st Hx) in Hm.
  rewrite (Hall Hm) in He. discriminate He.
Qed.

Lemma confirm_order_lookup_failed (w : world) (st : state) (e tp : string) (q p : num) :
  exchange st = Some e -> trading_pair st = Some tp ->
  quantity st = Some q -> price st = Some p ->
  (forall attempt, (attempt < 3)%nat ->
     ticker w e (normalize_symbol e tp) attempt = None) ->
  confirm_order w st
  = (Some (confirmation e tp q p price_warning), set_retry_count 0 (set_ended true st)).
Proof.
  intros He Ht Hq Hp Hfail. unfold confirm_order.
  rewrite He, Ht, Hq, Hp, (get_current_price_exhausted _ _ _ Hfail).
  reflexivity.
Qed.

(** C7. When the three attempts of the price lookup all fail, the lookup
    has slept 1 unit after the first failure and 2 units after the second
    and returns the failure "failed to fetch price"; a turn of a live
    session that leaves the four slots set is then still answered with
    the order confirmation, in which the warning fragment replaces the
    market price, the confirmation is the last entry of the history, and
    the ended flag of the session is true. *)
Theorem C7_lookup_failure_still_confirms (cs : gmap string state) (w : world)
    (r : request) (id : string) (st st' : state) :
  reachable cs -> call_id r = Some id -> cs !! id = Some st -> ended st = false ->
  snd (webhook w r cs) !! id = Some st' -> missing_slots st' = [] ->
  (forall e sym attempt, (attempt < 3)%nat -> ticker w e sym attempt = None) ->
  exists e tp q p,
    exchange st' = Some e /\ trading_pair st' = Some tp
    /\ quantity st' = Some q /\ price st' = Some p
    /\ get_current_price (ticker w) e tp 3 1
       = Lookup (Returned (None, Some "failed to fetch price")) [1; 2]
    /\ fst (webhook w r cs) = Ok (confirmation e tp q p price_warning)
    /\ (exists history,
          messages st'
          = (history ++ [Message "bot" (confirmation e tp q p price_warning)
                           (now_bot w)])%list)
    /\ ended st' = true.
Proof.
  intros Hr Hid Hl He Hl' Hm Hfail.
  destruct (reachable_sound cs Hr id st Hl) as [Hne Hs].
  rewrite (webhook_live w r cs id st Hid Hne Hl He) in Hl' |- *.
  cbn [fst snd] in Hl' |- *. rewrite lookup_insert_eq in Hl'.
  injection Hl' as <-.
  pose proof (turn_all_set_returns w r st Hs He Hm) as Hx.
  rewrite (turn_missing_slots w r st Hx) in Hm.
  destruct (proj1 (missing_slots_nil _) Hm) as (e & tp & q & p & E1 & E2 & E3 & E4).
  pose proof (confirm_order_lookup_failed w _ e tp q p E1 E2 E3 E4
                (fun a Ha => Hfail e _ a Ha)) as Hc.
  assert (Ht : turn w r st
               = (Ok (confirmation e tp q p price_warning),
                  append_message
                    (Message "bot" (confirmation e tp q p price_warning) (now_bot w))
                    (set_retry_count 0 (set_ended true (fst (resolved w r st)))))).
  { rewrite (turn_answered w r st Hx). unfold answered. rewrite Hm, Hc. reflexivity. }
  rewrite Ht. cbn [fst snd].
  exists e, tp, q, p. repeat (split; [assumption|]).
  split; [apply get_current_price_exhausted; intros a Ha; apply Hfail, Ha|].
  split; [reflexivity|]. split; [|reflexivity].
  eexists. reflexivity.
Qed.

(** C9. On every answered turn that does not finalize the session, the
    condition guarding the scripted prompt holds: either no slot was
    updated, the retry counter was incremented and the prompt index is at
    least 1, or a slot was updated and the acknowledgement is not empty.
    The response is then the prompt of the current step at that index,
    preceded by the acknowledgement when there is one, and it is not the
    generic fallback sentence. *)
Theorem C9_fallback_unreachable (cs cs' : gmap string state) (w : world)
    (r : request) (bot_response id : string) (st st' : state) :
  reachable cs -> webhook w r cs = (Ok bot_response, cs') ->
  call_id r = Some id -> cs !! id = Some st -> cs' !! id = Some st' ->
  ended st' = false ->
  let updated_slots := snd (resolved w r st) in
  let ack := if list_truthy updated_slots then acknowledgement updated_slots else "" in
  let prompt_idx := Z.min (retry_count st') 2 in
  shows_prompt ack prompt_idx = true
  /\ (updated_slots = [] -> retry_count st' = retry_count st + 1 /\ 1 <= prompt_idx)
  /\ (updated_slots <> [] -> nonempty ack = true)
  /\ (exists prompt,
        nth_error (prompts st' (current_step st')) (Z.to_nat prompt_idx) = Some prompt
        /\ bot_response = (if list_truthy updated_slots then ack ++ " " ++ prompt
                           else prompt))
  /\ bot_response <> fallback_response.
Proof.
  intros Hr H Hid Hl Hl' He' us ack idx.
  apply webhook_Ok in H. destruct H as (i & s & Hi & _ & Hli & He & Ht & -> & Hx).
  assert (i = id) as -> by congruence. assert (s = st) as -> by congruence.
  rewrite lookup_insert_eq in Hl'. injection Hl' as <-.
  destruct (reachable_sound cs Hr id st Hl) as [_ Hs].
  destruct (missing_slots (fst (resolved w r st))) as [|next rest] eqn:Hm.
  { destruct (turn_finalizes w r st Hx Hm) as (resp & _ & E).
    rewrite E in He'. discriminate He'. }
  destruct (turn_prompts w r st next rest Hx (proj1 Hs) Hm)
    as (prompt & resp & Hnth & Hidx & Hcase & E).
  rewrite E in Ht. injection Ht as ->.
  subst idx ack. rewrite E. cbn [snd]. fold us in Hnth, Hidx, Hcase |- *.
  change (retry_count (append_message (Message "bot" bot_response (now_bot w))
                         (prompted next us (fst (resolved w r st)))))
    with (retry_count (prompted next us (fst (resolved w r st)))).
  change (prompts (append_message (Message "bot" bot_response (now_bot w))
                     (prompted next us (fst (resolved w r st)))))
    with (prompts (prompted next us (fst (resolved w r st)))).
  assert (Hstep : current_step (append_message (Message "bot" bot_response (now_bot w))
                                  (prompted next us (fst (resolved w r st)))) = next).
  { unfold prompted. destruct (list_truthy us); reflexivity. }
  rewrite Hstep.
  destruct (prompts_solid _ _ _ _ Hnth) as (_ & _ & Hhead).
  destruct Hcase as [(Hus & H1 & ->)|(Hus & ->)].
  - rewrite Hus in *. cbn [list_truthy].
    split; [unfold shows_prompt; cbn [nonempty orb]; apply Z.ltb_lt; lia|].
    split; [intros _; split; [|exact H1];
            unfold prompted; cbn; f_equal; apply resolved_retry_count|].
    split; [congruence|]. split; [eauto|].
    intros Heq. apply Hhead. rewrite Heq. reflexivity.
  - destruct us as [|frag more]; [congruence|]. cbn [list_truthy].
    split; [reflexivity|]. split; [discriminate|]. split; [reflexivity|].
    split; [eauto|].
    intros Heq. apply (f_equal head_char) in Heq. discriminate Heq.
Qed.

End Responses.

(** ** The retry counter *)

Section RetryCounter.
Context `{P : Platform}.
Import Text.

(** What a turn does to the counter of a live session: finalization sets
    it to 0; otherwise it grows by one when no slot was updated and is
    left as it is when one was, whether or not the step moved on. *)
Lemma retry_count_after_turn (w : world) (r : request) (st : state) :
  extraction_raises r = false ->
  sound st ->
  retry_count (snd (turn w r st))
  = match missing_slots (fst (resolved w r st)), snd (resolved w r st) with
    | [], _ => 0
    | _ :: _, [] => retry_count st + 1
    | _ :: _, _ :: _ => retry_count st
    end.
Proof.
  intros Hx [Hrc _].
  destruct (missing_slots (fst (resolved w r st))) as [|next rest] eqn:Hm.
  - destruct (turn_finalizes w r st Hx Hm) as (resp & _ & ->). reflexivity.
  - destruct (turn_prompts w r st next rest Hx Hrc Hm)
      as (prompt & resp & _ & _ & _ & ->).
    cbn [snd]. unfold prompted.
    destruct (snd (resolved w r st)); cbn; rewrite resolved_retry_count; reflexivity.
Qed.

(** The candidates of an utterance without digits in which the word
    parser finds no number either. *)
Lemma extract_no_number (st : state) (t : string) :
  Re.findall number_pattern (lower t) = [] ->
  Re.search number_pattern (Re.sub (Re.Chr is_currency_mark) "" t) = None ->
  word_to_num (Re.sub (Re.Chr is_currency_mark) "" t) = ValueError ->
  extract st t = Candidates (extract_exchange t) (extract_trading_pair t) None None.
Proof.
  intros Hf Hs Hw. unfold extract, numbers_of, extract_number.
  rewrite Hf, Hs, Hw. unfold qty_candidate, price_candidate. cbn.
  destruct (contains "at" (lower t)), (quantity_truthy st); reflexivity.
Qed.

(** Such an utterance goes through the extraction. *)
Lemma numbers_raise_no_number (t : string) :
  Re.findall number_pattern (lower t) = [] ->
  word_to_num (Re.sub (Re.Chr is_currency_mark) "" t) = ValueError ->
  numbers_raise t (lower t) = false.
Proof.
  intros Hf Hw. unfold numbers_raise, extract_number_raises. rewrite Hf, Hw.
  destruct (Re.search _ _); reflexivity.
Qed.

(** C6, on the run [start_call], "hello", "okx".  The first utterance
    yields nothing: the step stays at the exchange and the counter goes to
    1.  The second sets the exchange: the step advances to the trading
    pair, and the counter is still 1. *)
Theorem C6_retry_count_kept_on_step_advance (w1 w2 : world) (iso : string)
    (now : instant) :
  word_to_num "hello" = ValueError -> word_to_num "okx" = ValueError ->
  let cs0 := snd (start_call "c1" iso now ∅) in
  let cs1 := snd (webhook w1 (Request (Some "c1") "hello" None) cs0) in
  let cs2 := snd (webhook w2 (Request (Some "c1") "okx" None) cs1) in
  exists st1 st2,
    cs1 !! "c1" = Some st1 /\ cs2 !! "c1" = Some st2
    /\ current_step st1 = Exchange /\ retry_count st1 = 1
    /\ exchange st2 = Some "okx" /\ current_step st2 = TradingPair
    /\ retry_count st2 = 1.
Proof.
  intros H1 H2 cs0 cs1 cs2.
  assert (L1 : cs1 = <["c1" := snd (turn w1 (Request (Some "c1") "hello" None)
                                      (initial_state iso now))]> cs0).
  { subst cs1.
    rewrite (webhook_live w1 (Request (Some "c1") "hello" None) cs0 "c1"
               (initial_state iso now) eq_refl eq_refl (lookup_insert_eq _ _ _) eq_refl).
    reflexivity. }
  remember (snd (turn w1 (Request (Some "c1") "hello" None) (initial_state iso now)))
    as st1 eqn:E1.
  rewrite (turn_answered w1 (Request (Some "c1") "hello" None) (initial_state iso now)
             (numbers_raise_no_number "hello" eq_refl H1)) in E1.
  unfold answered, resolved, heard, utterance in E1.
  cbn [transcript] in E1.
  change (strip "hello") with "hello" in E1.
  rewrite (extract_no_number _ "hello" eq_refl eq_refl H1) in E1.
  vm_compute in E1.
  assert (L2 : cs2 = <["c1" := snd (turn w2 (Request (Some "c1") "okx" None) st1)]> cs1).
  { subst cs2. fold cs1.
    rewrite (webhook_live w2 (Request (Some "c1") "okx" None) cs1 "c1" st1 eq_refl eq_refl).
    - reflexivity.
    - rewrite L1. apply lookup_insert_eq.
    - rewrite E1. reflexivity. }
  remember (snd (turn w2 (Request (Some "c1") "okx" None) st1)) as st2 eqn:E2.
  rewrite (turn_answered w2 (Request (Some "c1") "okx" None) st1
             (numbers_raise_no_number "okx" eq_refl H2)) in E2.
  unfold answered, resolved, heard, utterance in E2.
  cbn [transcript] in E2.
  change (strip "okx") with "okx" in E2.
  rewrite (extract_no_number _ "okx" eq_refl eq_refl H2) in E2.
  rewrite E1 in E2. vm_compute in E2.
  exists st1, st2.
  split; [rewrite L1; apply lookup_insert_eq|].
  split; [rewrite L2; apply lookup_insert_eq|].
  rewrite E1, E2. repeat split.
Qed.

End RetryCounter.

(** ** The trading-pair extractor on "trade BASE with QUOTE" *)

Section DeadPatterns.
Import Text.

Lemma upper_char_not_lower (c : ascii) : is_lower (upper_char c) = false.
Proof. destruct c as [[] [] [] [] [] [] [] []]; reflexivity. Qed.

Lemma no_lower_upper (s : string) : no_lower (upper s) = true.
Proof.
  induction s as [|c r IH]; [reflexivity|].
  cbn [upper map_chars no_lower]. fold (upper r).
  rewrite upper_char_not_lower, IH. reflexivity.
Qed.

Lemma no_lower_app (a b : string) :
  no_lower (a ++ b) = no_lower a && no_lower b.
Proof.
  induction a as [|c a IH]; [reflexivity|].
  change (String c a ++ b) with (String c (a ++ b)).
  cbn [no_lower]. rewrite IH, andb_assoc. reflexivity.
Qed.

Lemma no_lower_sub_from (r : Re.regex) (repl : string) (s : string) :
  no_lower repl = true -> no_lower s = true ->
  forall prev skip, no_lower (Re.sub_from r repl prev skip s) = true.
Proof.
  intros Hr. induction s as [|c s IH]; intros Hs prev skip.
  - destruct skip; cbn [Re.sub_from]; [|reflexivity].
    destruct (Re.match_here r prev ""); [|reflexivity].
    rewrite no_lower_app, Hr. reflexivity.
  - cbn [no_lower] in Hs. apply andb_prop in Hs. destruct Hs as [Hc Hs].
    destruct skip; cbn [Re.sub_from]; [|apply IH, Hs].
    destruct (Re.match_here r prev (String c s)) as [f|].
    + rewrite no_lower_app, Hr. cbn [andb].
      destruct (String.length (Re.matched f)); [|apply IH, Hs].
      cbn [no_lower]. rewrite Hc, IH by exact Hs. reflexivity.
    + cbn [no_lower]. rewrite Hc, IH by exact Hs. reflexivity.
Qed.

Lemma no_lower_sub (r : Re.regex) (repl s : string) :
  no_lower repl = true -> no_lower s = true -> no_lower (Re.sub r repl s) = true.
Proof. intros Hr Hs. apply no_lower_sub_from; assumption. Qed.

Lemma no_lower_replace_from (old new : string) (s : string) :
  no_lower new = true -> no_lower s = true ->
  forall skip, no_lower (replace_from old new skip s) = true.
Proof.
  intros Hn. induction s as [|c s IH]; intros Hs skip.
  - destruct skip; reflexivity.
  - cbn [no_lower] in Hs. apply andb_prop in Hs. destruct Hs as [Hc Hs].
    destruct skip; cbn [replace_from]; [|apply IH, Hs].
    destruct (String.prefix old (String c s)).
    + rewrite no_lower_app, Hn, IH by exact Hs. reflexivity.
    + cbn [no_lower]. rewrite Hc, IH by exact Hs. reflexivity.
Qed.

Lemma no_lower_prepared (t : string) : no_lower (prepared t) = true.
Proof.
  unfold prepared.
  assert (H : forall table s,
             Forall (fun entry => no_lower (snd entry) = true) table ->
             no_lower s = true ->
             no_lower (fold_left
                         (fun t entry => replace (upper (fst entry)) (snd entry) t)
                         table s) = true).
  { induction table as [|entry table IH]; intros s Ht Hs; [exact Hs|].
    inversion Ht as [|? ? He Ht']; subst. cbn [fold_left].
    apply IH; [exact Ht'|]. apply no_lower_replace_from; assumption. }
  apply H.
  - repeat constructor.
  - do 3 (apply no_lower_sub; [reflexivity|]). apply no_lower_upper.
Qed.

Lemma eat_no_lower (lit : string) (prev : option ascii) (s : string)
    (prev' : option ascii) (s' : string) :
  Re.eat lit prev s = Some (prev', s') -> no_lower s = true -> no_lower s' = true.
Proof.
  revert prev s. induction lit as [|a lit IH]; intros prev s H Hs.
  - injection H as _ <-. exact Hs.
  - destruct s as [|b s]; [discriminate H|]. cbn [Re.eat] in H.
    destruct (Ascii.eqb a b); [|discriminate H].
    cbn [no_lower] in Hs. apply andb_prop in Hs. exact (IH _ _ H (proj2 Hs)).
Qed.

Section Dead.
Context {R : Type}.

Lemma repeat_class_dead (p : ascii -> bool) (k : Re.cursor -> option R) :
  dead k ->
  forall s lo hi prev gs, no_lower s = true -> Re.repeat_class p lo hi k prev gs s = None.
Proof.
  intros Hk. induction s as [|c s IH]; intros lo hi prev gs Hs.
  - cbn [Re.repeat_class]. destruct lo; [apply Hk; exact Hs|reflexivity].
  - assert (Hstop : match lo with
                    | O => k (Re.Cursor prev (String c s) gs)
                    | S _ => None
                    end = None)
      by (destruct lo; [apply Hk; exact Hs|reflexivity]).
    cbn [no_lower] in Hs. apply andb_prop in Hs.
    cbn [Re.repeat_class]. rewrite (IH _ _ _ _ (proj2 Hs)).
    destruct (p c && Re.may_take hi); exact Hstop.
Qed.

(** A matcher hands a text without lower-case letters on to its
    continuation only at positions of that same kind. *)
Lemma run_dead (r : Re.regex) :
  forall k : Re.cursor -> option R, dead k -> dead (Re.run r k).
Proof.
  induction r as [p|lit| |p lo hi|r1 IH1|r1 IH1 r2 IH2|n r1 IH1];
    intros k Hk c Hc; cbn [Re.run].
  - destruct (Re.rest c) as [|a s'] eqn:E; [reflexivity|].
    destruct (p a); [|reflexivity]. apply Hk. cbn [Re.rest].
    cbn [no_lower] in Hc. apply andb_prop in Hc. exact (proj2 Hc).
  - destruct (Re.eat lit (Re.before c) (Re.rest c)) as [[prev' s']|] eqn:E;
      [|reflexivity].
    apply Hk. exact (eat_no_lower _ _ _ _ _ E Hc).
  - destruct (Re.at_boundary c); [apply Hk, Hc|reflexivity].
  - apply repeat_class_dead; assumption.
  - rewrite (IH1 k Hk c Hc). apply Hk, Hc.
  - apply IH1; [|exact Hc]. apply IH2, Hk.
  - apply IH1; [|exact Hc]. intros c' Hc'. apply Hk. exact Hc'.
Qed.

(** A pattern with a lower-case literal to read matches nowhere in such
    a text, whatever follows it. *)
Lemma needs_lower_dead (r : Re.regex) :
  needs_lower r = true -> forall k : Re.cursor -> option R, dead (Re.run r k).
Proof.
  induction r as [p|lit| |p lo hi|r1 IH1|r1 IH1 r2 IH2|n r1 IH1];
    cbn [needs_lower]; intros H k; try discriminate H.
  - destruct lit as [|a lit]; [discriminate H|].
    intros c Hc. cbn [Re.run Re.eat].
    destruct (Re.rest c) as [|b s]; [reflexivity|].
    cbn [no_lower] in Hc. apply andb_prop in Hc. destruct Hc as [Hb _].
    destruct (Ascii.eqb a b) eqn:E; [|reflexivity].
    apply Ascii.eqb_eq in E. subst b. rewrite H in Hb. discriminate Hb.
  - apply orb_prop in H. destruct H as [H|H]; cbn [Re.run].
    + intros c Hc. exact (IH1 H (Re.run r2 k) c Hc).
    + intros c Hc. exact (run_dead r1 _ (IH2 H k) c Hc).
  - intros c Hc. cbn [Re.run]. exact (IH1 H _ c Hc).
Qed.

End Dead.

Lemma search_needs_lower (r : Re.regex) (s : string) :
  needs_lower r = true -> no_lower s = true -> Re.search r s = None.
Proof.
  intros Hr. unfold Re.search. generalize (@None ascii).
  induction s as [|c s IH]; intros prev Hs; cbn [Re.search_from]; unfold Re.match_here.
  - rewrite (needs_lower_dead r Hr _ (Re.Cursor prev "" []) Hs). reflexivity.
  - rewrite (needs_lower_dead r Hr _ (Re.Cursor prev (String c s) []) Hs).
    cbn [no_lower] in Hs. apply andb_prop in Hs. apply IH. exact (proj2 Hs).
Qed.

(** Of the five patterns only the first can match a prepared transcript. *)
Lemma first_pattern_standard_only (s : string) :
  no_lower s = true ->
  first_pattern patterns s = first_pattern (firstn 1 patterns) s.
Proof.
  intros Hs. unfold patterns. cbn [firstn first_pattern].
  destruct (Re.search _ s) as [m|]; [reflexivity|].
  repeat (rewrite search_needs_lower; [|reflexivity|exact Hs]).
  reflexivity.
Qed.

Lemma extract_trading_pair_prepared (t : string) :
  extract_trading_pair t = first_pattern patterns (prepared t).
Proof. reflexivity. Qed.

End DeadPatterns.

(** C8, on the utterances of the comments next to the second and third
    pattern.  The transcript is upper-cased before matching while these
    patterns (and the two after them) spell their keywords in lower case,
    so on every transcript the result is the one of the first pattern
    alone; on "trade BTC with USDT" that pattern pairs the word TRADE
    with the base, and the result is "TRADE/BTC", not "BTC/USDT". *)
Theorem C8_trade_with_yields_trade_base :
  (forall t, extract_trading_pair t = first_pattern (firstn 1 patterns) (prepared t))
  /\ extract_trading_pair "trade BTC with USDT" = Some "TRADE/BTC"
  /\ extract_trading_pair "trade BTC against USDT" = Some "TRADE/BTC".
Proof.
  split.
  - intros t. rewrite extract_trading_pair_prepared.
    apply first_pattern_standard_only, no_lower_prepared.
  - split; vm_compute; reflexivity.
Qed.

(** ** The runs above, as witnesses and counterexamples *)

Lemma admissible_first : admissible (StartCall "c1" "t0" 0) ∅.
Proof. split; reflexivity. Qed.

Lemma reachable_opened : reachable opened.
Proof. exact (reachable_step _ _ reachable_empty admissible_first). Qed.

Lemma reachable_hung_up : reachable hung_up.
Proof. exact (reachable_step _ (EndCall _) reachable_opened I). Qed.

Lemma reachable_priced_next : reachable priced_next.
Proof.
  exact (reachable_step _ (say "0.5")
           (reachable_step _ (say "BTC/USDT")
              (reachable_step _ (say "okx") reachable_opened I) I) I).
Qed.

Lemma C1_slot_resolution_witness :
  webhook offline (ask "okx") opened
  = (Ok "Got it, updated exchange to OKX. What trading pair would you like? (e.g., BTC/USDT)",
     run [StartCall "c1" "t0" 0; say "okx"])
  /\ exists id st st',
       call_id (ask "okx") = Some id /\ opened !! id = Some st /\ ended st = false
       /\ run [StartCall "c1" "t0" 0; say "okx"] !! id = Some st'
       /\ (is_correction_of (Text.lower (utterance (ask "okx"))) = false ->
           (forall s v, slot_value st s = Some v -> slot_value st' s = Some v)
           /\ (forall s, slot_value st s = None ->
                 slot_value st' s = candidate (extract st (utterance (ask "okx"))) s))
       /\ (is_correction_of (Text.lower (utterance (ask "okx"))) = true ->
           forall s v, candidate (extract st (utterance (ask "okx"))) s = Some v ->
             slot_value st' s = Some v).
Proof.
  assert (H : webhook offline (ask "okx") opened
              = (Ok "Got it, updated exchange to OKX. What trading pair would you like? (e.g., BTC/USDT)",
                 run [StartCall "c1" "t0" 0; say "okx"]))
    by (vm_compute; reflexivity).
  split; [exact H|]. exact (C1_slot_resolution _ _ _ _ _ H).
Defined.

(** A session closed by [end_call] right after [start_call] has its flag
    true and no slot set. *)
Lemma C2_counterexample : ~ @ended_implies_all_set literal_platform.
Proof.
  intros H.
  assert (Hl : hung_up !! "c1" = Some (session hung_up)) by (vm_compute; reflexivity).
  specialize (H hung_up "c1" (session hung_up) reachable_hung_up Hl eq_refl).
  vm_compute in H. discriminate H.
Qed.

Lemma reachable_confirmed : reachable confirmed.
Proof. exact (reachable_step _ (say "at 65000") reachable_priced_next I). Qed.

(** [end_call] was never served in the run that leads to [confirmed]. *)
Lemma unforced_confirmed : reachable_unforced "c1" confirmed.
Proof.
  exact (unforced_step _ _ (say "at 65000")
           (unforced_step _ _ (say "0.5")
              (unforced_step _ _ (say "BTC/USDT")
                 (unforced_step _ _ (say "okx")
                    (unforced_step _ _ (StartCall "c1" "t0" 0) (unforced_empty _)
                       admissible_first eq_refl)
                    I eq_refl)
                 I eq_refl)
              I eq_refl)
           I eq_refl).
Qed.

(** The session with three slots set is live: the turn "at 65000" is
    answered and leaves the flag true with no slot missing, and [end_call]
    would raise the flag with the price still unset.  The session
    confirmed by that turn has its four slots set and its flag true, and
    its next turn is rejected. *)
Lemma C2_finalization_witness :
  (reachable priced_next /\ priced_next !! "c1" = Some (session priced_next)
   /\ ended (session priced_next) = false
   /\ (exists st', confirmed !! "c1" = Some st'
         /\ (ended st' = true <-> missing_slots st' = []))
   /\ (exists st', snd (end_call (Some "c1") priced_next) !! "c1" = Some st'
         /\ ended st' = true
         /\ forall s, slot_value st' s = slot_value (session priced_next) s))
  /\ (reachable confirmed /\ confirmed !! "c1" = Some (session confirmed)
      /\ missing_slots (session confirmed) = []
      /\ ended (session confirmed) = true
      /\ webhook offline (ask "okx") confirmed = (SessionEnded, confirmed)
      /\ reachable_unforced "c1" confirmed).
Proof.
  assert (Hl : priced_next !! "c1" = Some (session priced_next))
    by (vm_compute; reflexivity).
  assert (Hw : webhook offline (ask "at 65000") priced_next
               = (Ok "✅ Order confirmed: Trading 0.5 BTC/USDT on OKX at $65000. ⚠️ Couldn't fetch price: failed to fetch price. Goodbye!",
                  confirmed))
    by (vm_compute; reflexivity).
  assert (Hl' : confirmed !! "c1" = Some (session confirmed))
    by (vm_compute; reflexivity).
  assert (Hm : missing_slots (session confirmed) = []) by (vm_compute; reflexivity).
  destruct (C2_finalization priced_next "c1" (session priced_next)
              reachable_priced_next Hl) as (_ & H2 & _ & H4 & _).
  destruct (C2_finalization confirmed "c1" (session confirmed)
              reachable_confirmed Hl') as (K1 & _ & K3 & _ & K5).
  split.
  - split; [exact reachable_priced_next|]. split; [exact Hl|].
    split; [exact (proj1 (H2 offline (ask "at 65000") _ _ eq_refl Hw))|].
    split; [exact (proj2 (H2 offline (ask "at 65000") _ _ eq_refl Hw))|exact H4].
  - split; [exact reachable_confirmed|]. split; [exact Hl'|].
    split; [exact (K5 unforced_confirmed (K1 Hm))|].
    split; [exact (K1 Hm)|].
    split; [exact (K3 (K1 Hm) offline (ask "okx") eq_refl)|exact unforced_confirmed].
Defined.

Lemma C3_ended_session_rejects_witness :
  reachable hung_up /\ call_id (ask "okx") = Some "c1"
  /\ hung_up !! "c1" = Some (session hung_up) /\ ended (session hung_up) = true
  /\ webhook offline (ask "okx") hung_up = (SessionEnded, hung_up).
Proof.
  assert (Hl : hung_up !! "c1" = Some (session hung_up)) by (vm_compute; reflexivity).
  split; [exact reachable_hung_up|]. split; [reflexivity|]. split; [exact Hl|].
  split; [reflexivity|].
  exact (C3_ended_session_rejects hung_up offline (ask "okx") "c1" (session hung_up)
           reachable_hung_up eq_refl Hl eq_refl).
Defined.

(** "thousand one" on a fresh session: the word parser raises
    [IndexError], the call ends with status 500, and the history holds
    the greeting and the user entry, with no bot entry after it. *)
Lemma C4_raising_turn_appends_user_entry_only_witness :
  reachable opened /\ opened !! "c1" = Some (session opened)
  /\ ended (session opened) = false
  /\ extraction_raises (ask "thousand one") = true
  /\ webhook offline (ask "thousand one") opened
     = (Raised, <["c1" := heard offline (ask "thousand one") (session opened)]> opened)
  /\ messages (heard offline (ask "thousand one") (session opened))
     = [Message "bot" initial_message "t0"; Message "user" "thousand one" "t1"].
Proof.
  assert (Hl : opened !! "c1" = Some (session opened)) by (vm_compute; reflexivity).
  assert (Hx : extraction_raises (ask "thousand one") = true)
    by (vm_compute; reflexivity).
  split; [exact reachable_opened|]. split; [exact Hl|]. split; [reflexivity|].
  split; [exact Hx|].
  destruct (C4_raising_turn_appends_user_entry_only opened "c1" (session opened)
              reachable_opened Hl) as (_ & _ & H3).
  destruct (H3 offline (ask "thousand one") eq_refl eq_refl Hx) as (Hw & Hm & _).
  split; [exact Hw|exact Hm].
Defined.

(** "what about 5" has no word "at" and comes with no quantity known, yet
    its number is not the quantity candidate: "what" contains "at". *)
Lemma C5_counterexample : ~ @candidates_by_word literal_platform.
Proof.
  intros H.
  destruct (H fresh "what about 5" "5" eq_refl) as (_ & _ & H3).
  specialize (H3 eq_refl eq_refl). vm_compute in H3. discriminate H3.
Qed.

(** With "at" in the utterance the price candidate is the last number,
    here the one further from the keyword. *)
Example price_candidate_is_last_number :
  price_c (extract fresh "buy at 100 then 5 more") = Some "5".
Proof. vm_compute. reflexivity. Qed.

(** A quantity of zero is known, yet the next number is no price
    candidate; it is a quantity candidate, which an ordinary turn does not
    apply to the slot already set. *)
Example zero_quantity_gives_no_price :
  quantity (session (run [StartCall "c1" "t0" 0; say "okx"; say "BTC/USDT"; say "0"]))
  = Some "0"
  /\ extract (session (run [StartCall "c1" "t0" 0; say "okx"; say "BTC/USDT"; say "0"]))
       "5"
     = Candidates None None (Some "5") None.
Proof. split; vm_compute; reflexivity. Qed.

Lemma C5_candidates_witness :
  Text.contains "at" (Text.lower "what about 5") = true
  /\ Re.findall number_pattern (Text.lower "what about 5") = ["5"]
  /\ qty (extract fresh "what about 5") = None
  /\ price_c (extract fresh "what about 5")
     = last_number (numbers_of "what about 5" (Text.lower "what about 5"))
  /\ last_number (numbers_of "what about 5" (Text.lower "what about 5"))
     = Some (float_of_literal "5").
Proof.
  split; [reflexivity|]. split; [reflexivity|].
  destruct (C5_candidates fresh "what about 5") as (Hat & _ & Hdigits & _).
  destruct (Hat eq_refl) as [Hq Hp].
  destruct (Hdigits "5" [] eq_refl) as [_ Hlast].
  split; [exact Hq|]. split; [exact Hp|exact Hlast].
Defined.

Lemma C7_lookup_failure_still_confirms_witness :
  reachable priced_next /\ priced_next !! "c1" = Some (session priced_next)
  /\ ended (session priced_next) = false
  /\ snd (webhook offline (ask "at 65000") priced_next) !! "c1"
     = Some (session (snd (webhook offline (ask "at 65000") priced_next)))
  /\ missing_slots (session (snd (webhook offline (ask "at 65000") priced_next))) = []
  /\ fst (webhook offline (ask "at 65000") priced_next)
     = Ok "✅ Order confirmed: Trading 0.5 BTC/USDT on OKX at $65000. ⚠️ Couldn't fetch price: failed to fetch price. Goodbye!"
  /\ ended (session (snd (webhook offline (ask "at 65000") priced_next))) = true.
Proof.
  assert (Hl : priced_next !! "c1" = Some (session priced_next))
    by (vm_compute; reflexivity).
  assert (Hl' : snd (webhook offline (ask "at 65000") priced_next) !! "c1"
                = Some (session (snd (webhook offline (ask "at 65000") priced_next))))
    by (vm_compute; reflexivity).
  assert (Hm : missing_slots (session (snd (webhook offline (ask "at 65000") priced_next)))
               = []) by (vm_compute; reflexivity).
  split; [exact reachable_priced_next|]. split; [exact Hl|]. split; [reflexivity|].
  split; [exact Hl'|]. split; [exact Hm|].
  destruct (C7_lookup_failure_still_confirms priced_next offline (ask "at 65000") "c1"
              (session priced_next)
              (session (snd (webhook offline (ask "at 65000") priced_next)))
              reachable_priced_next eq_refl Hl eq_refl Hl' Hm (fun _ _ _ _ => eq_refl))
    as (e & tp & q & p & _ & _ & _ & _ & _ & _ & _ & Hend).
  split; [vm_compute; reflexivity|exact Hend].
Defined.

Lemma C6_retry_count_kept_on_step_advance_witness :
  @word_to_num literal_platform "hello" = ValueError
  /\ @word_to_num literal_platform "okx" = ValueError
  /\ exists st1 st2,
       run [StartCall "c1" "t0" 0; say "hello"] !! "c1" = Some st1
       /\ run [StartCall "c1" "t0" 0; say "hello"; say "okx"] !! "c1" = Some st2
       /\ current_step st1 = Exchange /\ retry_count st1 = 1
       /\ exchange st2 = Some "okx" /\ current_step st2 = TradingPair
       /\ retry_count st2 = 1.
Proof.
  split; [reflexivity|]. split; [reflexivity|].
  exact (C6_retry_count_kept_on_step_advance offline offline "t0" 0 eq_refl eq_refl).
Defined.

Lemma C9_fallback_unreachable_witness :
  reachable opened
  /\ webhook offline (ask "hello") opened
     = (Ok "Which exchange? Say OKX, Bybit, Deribit, or Binance.",
        run [StartCall "c1" "t0" 0; say "hello"])
  /\ opened !! "c1" = Some fresh
  /\ run [StartCall "c1" "t0" 0; say "hello"] !! "c1"
     = Some (session (run [StartCall "c1" "t0" 0; say "hello"]))
  /\ ended (session (run [StartCall "c1" "t0" 0; say "hello"])) = false
  /\ "Which exchange? Say OKX, Bybit, Deribit, or Binance." <> fallback_response.
Proof.
  assert (H : webhook offline (ask "hello") opened
              = (Ok "Which exchange? Say OKX, Bybit, Deribit, or Binance.",
                 run [StartCall "c1" "t0" 0; say "hello"]))
    by (vm_compute; reflexivity).
  assert (Hl : opened !! "c1" = Some fresh) by (vm_compute; reflexivity).
  assert (Hl' : run [StartCall "c1" "t0" 0; say "hello"] !! "c1"
                = Some (session (run [StartCall "c1" "t0" 0; say "hello"])))
    by (vm_compute; reflexivity).
  split; [exact reachable_opened|]. split; [exact H|]. split; [exact Hl|].
  split; [exact Hl'|]. split; [reflexivity|].
  exact (proj2 (proj2 (proj2 (proj2
           (C9_fallback_unreachable opened _ offline (ask "hello") _ "c1" fresh _
              reachable_opened H eq_refl Hl Hl' eq_refl))))).
Defined.

Lemma C10_correction_overwrites_both_witness :
  priced_next !! "c1" = Some (session priced_next)
  /\ ended (session priced_next) = false
  /\ is_correction_of (Text.lower (utterance (ask "no, 7"))) = true
  /\ Re.findall number_pattern (Text.lower (utterance (ask "no, 7"))) = ["7"]
  /\ Text.contains "at" (Text.lower (utterance (ask "no, 7"))) = false
  /\ quantity_truthy (session priced_next) = true
  /\ exists st', snd (webhook offline (ask "no, 7") priced_next) !! "c1" = Some st'
       /\ quantity st' = Some (float_of_literal "7")
       /\ price st' = Some (float_of_literal "7").
Proof.
  assert (Hl : priced_next !! "c1" = Some (session priced_next))
    by (vm_compute; reflexivity).
  split; [exact Hl|]. do 5 (split; [vm_compute; reflexivity|]).
  apply (C10_correction_overwrites_both offline (ask "no, 7") priced_next "c1"
           (session priced_next) "7" []); solve [exact Hl | vm_compute; reflexivity].
Defined.

(** * Further properties *)

(** ** Requests and the store *)

Section StoreRequests.
Context `{P : Platform}.
Import Text.

Lemma answered_created (w : world) (r : request) (st : state) :
  created (snd (answered w r st)) = created st.
Proof.
  unfold answered.
  assert (H : created (fst (resolved w r st)) = created st).
  { destruct (resolved_frame w r st) as (_ & _ & <- & _). reflexivity. }
  revert H. generalize (resolved w r st). intros [st2 us]. cbn [fst snd]. intros <-.
  destruct (missing_slots st2) as [|next rest].
  - unfold confirm_order.
    destruct (exchange st2), (trading_pair st2), (quantity st2), (price st2);
      try reflexivity.
    destruct (returned _) as [[cp err]| |]; reflexivity.
  - rewrite prompt_next_eq.
    assert (H : created (prompted next us st2) = created st2).
    { unfold prompted. destruct (list_truthy us); reflexivity. }
    destruct (shows_prompt _ _); [destruct (list_item _ _)|]; exact H.
Qed.

Lemma turn_created (w : world) (r : request) (st : state) :
  created (snd (turn w r st)) = created st.
Proof.
  destruct (extraction_raises r) eqn:Hx.
  - rewrite (turn_raised w r st Hx). reflexivity.
  - rewrite (turn_answered w r st Hx), <- (answered_created w r st).
    destruct (fst (answered w r st)); reflexivity.
Qed.

(** A turn never unsets a slot. *)
Lemma turn_keeps_slots_set (w : world) (r : request) (st : state) (s : slot) :
  is_set (slot_value st s) = true -> is_set (slot_value (snd (turn w r st)) s) = true.
Proof.
  destruct (extraction_raises r) eqn:Hx;
    [rewrite (turn_raised_slots w r st s Hx); auto|].
  rewrite (turn_slots w r st s Hx).
  destruct (is_correction_of (lower (utterance r))) eqn:Hc.
  - rewrite (resolved_correction w r st s Hc).
    destruct (candidate _ s); [reflexivity|auto].
  - rewrite (resolved_ordinary w r st s Hc).
    destruct (slot_value st s); [reflexivity|discriminate].
Qed.

(** [turn] never answers with the rejection of an unknown session. *)
Lemma turn_not_rejected (w : world) (r : request) (st : state) :
  fst (turn w r st) <> InvalidSession.
Proof.
  rewrite turn_eq.
  destruct (extraction_raises r); [|destruct (fst (answered w r st))]; discriminate.
Qed.

(** Nor with the rejection of an ended one. *)
Lemma turn_not_ended (w : world) (r : request) (st : state) :
  fst (turn w r st) <> SessionEnded.
Proof.
  rewrite turn_eq.
  destruct (extraction_raises r); [|destruct (fst (answered w r st))]; discriminate.
Qed.

(** X1. A call of [webhook] concerns one session at most: it neither adds
    nor removes a session, it leaves every session other than the one it
    names as it was, and it answers "invalid" exactly when the call names
    no session of the store (no id, the empty id, or an unknown one), in
    which case the whole store is as before. *)
Theorem webhook_one_session (w : world) (r : request) (cs : gmap string state) :
  dom (snd (webhook w r cs)) = dom cs
  /\ (forall id, call_id r <> Some id -> snd (webhook w r cs) !! id = cs !! id)
  /\ (fst (webhook w r cs) = InvalidSession <->
      forall id, call_id r = Some id -> nonempty id = true -> cs !! id = None)
  /\ (fst (webhook w r cs) = InvalidSession -> snd (webhook w r cs) = cs).
Proof.
  destruct (webhook_cases w r cs) as [[E Hno]|[(i & s & Hid & Hne & Hl & He & E)
    |(i & s & Hid & Hne & Hl & He & E)]]; rewrite E; cbn [fst snd].
  - split; [reflexivity|]. split; [reflexivity|]. split; [|reflexivity].
    split; [|reflexivity]. intros _ id H1 H2.
    destruct (cs !! id) as [st|] eqn:El; [|reflexivity].
    destruct (Hno id st H1 H2 El).
  - split; [reflexivity|]. split; [reflexivity|]. split; [|discriminate].
    split; [discriminate|]. intros H. rewrite (H i Hid Hne) in Hl. discriminate Hl.
  - split; [apply dom_insert_lookup_L; eauto|].
    split; [intros id Hn; apply lookup_insert_ne; congruence|].
    pose proof (turn_not_rejected w r s) as Hk.
    split; [|intros H; destruct (Hk H)].
    split; [intros H; destruct (Hk H)|].
    intros H. rewrite (H i Hid Hne) in Hl. discriminate Hl.
Qed.


(** X2. [end_call] on an id that names no session answers "not found"
    and changes nothing.  On a session of the store it raises the ended
    flag and touches nothing else: the slots, history, creation time,
    step and counter of that session and all other sessions are as
    before; a second [end_call] changes nothing more, and a [webhook]
    call for that session is rejected from then on. *)
Theorem end_call_effect (cs : gmap string state) (id : string) :
  (cs !! id = None -> end_call (Some id) cs = (false, cs))
  /\ end_call None cs = (false, cs)
  /\ (forall st, cs !! id = Some st ->
        end_call (Some id) cs = (true, <[id := set_ended true st]> cs)
        /\ (forall id', id' <> id -> snd (end_call (Some id) cs) !! id' = cs !! id')
        /\ snd (end_call (Some id) (snd (end_call (Some id) cs)))
           = snd (end_call (Some id) cs)
        /\ (forall w r, call_id r = Some id -> nonempty id = true ->
              webhook w r (snd (end_call (Some id) cs))
              = (SessionEnded, snd (end_call (Some id) cs)))).
Proof.
  split; [intros H; unfold end_call; rewrite H; reflexivity|].
  split; [reflexivity|].
  intros st Hl.
  assert (E : end_call (Some id) cs = (true, <[id := set_ended true st]> cs))
    by (unfold end_call; rewrite Hl; reflexivity).
  rewrite E. cbn [snd]. split; [reflexivity|].
  split; [intros id' Hn; apply lookup_insert_ne; congruence|].
  split.
  - unfold end_call. rewrite lookup_insert_eq. cbn [snd].
    apply insert_insert_eq.
  - intros w r Hid Hne.
    exact (webhook_ended w r _ id (set_ended true st) Hid Hne
             (lookup_insert_eq _ _ _) eq_refl).
Qed.

(** What [cleanup_old_states] keeps. *)
Lemma cleanup_keeps (now : instant) (cs : gmap string state) (i : string) (st : state) :
  cleanup_old_states now cs !! i = Some st <->
  cs !! i = Some st /\ (ended st = false \/ older_than_300 now (created st) = false).
Proof.
  rewrite cleanup_lookup. unfold expired. rewrite andb_false_iff. reflexivity.
Qed.

(** The answer of [poll_messages]. *)
Lemma poll_messages_answer (now : instant) (id : string) (cs : gmap string state) :
  fst (poll_messages now id cs)
  = match cs !! id with
    | Some st => if expired now st then None else Some (messages st, ended st)
    | None => None
    end.
Proof.
  unfold poll_messages.
  destruct (cs !! id) as [st|] eqn:Hl.
  - destruct (expired now st) eqn:Hx.
    + destruct (cleanup_old_states now cs !! id) as [st'|] eqn:E; [|reflexivity].
      apply cleanup_lookup in E. destruct E as [E1 E2].
      assert (st' = st) as -> by congruence. congruence.
    + assert (E : cleanup_old_states now cs !! id = Some st)
        by (apply cleanup_lookup; auto).
      rewrite E. reflexivity.
  - destruct (cleanup_old_states now cs !! id) as [st'|] eqn:E; [|reflexivity].
    apply cleanup_lookup in E. destruct E as [E _]. congruence.
Qed.

(** X3. [cleanup_old_states] keeps a session exactly when it has not
    ended or is not older than 300 s, unchanged; so a live session is
    never swept, and sweeping twice at the same time is sweeping once.
    [poll_messages] returns the swept store, with the history and flag of
    the session when it is still there and "not found" otherwise. *)
Theorem poll_messages_sweep (now : instant) (id : string) (cs : gmap string state) :
  snd (poll_messages now id cs) = cleanup_old_states now cs
  /\ (forall i st, cleanup_old_states now cs !! i = Some st <->
        cs !! i = Some st /\ (ended st = false \/ older_than_300 now (created st) = false))
  /\ (forall i st, cs !! i = Some st -> ended st = false ->
        cleanup_old_states now cs !! i = Some st)
  /\ cleanup_old_states now (cleanup_old_states now cs) = cleanup_old_states now cs
  /\ fst (poll_messages now id cs)
     = match cs !! id with
       | Some st => if expired now st then None else Some (messages st, ended st)
       | None => None
       end.
Proof.
  split.
  { unfold poll_messages. destruct (cleanup_old_states now cs !! id); reflexivity. }
  split; [apply cleanup_keeps|].
  split; [intros i st Hl He; apply cleanup_keeps; auto|].
  split; [|apply poll_messages_answer].
  apply map_eq. intros i.
  destruct (cleanup_old_states now cs !! i) as [st|] eqn:E.
  - apply cleanup_lookup. split; [exact E|].
    apply cleanup_lookup in E. exact (proj2 E).
  - destruct (cleanup_old_states now (cleanup_old_states now cs) !! i) as [st|] eqn:E';
      [|reflexivity].
    apply cleanup_lookup in E'. rewrite E in E'. destruct E' as [E' _]. discriminate E'.
Qed.

(** X4. [start_call] then [poll_messages]: the new session is found, its
    history is the greeting alone and it has not ended, whatever the time
    of the poll; its slots are unset and it waits for the exchange with a
    counter of 0; the sessions that were there are untouched; and the
    first [webhook] call for the new id is never rejected: it is answered
    when its extraction returns, and ends with the exception (status 500)
    when its extraction raises. *)
Theorem start_call_then_poll (uuid now_iso : string) (now later : instant)
    (cs : gmap string state) :
  let cs' := snd (start_call uuid now_iso now cs) in
  fst (start_call uuid now_iso now cs) = (uuid, initial_message)
  /\ fst (poll_messages later uuid cs')
     = Some ([Message "bot" initial_message now_iso], false)
  /\ (exists st, cs' !! uuid = Some st
        /\ missing_slots st = [Exchange; TradingPair; Quantity; Price]
        /\ current_step st = Exchange /\ retry_count st = 0 /\ created st = now)
  /\ (forall id, id <> uuid -> cs' !! id = cs !! id)
  /\ (nonempty uuid = true ->
      forall w r, call_id r = Some uuid ->
        fst (webhook w r cs') <> InvalidSession
        /\ fst (webhook w r cs') <> SessionEnded
        /\ (extraction_raises r = false ->
              exists bot_response, fst (webhook w r cs') = Ok bot_response)
        /\ (extraction_raises r = true -> fst (webhook w r cs') = Raised)).
Proof.
  intros cs'. subst cs'. unfold start_call. cbn [fst snd].
  split; [reflexivity|]. split.
  { rewrite poll_messages_answer, lookup_insert_eq. reflexivity. }
  split; [exists (initial_state now_iso now); split;
          [apply lookup_insert_eq|repeat split]|].
  split; [intros id Hn; apply lookup_insert_ne; congruence|].
  intros Hne w r Hid.
  rewrite (webhook_live w r _ uuid (initial_state now_iso now) Hid Hne
             (lookup_insert_eq _ _ _) eq_refl).
  cbn [fst].
  assert (Hs : sound (initial_state now_iso now)) by (split; [cbn; lia|discriminate]).
  split; [apply turn_not_rejected|]. split; [apply turn_not_ended|]. split.
  - intros Hx. destruct (turn_answered_sound w r _ Hx Hs) as (resp & H & _). eauto.
  - intros Hx. rewrite (turn_raised w r _ Hx). reflexivity.
Qed.

(** What one request does to a session that stays in the store. *)
Lemma apply_op_session (o : op) (cs : gmap string state) (id : string) (st st' : state) :
  admissible o cs -> cs !! id = Some st -> apply_op o cs !! id = Some st' ->
  st' = st
  \/ (st' = set_ended true st /\ exists i, o = EndCall (Some i))
  \/ (ended st = false /\ exists w r, o = Webhook w r /\ st' = snd (turn w r st)).
Proof.
  intros Ha Hl. destruct o as [uuid iso now|w r|now pid|eid]; cbn.
  - destruct Ha as [_ Hfresh]. rewrite lookup_insert_Some.
    intros [[<- _]|[_ H]]; [congruence|]. left. congruence.
  - destruct (webhook_cases w r cs) as [[-> _]|[(i & s & _ & _ & _ & _ & ->)
      |(i & s & _ & _ & Hi & He & ->)]]; cbn [snd];
      try (intros H; left; congruence).
    rewrite lookup_insert_Some. intros [[<- <-]|[_ H]]; [|left; congruence].
    assert (s = st) as -> by congruence. right; right. eauto.
  - unfold poll_messages.
    destruct (cleanup_old_states now cs !! pid); cbn [snd];
      intros H; apply cleanup_lookup in H; destruct H as [H _]; left; congruence.
  - unfold end_call. destruct eid as [i|]; cbn [snd]; [|intros H; left; congruence].
    destruct (cs !! i) as [s|] eqn:Hi; cbn [snd]; [|intros H; left; congruence].
    rewrite lookup_insert_Some. intros [[<- <-]|[_ H]]; [|left; congruence].
    assert (s = st) as -> by congruence. right; left. eauto.
Qed.

(** X5. Whatever the request, for a session that is in the store before
    and after it: a true ended flag stays true and then nothing else of
    the session changes either (slots, history, step and counter are
    frozen); the creation time never changes; and a slot that is set
    stays set. *)
Theorem sessions_only_move_forward (o : op) (cs : gmap string state) (id : string)
    (st st' : state) :
  admissible o cs -> cs !! id = Some st -> apply_op o cs !! id = Some st' ->
  (ended st = true -> st' = st)
  /\ created st' = created st
  /\ (forall s, is_set (slot_value st s) = true -> is_set (slot_value st' s) = true).
Proof.
  intros Ha Hl Hl'.
  destruct (apply_op_session o cs id st st' Ha Hl Hl')
    as [->|[[-> _]|(He & w & r & _ & ->)]].
  - repeat split; auto.
  - split; [intros He; destruct st; cbn in He; subst; reflexivity|].
    split; [reflexivity|]. intros s; destruct s; auto.
  - split; [congruence|]. split; [apply turn_created|].
    intros s. apply turn_keeps_slots_set.
Qed.

(** The step of a live session is its first missing slot. *)
Lemma turn_on_step (w : world) (r : request) (st : state) :
  sound st -> on_step st -> on_step (snd (turn w r st)).
Proof.
  intros [Hrc _] Hon.
  destruct (extraction_raises r) eqn:Hx;
    [rewrite (turn_raised w r st Hx); exact Hon|].
  intros He.
  destruct (missing_slots (fst (resolved w r st))) as [|next rest] eqn:Hm.
  - destruct (turn_finalizes w r st Hx Hm) as (resp & _ & E). rewrite E in He.
    discriminate He.
  - destruct (turn_prompts w r st next rest Hx Hrc Hm)
      as (prompt & resp & _ & _ & _ & E).
    rewrite E. cbn [snd]. exists rest.
    rewrite missing_slots_append_message, missing_slots_prompted, Hm.
    unfold prompted. destruct (list_truthy _); reflexivity.
Qed.

Lemma reachable_on_step (cs : gmap string state) :
  reachable cs -> forall id st, cs !! id = Some st -> on_step st.
Proof.
  induction 1 as [|cs o Hr IH Ha]; intros id st.
  - rewrite lookup_empty. discriminate.
  - destruct o as [uuid iso now|w r|now pid|eid].
    + cbn. rewrite lookup_insert_Some.
      intros [[_ <-]|[_ H]]; [|exact (IH _ _ H)].
      intros _. eexists. reflexivity.
    + intros Hl'. cbn in Hl'. revert Hl'.
      destruct (webhook_cases w r cs) as [[-> _]|[(i & s & _ & _ & _ & _ & ->)
        |(i & s & _ & _ & Hi & He & ->)]]; cbn [snd]; try exact (IH id st).
      rewrite lookup_insert_Some. intros [[_ <-]|[_ H]]; [|exact (IH _ _ H)].
      apply turn_on_step; [exact (proj2 (reachable_sound cs Hr i s Hi))|].
      exact (IH i s Hi).
    + cbn. unfold poll_messages.
      destruct (cleanup_old_states now cs !! pid); cbn [snd];
        intros H; apply cleanup_lookup in H; exact (IH _ _ (proj1 H)).
    + cbn. unfold end_call. destruct eid as [i|]; [|exact (IH id st)].
      destruct (cs !! i) as [s|] eqn:Hl; cbn [snd]; [|exact (IH id st)].
      rewrite lookup_insert_Some. intros [[_ <-]|[_ H]]; [|exact (IH _ _ H)].
      intros He. discriminate He.
Qed.

(** X6. In every store the service can reach, the step recorded for a
    session that has not ended is the first of its missing slots, in the
    order exchange, trading pair, quantity, price: that slot is missing
    and every slot before it is set.  In particular such a session always
    misses a slot. *)
Theorem current_step_is_first_missing (cs : gmap string state) (id : string)
    (st : state) :
  reachable cs -> cs !! id = Some st -> ended st = false ->
  (exists rest, missing_slots st = current_step st :: rest)
  /\ is_missing st (current_step st) = true
  /\ (forall s, (slot_index s < slot_index (current_step st))%nat ->
        is_missing st s = false).
Proof.
  intros Hr Hl He.
  destruct (reachable_on_step cs Hr id st Hl He) as [rest Hm].
  split; [eauto|].
  unfold missing_slots in Hm. cbn [List.filter] in Hm.
  destruct (is_missing st Exchange) eqn:E1, (is_missing st TradingPair) eqn:E2,
    (is_missing st Quantity) eqn:E3, (is_missing st Price) eqn:E4;
    try discriminate Hm; injection Hm as Hc Hrest; rewrite <- Hc;
    (split; [assumption|]); intros s Hs; destruct s; cbn in Hs;
    first [assumption | lia].
Qed.

(** A dialogue stays one when a user entry is added, alone or followed
    by a bot entry. *)
Lemma dialogue_from_user (b : bool) (ms : list message) (u : message) :
  sender u = "user" -> dialogue_from b ms = true -> dialogue_from b (ms ++ [u]) = true.
Proof.
  intros Hu. revert b. induction ms as [|m ms IH]; intros b H.
  - cbn. rewrite Hu. reflexivity.
  - cbn [app dialogue_from] in H |- *.
    destruct (String.eqb (sender m) "user"); [exact (IH _ H)|].
    apply andb_prop in H. destruct H as [H1 H2]. rewrite H1, (IH _ H2). reflexivity.
Qed.

Lemma dialogue_from_turn (b : bool) (ms : list message) (u a : message) :
  sender u = "user" -> sender a = "bot" ->
  dialogue_from b ms = true -> dialogue_from b (ms ++ [u; a]) = true.
Proof.
  intros Hu Ha. revert b. induction ms as [|m ms IH]; intros b H.
  - cbn. rewrite Hu, Ha. reflexivity.
  - cbn [app dialogue_from] in H |- *.
    destruct (String.eqb (sender m) "user"); [exact (IH _ H)|].
    apply andb_prop in H. destruct H as [H1 H2]. rewrite H1, (IH _ H2). reflexivity.
Qed.

(** In a dialogue no entry of the bot follows the greeting or another
    entry of the bot. *)
Lemma dialogue_from_first (ms : list message) (m : message) :
  dialogue_from false (m :: ms) = true -> sender m = "user".
Proof.
  cbn. destruct (String.eqb_spec (sender m) "user") as [E|_]; [auto|].
  rewrite andb_false_r. discriminate.
Qed.

Lemma dialogue_from_tail (b : bool) (ms : list message) (m : message) :
  dialogue_from b (m :: ms) = true ->
  dialogue_from (String.eqb (sender m) "user") ms = true.
Proof.
  cbn. destruct (String.eqb (sender m) "user"); [auto|].
  intros H. apply andb_prop in H. exact (proj2 H).
Qed.

Lemma dialogue_from_adjacent (b : bool) (history more : list message) (x y : message) :
  dialogue_from b (history ++ x :: y :: more) = true ->
  sender y = "bot" -> sender x = "user".
Proof.
  revert b. induction history as [|m h IH]; intros b H Hy.
  - apply dialogue_from_tail in H.
    destruct (String.eqb_spec (sender x) "user") as [E|_]; [exact E|].
    apply dialogue_from_first in H. congruence.
  - apply dialogue_from_tail in H. exact (IH _ H Hy).
Qed.

Lemma dialogue_from_senders (b : bool) (ms : list message) (m : message) :
  dialogue_from b ms = true -> In m ms -> sender m = "user" \/ sender m = "bot".
Proof.
  revert b. induction ms as [|a ms IH]; intros b H Hin; [destruct Hin|].
  destruct Hin as [<-|Hin].
  - cbn in H. destruct (String.eqb_spec (sender a) "user") as [E|_]; [auto|].
    apply andb_prop in H. destruct H as [H _]. apply andb_prop in H.
    right. apply String.eqb_eq. exact (proj1 H).
  - apply dialogue_from_tail in H. exact (IH _ H Hin).
Qed.

(** Each entry of the bot answers an entry of the user of its own. *)
Lemma dialogue_from_count (b : bool) (ms : list message) :
  dialogue_from b ms = true ->
  (entries_of "bot" ms <= entries_of "user" ms + (if b then 1 else 0))%nat.
Proof.
  unfold entries_of. revert b. induction ms as [|m ms IH]; intros b H.
  - cbn. lia.
  - pose proof (dialogue_from_tail b ms m H) as Ht. apply IH in Ht.
    cbn [dialogue_from] in H. cbn [List.filter].
    destruct (String.eqb_spec (sender m) "user") as [E|Hn].
    + rewrite E. cbn [String.eqb Ascii.eqb Bool.eqb List.length]. cbn. cbn in Ht. lia.
    + apply andb_prop in H. destruct H as [H _]. apply andb_prop in H.
      destruct H as [Hb Hu]. rewrite Hb, Hu. cbn [List.length]. cbn in Ht. lia.
Qed.

(** [webhook] creates no session. *)
Lemma webhook_lookup_None (w : world) (r : request) (cs : gmap string state)
    (id : string) :
  cs !! id = None -> snd (webhook w r cs) !! id = None.
Proof.
  intros Hl.
  destruct (webhook_cases w r cs) as [[-> _]|[(i & s & _ & _ & _ & _ & ->)
    |(i & s & _ & _ & Hi & _ & ->)]]; cbn [snd]; try exact Hl.
  rewrite lookup_insert_ne; [exact Hl|congruence].
Qed.

Lemma transcript_shape_turn (w : world) (r : request) (st : state) :
  sound st -> transcript_shape (messages st) ->
  transcript_shape (messages (snd (turn w r st))).
Proof.
  intros Hs (g & rest & Hm & Hg & Ht & Hd).
  destruct (extraction_raises r) eqn:Hx.
  - rewrite (turn_raised_messages w r st Hx), Hm.
    eexists g, (rest ++ [_])%list.
    split; [reflexivity|]. split; [exact Hg|]. split; [exact Ht|].
    apply dialogue_from_user; [reflexivity|exact Hd].
  - destruct (turn_answered_sound w r st Hx Hs) as (resp & Hok & _).
    assert (E : turn w r st = (Ok resp, snd (turn w r st)))
      by (rewrite <- Hok; destruct (turn w r st); reflexivity).
    rewrite (turn_messages w r st _ resp E), Hm.
    exists g, (rest ++ turn_entries w r resp)%list.
    split; [reflexivity|]. split; [exact Hg|]. split; [exact Ht|].
    apply dialogue_from_turn; [reflexivity|reflexivity|exact Hd].
Qed.

Lemma reachable_transcript_shape (cs : gmap string state) :
  reachable cs -> forall id st, cs !! id = Some st -> transcript_shape (messages st).
Proof.
  induction 1 as [|cs o Hr IH Ha]; intros id st Hl'.
  - rewrite lookup_empty in Hl'. discriminate.
  - destruct (cs !! id) as [st0|] eqn:Hl.
    + destruct (apply_op_session o cs id st0 st Ha Hl Hl')
        as [->|[[-> _]|(He & w & r & _ & ->)]]; try exact (IH _ _ Hl).
      apply transcript_shape_turn; [|exact (IH _ _ Hl)].
      exact (proj2 (reachable_sound cs Hr id st0 Hl)).
    + destruct o as [uuid iso now|w r|now pid|eid]; cbn in Hl'.
      * rewrite lookup_insert_Some in Hl'. destruct Hl' as [[_ <-]|[_ H]]; [|congruence].
        eexists _, []. repeat split.
      * rewrite (webhook_lookup_None w r cs id Hl) in Hl'. discriminate.
      * unfold poll_messages in Hl'.
        destruct (cleanup_old_states now cs !! pid); cbn [snd] in Hl';
          apply cleanup_lookup in Hl'; destruct Hl' as [Hl' _]; congruence.
      * unfold end_call in Hl'. destruct eid as [i|]; [|cbn in Hl'; congruence].
        destruct (cs !! i) as [s|] eqn:Hi; cbn [snd] in Hl'; [|congruence].
        rewrite lookup_insert_Some in Hl'. destruct Hl' as [[<- _]|[_ H]]; congruence.
Qed.

(** X7. In every store the service can reach, the history of a session
    opens with the greeting of the bot and goes on with entries of the
    user and of the bot in which every entry of the bot comes right after
    an entry of the user: the history is never empty, no entry of the bot
    follows the greeting or another entry of the bot, and the bot has at
    most one entry more than the user.  (Entries of the user may follow
    one another: a turn whose extraction raises leaves its user entry
    without an answer.) *)
Theorem history_is_a_dialogue (cs : gmap string state) (id : string) (st : state) :
  reachable cs -> cs !! id = Some st ->
  transcript_shape (messages st)
  /\ messages st <> []
  /\ (forall m, In m (messages st) -> sender m = "user" \/ sender m = "bot")
  /\ (forall history more x y,
        messages st = (history ++ x :: y :: more)%list ->
        sender y = "bot" -> sender x = "user")
  /\ (entries_of "bot" (messages st) <= entries_of "user" (messages st) + 1)%nat.
Proof.
  intros Hr Hl.
  pose proof (reachable_transcript_shape cs Hr id st Hl) as Hshape.
  split; [exact Hshape|].
  destruct Hshape as (g & rest & -> & Hg & _ & Hd).
  assert (Hfull : dialogue_from true (g :: rest) = true).
  { cbn [dialogue_from]. rewrite Hg. exact Hd. }
  split; [discriminate|]. split; [|split].
  - intros m. apply (dialogue_from_senders true). exact Hfull.
  - intros history more x y E Hy. rewrite E in Hfull.
    exact (dialogue_from_adjacent true history more x y Hfull Hy).
  - exact (dialogue_from_count true (g :: rest) Hfull).
Qed.

End StoreRequests.

(** ** Turns *)

Section FurtherTurns.
Context `{P : Platform}.
Import Text.

Ltac split_candidate_fields c :=
  destruct c as [[[|? ?]|] [[|? ?]|] [?|] [?|]].

Lemma update_slots_fragments (b : bool) (c : candidates) (st : state) :
  snd (update_slots b c (st, []))
  = List.map (fragment c)
      (List.filter (written b st c) [Exchange; TradingPair; Quantity; Price]).
Proof.
  destruct st as [[e|] [tp|] [q|] [p|] ms en cr step rc];
    destruct b; split_candidate_fields c; reflexivity.
Qed.

Lemma update_slots_written (b : bool) (c : candidates) (st : state) (s : slot) :
  slot_value (fst (update_slots b c (st, []))) s
  = if written b st c s then candidate c s else slot_value st s.
Proof.
  destruct st as [[e|] [tp|] [q|] [p|] ms en cr step rc];
    destruct b; split_candidate_fields c; destruct s; reflexivity.
Qed.

(** X8. When the extraction of a turn returns, the list [updated_slots]
    holds one fragment for each slot the turn writes, in the order
    exchange, trading pair, quantity, price, and nothing else; a slot that
    is written takes its candidate and every other slot keeps its value.
    A slot is written, in a correction, when a non-empty candidate was
    extracted for it and, otherwise, when moreover it was unset.  When
    the extraction raises, the handler is left before the update and
    every slot keeps its value. *)
Theorem updated_slots_are_the_written_slots (w : world) (r : request) (st : state) :
  let c := extract st (utterance r) in
  let b := is_correction_of (lower (utterance r)) in
  (extraction_raises r = false ->
     snd (resolved w r st)
     = List.map (fragment c)
         (List.filter (written b st c) [Exchange; TradingPair; Quantity; Price])
     /\ (forall s, slot_value (snd (turn w r st)) s
                   = if written b st c s then candidate c s else slot_value st s)
     /\ (List.length (snd (resolved w r st)) <= 4)%nat)
  /\ (extraction_raises r = true ->
      forall s, slot_value (snd (turn w r st)) s = slot_value st s).
Proof.
  intros c b. split; [|intros Hx s; exact (turn_raised_slots w r st s Hx)].
  intros Hx.
  assert (E : snd (resolved w r st)
              = List.map (fragment c)
                  (List.filter (written b st c) [Exchange; TradingPair; Quantity; Price])).
  { unfold resolved. rewrite update_slots_fragments, (extract_heard w r st).
    reflexivity. }
  split; [exact E|]. split.
  - intros s. rewrite (turn_slots w r st s Hx). unfold resolved.
    rewrite update_slots_written, (extract_heard w r st). reflexivity.
  - rewrite E, length_map.
    etransitivity; [apply filter_length_le|]. reflexivity.
Qed.

(** A turn that writes no slot, on a session asked for [current_step]. *)
Lemma quiet_turn (w : world) (r : request) (st : state) (rest : list slot) :
  extraction_raises r = false ->
  sound st -> missing_slots st = current_step st :: rest ->
  snd (resolved w r st) = [] ->
  exists prompt,
    nth_error (prompts st (current_step st))
      (Z.to_nat (Z.min (retry_count st + 1) 2)) = Some prompt
    /\ turn w r st
       = (Ok prompt,
          append_message (Message "bot" prompt (now_bot w))
            (set_retry_count (retry_count st + 1) (heard w r st))).
Proof.
  intros Hx [Hrc _] Hm Hq.
  assert (Hfst : fst (resolved w r st) = heard w r st).
  { unfold resolved in *. apply update_slots_quiet. exact Hq. }
  assert (Hm' : missing_slots (fst (resolved w r st)) = current_step st :: rest).
  { rewrite Hfst. exact Hm. }
  destruct (turn_prompts w r st _ _ Hx Hrc Hm')
    as (prompt & resp & Hnth & _ & Hcase & E).
  rewrite Hq, Hfst in Hnth, E. rewrite Hq in Hcase.
  destruct Hcase as [(_ & _ & ->)|(Hne & _)]; [|congruence].
  exists prompt. split; [exact Hnth|].
  rewrite E. unfold prompted. cbn [list_truthy].
  destruct st; reflexivity.
Qed.

(** X9. A turn of a live session whose extraction returns and that
    writes no slot changes nothing but the history and the counter: the
    slots, the step and the flag are as before, the counter grows by one,
    and the response is the prompt of the unchanged step at index
    [min(retry_count + 1, 2)], that is the second prompt after a first
    such turn and the third one from then on.  The generic first prompt
    is not repeated. *)
Theorem turn_without_update_escalates (cs : gmap string state) (w : world)
    (r : request) (id : string) (st : state) :
  reachable cs -> call_id r = Some id -> cs !! id = Some st -> ended st = false ->
  extraction_raises r = false ->
  (forall s, written (is_correction_of (lower (utterance r))) st
               (extract st (utterance r)) s = false) ->
  exists prompt st',
    fst (webhook w r cs) = Ok prompt
    /\ snd (webhook w r cs) !! id = Some st'
    /\ nth_error (prompts st (current_step st))
         (Z.to_nat (Z.min (retry_count st + 1) 2)) = Some prompt
    /\ (forall s, slot_value st' s = slot_value st s)
    /\ current_step st' = current_step st /\ ended st' = false
    /\ retry_count st' = retry_count st + 1.
Proof.
  intros Hr Hid Hl He Hx Hw.
  destruct (reachable_sound cs Hr id st Hl) as [Hne Hs].
  destruct (reachable_on_step cs Hr id st Hl He) as [rest Hm].
  assert (Hq : snd (resolved w r st) = []).
  { unfold resolved. rewrite update_slots_fragments, (extract_heard w r st).
    replace (List.filter _ _) with (@nil slot); [reflexivity|].
    symmetry. cbn [List.filter].
    change (written _ (heard w r st)) with
      (written (is_correction_of (lower (utterance r))) st).
    rewrite !Hw. reflexivity. }
  destruct (quiet_turn w r st rest Hx Hs Hm Hq) as (prompt & Hnth & E).
  exists prompt. eexists.
  rewrite (webhook_live w r cs id st Hid Hne Hl He), E. cbn [fst snd].
  split; [reflexivity|]. split; [apply lookup_insert_eq|].
  split; [exact Hnth|].
  split; [intros s; destruct s; reflexivity|].
  repeat split. exact He.
Qed.

Lemma strip_all_space (t : string) : all_chars is_space t = true -> strip t = "".
Proof.
  intros H. unfold strip.
  assert (E : lstrip t = "").
  { induction t as [|c t IH]; [reflexivity|].
    cbn [all_chars] in H. apply andb_prop in H. destruct H as [Hc Ht].
    cbn [lstrip]. rewrite Hc. exact (IH Ht). }
  rewrite E. reflexivity.
Qed.

(** X10. An empty transcript, or one of white space only, reaches the
    extractors as the empty text and, unless the word parser makes a
    number of the empty text, yields no candidate at all: on a live
    session the turn is recorded with an empty user entry, writes no slot
    and counts as a retry. *)
Theorem blank_utterance_is_a_retry (cs : gmap string state) (w : world)
    (r : request) (id : string) (st : state) :
  word_to_num "" = ValueError ->
  all_chars is_space (transcript r) = true ->
  reachable cs -> call_id r = Some id -> cs !! id = Some st -> ended st = false ->
  extract st (utterance r) = Candidates None None None None
  /\ exists st' prompt,
       snd (webhook w r cs) !! id = Some st'
       /\ fst (webhook w r cs) = Ok prompt
       /\ messages st'
          = (messages st
             ++ [Message "user" "" (default (now_user w) (timestamp_field r));
                 Message "bot" prompt (now_bot w)])%list
       /\ (forall s, slot_value st' s = slot_value st s)
       /\ retry_count st' = retry_count st + 1.
Proof.
  intros Hw Hblank Hr Hid Hl He.
  assert (Hu : utterance r = "") by (apply strip_all_space; exact Hblank).
  assert (Hx : extract st (utterance r) = Candidates None None None None).
  { rewrite Hu. exact (extract_no_number st "" eq_refl eq_refl Hw). }
  assert (Hret : extraction_raises r = false).
  { unfold extraction_raises. rewrite Hu.
    exact (numbers_raise_no_number "" eq_refl Hw). }
  split; [exact Hx|].
  destruct (reachable_sound cs Hr id st Hl) as [Hne Hs].
  destruct (reachable_on_step cs Hr id st Hl He) as [rest Hm].
  assert (Hq : snd (resolved w r st) = []).
  { unfold resolved. rewrite (extract_heard w r st), Hx.
    destruct (is_correction_of _); destruct st as [[?|] [?|] [?|] [?|] ? ? ? ? ?];
      reflexivity. }
  destruct (quiet_turn w r st rest Hret Hs Hm Hq) as (prompt & Hnth & E).
  eexists. exists prompt.
  rewrite (webhook_live w r cs id st Hid Hne Hl He), E. cbn [fst snd].
  split; [apply lookup_insert_eq|]. split; [reflexivity|].
  split; [unfold heard; rewrite Hu; cbn; rewrite <- app_assoc; reflexivity|].
  split; [intros s; destruct s; reflexivity|reflexivity].
Qed.

End FurtherTurns.

(** ** The price lookup, in general *)

Section FurtherLookup.
Context `{P : Platform}.
Import Text.

Lemma backoff_succ (delay : Z) (n : nat) :
  backoff delay (S n) = delay :: backoff (delay * 2) n.
Proof.
  unfold backoff. cbn [seq List.map]. f_equal; [cbn; lia|].
  rewrite <- seq_shift, map_map. apply map_ext. intros j.
  rewrite Nat2Z.inj_succ, Z.pow_succ_r by lia. lia.
Qed.

(** The loop from attempt [a] on, when attempt [i] is the first to
    succeed and the delay is not negative. *)
Lemma attempt_loop_success (tk : ticker_feed) (e sym : string) (retries : nat)
    (p : num) (i : nat) :
  tk e sym i = Some p ->
  forall n a delay naps,
    0 <= delay ->
    (a + n = retries)%nat -> (a <= i < retries)%nat ->
    (forall j, (a <= j < i)%nat -> tk e sym j = None) ->
    attempt_loop tk e sym retries (seq a n) delay naps
    = Lookup (Returned (Some p, None)) (naps ++ backoff delay (i - a))%list.
Proof.
  intros Hp. induction n as [|n IH]; intros a delay naps Hd Han Hai Hnone; [lia|].
  cbn [seq attempt_loop].
  destruct (Nat.eq_dec a i) as [->|Hne].
  - rewrite Hp, Nat.sub_diag. cbn. rewrite app_nil_r. reflexivity.
  - rewrite (Hnone a) by lia.
    destruct (a <? retries - 1)%nat eqn:E; [|apply Nat.ltb_ge in E; lia].
    rewrite (proj2 (Z.ltb_ge delay 0) Hd).
    rewrite (IH (S a) (delay * 2) (naps ++ [delay])%list) by
      (try lia; intros j Hj; apply Hnone; lia).
    replace (i - a)%nat with (S (i - S a)) by lia.
    rewrite backoff_succ, <- app_assoc. reflexivity.
Qed.


Lemma get_current_price_success (tk : ticker_feed) (e tp : string)
    (retries : nat) (delay : Z) (i : nat) (p : num) :
  0 <= delay ->
  (i < retries)%nat ->
  (forall j, (j < i)%nat -> tk e (normalize_symbol e tp) j = None) ->
  tk e (normalize_symbol e tp) i = Some p ->
  get_current_price tk e tp retries delay
  = Lookup (Returned (Some p, None)) (backoff delay i).
Proof.
  intros Hd Hi Hnone Hp. unfold get_current_price.
  rewrite (attempt_loop_success tk e _ retries p i Hp retries 0%nat delay [])
    by (try lia; intros j Hj; apply Hnone; lia).
  rewrite Nat.sub_0_r. reflexivity.
Qed.


(** X12. When an attempt of the price lookup succeeds with a price that
    is not zero, the turn that leaves the four slots set is answered with
    the confirmation carrying that market price and the session ends.  A
    price of zero, although fetched, is reported as a failure with the
    error text "None". *)
Theorem confirmation_carries_market_price (cs : gmap string state) (w : world)
    (r : request) (id : string) (st st' : state) (i : nat) (current_price : num) :
  reachable cs -> call_id r = Some id -> cs !! id = Some st -> ended st = false ->
  snd (webhook w r cs) !! id = Some st' -> missing_slots st' = [] ->
  (i < 3)%nat ->
  (forall e sym j, (j < i)%nat -> ticker w e sym j = None) ->
  (forall e sym, ticker w e sym i = Some current_price) ->
  exists e tp q p,
    exchange st' = Some e /\ trading_pair st' = Some tp
    /\ quantity st' = Some q /\ price st' = Some p
    /\ fst (webhook w r cs) = Ok (confirmation e tp q p (price_notice current_price))
    /\ ended st' = true /\ retry_count st' = 0.
Proof.
  intros Hr Hid Hl He Hl' Hm Hi Hnone Hp.
  destruct (reachable_sound cs Hr id st Hl) as [Hne Hs].
  rewrite (webhook_live w r cs id st Hid Hne Hl He) in Hl' |- *.
  cbn [fst snd] in Hl' |- *. rewrite lookup_insert_eq in Hl'.
  injection Hl' as <-.
  pose proof (turn_all_set_returns w r st Hs He Hm) as Hx.
  rewrite (turn_missing_slots w r st Hx) in Hm.
  destruct (proj1 (missing_slots_nil _) Hm) as (e & tp & q & p & E1 & E2 & E3 & E4).
  assert (Hc : confirm_order w (fst (resolved w r st))
               = (Some (confirmation e tp q p (price_notice current_price)),
                  set_retry_count 0 (set_ended true (fst (resolved w r st))))).
  { unfold confirm_order. rewrite E1, E2, E3, E4.
    rewrite (get_current_price_success (ticker w) e tp 3 1 i current_price Z.le_0_1 Hi
               (fun j Hj => Hnone _ _ j Hj) (Hp _ _)).
    cbn [returned]. unfold price_notice, confirmation.
    destruct (truthy current_price); reflexivity. }
  assert (Ht : turn w r st
               = (Ok (confirmation e tp q p (price_notice current_price)),
                  append_message
                    (Message "bot" (confirmation e tp q p (price_notice current_price))
                       (now_bot w))
                    (set_retry_count 0 (set_ended true (fst (resolved w r st)))))).
  { rewrite (turn_answered w r st Hx). unfold answered. rewrite Hm, Hc. reflexivity. }
  rewrite Ht. cbn [fst snd].
  exists e, tp, q, p. repeat (split; [assumption|]). repeat split.
Qed.

End FurtherLookup.

(** ** The exchange extractor *)

Section FurtherExchange.
Import Text.

Lemma lower_upper_char (c : ascii) : lower_char (upper_char c) = lower_char c.
Proof. destruct c as [[] [] [] [] [] [] [] []]; reflexivity. Qed.

Lemma lower_lower_char (c : ascii) : lower_char (lower_char c) = lower_char c.
Proof. destruct c as [[] [] [] [] [] [] [] []]; reflexivity. Qed.

Lemma upper_lower_char (c : ascii) : upper_char (lower_char c) = upper_char c.
Proof. destruct c as [[] [] [] [] [] [] [] []]; reflexivity. Qed.

Lemma upper_upper_char (c : ascii) : upper_char (upper_char c) = upper_char c.
Proof. destruct c as [[] [] [] [] [] [] [] []]; reflexivity. Qed.

Lemma map_chars_compose (f g h : ascii -> ascii) (s : string) :
  (forall c, f (g c) = h c) -> map_chars f (map_chars g s) = map_chars h s.
Proof.
  intros H. induction s as [|c s IH]; [reflexivity|].
  cbn [map_chars]. rewrite H, IH. reflexivity.
Qed.

Lemma lower_upper (s : string) : lower (upper s) = lower s.
Proof. apply map_chars_compose, lower_upper_char. Qed.

Lemma lower_lower (s : string) : lower (lower s) = lower s.
Proof. apply map_chars_compose, lower_lower_char. Qed.

Lemma upper_lower (s : string) : upper (lower s) = upper s.
Proof. apply map_chars_compose, upper_lower_char. Qed.

Lemma upper_upper (s : string) : upper (upper s) = upper s.
Proof. apply map_chars_compose, upper_upper_char. Qed.

(** [List.find] returns the first element that passes the test. *)
Lemma find_first {A : Type} (f : A -> bool) (l : list A) (x : A) :
  List.find f l = Some x <->
  exists before after,
    l = (before ++ x :: after)%list /\ f x = true
    /\ Forall (fun y => f y = false) before.
Proof.
  induction l as [|a l IH]; cbn [List.find].
  - split; [discriminate|]. intros (b & af & H & _). destruct b; discriminate H.
  - destruct (f a) eqn:E.
    + split.
      * intros [= <-]. exists [], l. auto.
      * intros (b & af & H & Hx & Hb). destruct b as [|y b].
        -- injection H as -> _. reflexivity.
        -- injection H as -> _. inversion Hb; congruence.
    + rewrite IH. split.
      * intros (b & af & -> & Hx & Hb). exists (a :: b), af. auto.
      * intros (b & af & H & Hx & Hb). destruct b as [|y b].
        -- injection H as -> _. congruence.
        -- injection H as -> ->. inversion Hb; subst. eauto.
Qed.

(** X13. On a transcript of ASCII characters, [extract_exchange] returns
    the id of the first entry of its table, in the order okx, bybit,
    deribit, binance, of which some spoken variant occurs in the
    lower-cased transcript, and nothing when no variant of any entry
    occurs.  So the result is always one of the four ids, an exchange
    listed earlier wins over one listed later when both are mentioned,
    and the case of the transcript does not matter. *)
Theorem extract_exchange_first_mentioned (transcript : string) :
  ascii_text transcript = true ->
  (forall e,
     extract_exchange transcript = Some e <->
     exists before variants after,
       exchanges = (before ++ (e, variants) :: after)%list
       /\ mentions transcript (e, variants) = true
       /\ Forall (fun entry => mentions transcript entry = false) before)
  /\ (extract_exchange transcript = None <->
      Forall (fun entry => mentions transcript entry = false) exchanges)
  /\ (forall e, extract_exchange transcript = Some e -> In e exchange_ids)
  /\ extract_exchange (upper transcript) = extract_exchange transcript
  /\ extract_exchange (lower transcript) = extract_exchange transcript.
Proof.
  intros _.
  assert (Hdef : extract_exchange transcript
                 = option_map fst (List.find (mentions transcript) exchanges)).
  { unfold extract_exchange, mentions.
    destruct (List.find _ exchanges); reflexivity. }
  assert (Hsome : forall e,
            extract_exchange transcript = Some e <->
            exists before variants after,
              exchanges = (before ++ (e, variants) :: after)%list
              /\ mentions transcript (e, variants) = true
              /\ Forall (fun entry => mentions transcript entry = false) before).
  { intros e. rewrite Hdef. split.
    - destruct (List.find _ exchanges) as [[e' vs]|] eqn:E; [|discriminate].
      intros [= <-]. apply find_first in E. destruct E as (b & af & H1 & H2 & H3).
      exists b, vs, af. auto.
    - intros (b & vs & af & H1 & H2 & H3).
      assert (E : List.find (mentions transcript) exchanges = Some (e, vs))
        by (apply find_first; eauto).
      rewrite E. reflexivity. }
  split; [exact Hsome|]. split.
  { rewrite Hdef. split.
    - destruct (List.find _ exchanges) eqn:E; [discriminate|]. intros _.
      apply List.Forall_forall. intros entry Hin. exact (find_none _ _ E entry Hin).
    - intros H. destruct (List.find _ exchanges) as [entry|] eqn:E; [|reflexivity].
      apply find_some in E. destruct E as [Hin Hm].
      rewrite List.Forall_forall in H. rewrite (H entry Hin) in Hm. discriminate Hm. }
  split.
  { intros e He. apply Hsome in He. destruct He as (b & vs & af & H & _).
    unfold exchange_ids. rewrite H, map_app. apply in_or_app. right. left. reflexivity. }
  unfold extract_exchange. rewrite lower_upper, lower_lower. split; reflexivity.
Qed.

End FurtherExchange.

(** ** The trading-pair extractor *)

Section FurtherPair.
Import Text.

Lemma length_append (a b : string) :
  String.length (a ++ b) = (String.length a + String.length b)%nat.
Proof.
  induction a as [|c a IH]; [reflexivity|].
  change (String c a ++ b) with (String c (a ++ b)). cbn [String.length].
  rewrite IH. reflexivity.
Qed.

Lemma take_chars_append (a b : string) : take_chars (String.length a) (a ++ b) = a.
Proof.
  induction a as [|c a IH]; [destruct b; reflexivity|].
  change (String c a ++ b) with (String c (a ++ b)). cbn [String.length take_chars].
  rewrite IH. reflexivity.
Qed.

Lemma take_consumed (a b : string) :
  take_chars (String.length (a ++ b) - String.length b) (a ++ b) = a.
Proof.
  rewrite length_append.
  replace (String.length a + String.length b - String.length b)%nat
    with (String.length a) by lia.
  apply take_chars_append.
Qed.

Section Inversion.
Context {R : Type}.

(** What a successful greedy repetition has read. *)
Lemma repeat_class_inv (p : ascii -> bool) (k : Re.cursor -> option R)
    (gs : list (nat * string)) (res : R) :
  forall s lo hi prev,
    Re.repeat_class p lo hi k prev gs s = Some res ->
    exists txt s' prev',
      s = txt ++ s' /\ all_chars p txt = true
      /\ (lo <= String.length txt)%nat
      /\ (forall h, hi = Some h -> (String.length txt <= h)%nat)
      /\ k (Re.Cursor prev' s' gs) = Some res.
Proof.
  induction s as [|c s IH]; intros lo hi prev H.
  - cbn [Re.repeat_class] in H. destruct lo; [|discriminate H].
    exists "", "", prev. repeat split; auto. intros h _. cbn. lia.
  - assert (Hstop : match lo with
                    | O => k (Re.Cursor prev (String c s) gs)
                    | S _ => None
                    end = Some res ->
                    exists txt s' prev',
                      String c s = txt ++ s' /\ all_chars p txt = true
                      /\ (lo <= String.length txt)%nat
                      /\ (forall h, hi = Some h -> (String.length txt <= h)%nat)
                      /\ k (Re.Cursor prev' s' gs) = Some res).
    { destruct lo; [|discriminate]. intros Hk.
      exists "", (String c s), prev. repeat split; auto. intros h _. cbn. lia. }
    cbn [Re.repeat_class] in H.
    destruct (p c && Re.may_take hi) eqn:E; [|exact (Hstop H)].
    destruct (Re.repeat_class p (Nat.pred lo) (Re.one_less hi) k (Some c) gs s)
      as [res'|] eqn:Er; [|exact (Hstop H)].
    injection H as ->.
    destruct (IH _ _ _ Er) as (txt & s' & prev' & -> & Hall & Hlo & Hhi & Hk).
    apply andb_prop in E. destruct E as [Hc Hmay].
    exists (String c txt), s', prev'.
    split; [reflexivity|]. split; [cbn [all_chars]; rewrite Hc, Hall; reflexivity|].
    split; [cbn [String.length]; lia|]. split; [|exact Hk].
    intros h ->. cbn [String.length].
    destruct h as [|h]; [discriminate Hmay|].
    specialize (Hhi h eq_refl). lia.
Qed.

(** A pattern without capture groups leaves the groups as they are. *)
Lemma run_group_free (r : Re.regex) :
  group_free r = true ->
  forall (k : Re.cursor -> option R) c res,
    Re.run r k c = Some res ->
    exists c', Re.groups c' = Re.groups c /\ k c' = Some res.
Proof.
  induction r as [p|lit| |p lo hi|r1 IH1|r1 IH1 r2 IH2|n r1 IH1];
    cbn [group_free]; intros Hg k c res H; cbn [Re.run] in H.
  - destruct (Re.rest c) as [|a s']; [discriminate H|].
    destruct (p a); [|discriminate H].
    eexists. split; [|exact H]. reflexivity.
  - destruct (Re.eat lit (Re.before c) (Re.rest c)) as [[prev' s']|];
      [|discriminate H].
    eexists. split; [|exact H]. reflexivity.
  - destruct (Re.at_boundary c); [|discriminate H]. eauto.
  - destruct (repeat_class_inv _ _ _ _ _ _ _ _ H) as (txt & s' & prev' & _ & _ & _ & _ & Hk).
    eexists. split; [|exact Hk]. reflexivity.
  - destruct (Re.run r1 k c) as [res'|] eqn:E.
    + injection H as ->. exact (IH1 Hg k c res E).
    + eauto.
  - apply andb_prop in Hg. destruct Hg as [Hg1 Hg2].
    destruct (IH1 Hg1 _ _ _ H) as (c1 & Hc1 & H1).
    destruct (IH2 Hg2 _ _ _ H1) as (c2 & Hc2 & H2).
    exists c2. split; [congruence|exact H2].
  - discriminate Hg.
Qed.

(** A successful capture of a token adds its text to the groups. *)
Lemma run_token_group (n : nat) (k : Re.cursor -> option R) (c : Re.cursor) (res : R) :
  Re.run (Re.Grp n token) k c = Some res ->
  exists txt c',
    token_text txt /\ Re.groups c' = (n, txt) :: Re.groups c /\ k c' = Some res.
Proof.
  unfold token. cbn [Re.run]. intros H.
  destruct (repeat_class_inv _ _ _ _ _ _ _ _ H)
    as (txt & s' & prev' & Hs & Hall & Hlo & Hhi & Hk).
  cbn [Re.rest Re.before Re.groups] in Hk. rewrite Hs, take_consumed in Hk.
  exists txt. eexists. split; [|split; [|exact Hk]]; [|reflexivity].
  split; [|exact Hall]. split; [exact Hlo|exact (Hhi 6%nat eq_refl)].
Qed.

End Inversion.

Lemma search_from_match (r : Re.regex) (f : Re.found) :
  forall s prev, Re.search_from r prev s = Some f ->
                 exists prev' s', Re.match_here r prev' s' = Some f.
Proof.
  induction s as [|c s IH]; intros prev H; cbn [Re.search_from] in H.
  - destruct (Re.match_here r prev "") eqn:E; [|discriminate H].
    injection H as ->. eauto.
  - destruct (Re.match_here r prev (String c s)) eqn:E.
    + injection H as ->. eauto.
    + exact (IH _ H).
Qed.

Lemma run_seq {R : Type} (r1 r2 : Re.regex) (k : Re.cursor -> option R) (c : Re.cursor) :
  Re.run (Re.Seq r1 r2) k c = Re.run r1 (Re.run r2 k) c.
Proof. reflexivity. Qed.

Lemma run_boundary {R : Type} (k : Re.cursor -> option R) (c : Re.cursor) (res : R) :
  Re.run Re.WordB k c = Some res -> k c = Some res.
Proof. cbn [Re.run]. destruct (Re.at_boundary c); [auto|discriminate]. Qed.

(** The groups of a match of the first pattern. *)
Lemma standard_pattern_groups (s : string) (m : Re.found) :
  Re.search (nth 0 patterns (Re.Lit "")) s = Some m ->
  token_text (Re.group 1 (Re.captures m)) /\ token_text (Re.group 2 (Re.captures m)).
Proof.
  intros H. apply search_from_match in H. destruct H as (prev & s' & H).
  unfold Re.match_here in H. cbn [nth patterns cat] in H.
  rewrite run_seq in H. apply run_boundary in H.
  rewrite run_seq in H. apply run_token_group in H.
  destruct H as (t1 & c1 & Ht1 & Hg1 & H).
  rewrite run_seq in H. apply (run_group_free (Re.star is_space) eq_refl) in H.
  destruct H as (c2 & Hg2 & H).
  rewrite run_seq in H. apply (run_group_free (Re.Chr is_separator) eq_refl) in H.
  destruct H as (c3 & Hg3 & H).
  rewrite run_seq in H. apply (run_group_free (Re.star is_space) eq_refl) in H.
  destruct H as (c4 & Hg4 & H).
  rewrite run_seq in H. apply run_token_group in H.
  destruct H as (t2 & c5 & Ht2 & Hg5 & H).
  apply run_boundary in H. injection H as <-. cbn [Re.captures].
  rewrite Hg5, Hg4, Hg3, Hg2, Hg1. cbn [Re.groups].
  split; assumption.
Qed.

Lemma token_text_no_slash (s : string) :
  all_chars is_token_char s = true -> all_chars not_slash s = true.
Proof.
  induction s as [|c s IH]; [reflexivity|]. cbn [all_chars]. intros H.
  apply andb_prop in H. destruct H as [Hc Hs]. rewrite (IH Hs), andb_true_r.
  revert Hc. destruct c as [[] [] [] [] [] [] [] []]; vm_compute; congruence.
Qed.

(** X14. On a transcript of ASCII characters, [extract_trading_pair]
    returns nothing or a text [BASE/QUOTE] in which [BASE] and [QUOTE]
    are each 2 to 6 characters out of the capital letters and digits: the
    result has one slash, no lower-case letter and between 5 and 13
    characters.  The case of the transcript does not matter. *)
Theorem extract_trading_pair_shape (transcript : string) :
  ascii_text transcript = true ->
  (forall pair,
     extract_trading_pair transcript = Some pair ->
     exists base quote,
       pair = base ++ "/" ++ quote /\ token_text base /\ token_text quote
       /\ (5 <= String.length pair <= 13)%nat)
  /\ extract_trading_pair (lower transcript) = extract_trading_pair transcript
  /\ extract_trading_pair (upper transcript) = extract_trading_pair transcript.
Proof.
  intros _. split.
  - intros pair H.
    rewrite extract_trading_pair_prepared, first_pattern_standard_only in H
      by apply no_lower_prepared.
    cbn [firstn patterns first_pattern] in H.
    destruct (Re.search _ (prepared transcript)) as [m|] eqn:E; [|discriminate H].
    injection H as <-.
    destruct (standard_pattern_groups _ m E) as [[H1 H1'] [H2 H2']].
    exists (Re.group 1 (Re.captures m)), (Re.group 2 (Re.captures m)).
    split; [reflexivity|]. split; [split; assumption|]. split; [split; assumption|].
    rewrite !length_append. cbn [String.length]. lia.
  - unfold extract_trading_pair. rewrite upper_lower, upper_upper. split; reflexivity.
Qed.

End FurtherPair.

(** ** Numbers and symbols *)

Section FurtherNumbers.
Context `{P : Platform}.
Import Text.

(** Removing every character of a class with [re.sub]. *)
Lemma sub_class_filter (p : ascii -> bool) (s : string) :
  forall prev, Re.sub_from (Re.Chr p) "" prev 0 s
               = filter_chars (fun c => negb (p c)) s.
Proof.
  induction s as [|c s IH]; intros prev; [reflexivity|].
  cbn [Re.sub_from filter_chars]. unfold Re.match_here. cbn [Re.run Re.rest].
  destruct (p c); cbn [negb].
  - cbn [Re.matched Re.rest String.length].
    replace (S (String.length s) - String.length s)%nat with 1%nat by lia.
    cbn [take_chars String.length].
    change ("" ++ Re.sub_from (Re.Chr p) "" (Some c) 0 s)
      with (Re.sub_from (Re.Chr p) "" (Some c) 0 s).
    apply IH.
  - rewrite IH. reflexivity.
Qed.

Lemma clean_str_filter (t : string) : clean_str t = filter_chars not_currency_mark t.
Proof. apply sub_class_filter. Qed.

Lemma has_digit_filter (p : ascii -> bool) (s : string) :
  (forall c, is_digit c = true -> p c = true) ->
  has_digit (filter_chars p s) = has_digit s.
Proof.
  intros Hp. induction s as [|c s IH]; [reflexivity|].
  cbn [filter_chars has_digit]. destruct (p c) eqn:E.
  - cbn [has_digit]. rewrite IH. reflexivity.
  - rewrite IH. destruct (is_digit c) eqn:D; [|reflexivity].
    rewrite (Hp c D) in E. discriminate E.
Qed.

Lemma digit_not_currency_mark (c : ascii) :
  is_digit c = true -> not_currency_mark c = true.
Proof. destruct c as [[] [] [] [] [] [] [] []]; vm_compute; congruence. Qed.

Lemma is_digit_lower_char (c : ascii) : is_digit (lower_char c) = is_digit c.
Proof. destruct c as [[] [] [] [] [] [] [] []]; reflexivity. Qed.

Lemma has_digit_lower (s : string) : has_digit (lower s) = has_digit s.
Proof.
  induction s as [|c s IH]; [reflexivity|].
  cbn [lower map_chars has_digit]. fold (lower s).
  rewrite is_digit_lower_char, IH. reflexivity.
Qed.

(** Once the class matches here, a repetition with no minimum left
    succeeds whenever its continuation always does. *)
Lemma repeat_class_succeeds {R : Type} (p : ascii -> bool)
    (k : Re.cursor -> option R) :
  (forall c, k c <> None) ->
  forall s hi prev gs, Re.repeat_class p 0 hi k prev gs s <> None.
Proof.
  intros Hk. induction s as [|c s IH]; intros hi prev gs; cbn [Re.repeat_class].
  - apply Hk.
  - destruct (p c && Re.may_take hi); [|apply Hk].
    destruct (Re.repeat_class p (Nat.pred 0) (Re.one_less hi) k (Some c) gs s) eqn:E;
      [discriminate|apply Hk].
Qed.

(** The number pattern matches at a position exactly when a digit
    stands there. *)
Lemma number_here (prev : option ascii) (s : string) :
  Re.match_here number_pattern prev s = None
  <-> match s with String c _ => is_digit c = false | EmptyString => True end.
Proof.
  unfold Re.match_here, number_pattern, Re.plus. cbn [Re.run Re.rest Re.before Re.groups].
  destruct s as [|c s]; cbn [Re.repeat_class]; [tauto|].
  destruct (is_digit c) eqn:D; cbn [andb Re.may_take]; [|tauto].
  split; [|discriminate]. intros H. exfalso.
  destruct (Re.repeat_class is_digit (Nat.pred 1) (Re.one_less None) _ (Some c) [] s)
    eqn:E; [discriminate H|].
  revert E. apply repeat_class_succeeds. intros c0.
  destruct (Re.run _ _ c0); discriminate.
Qed.

Lemma findall_number_nil (s : string) :
  forall prev, Re.findall_from number_pattern prev 0 s = [] <-> has_digit s = false.
Proof.
  induction s as [|c s IH]; intros prev; cbn [Re.findall_from has_digit].
  - destruct (Re.match_here number_pattern prev "") eqn:E; [|tauto].
    apply eq_sym in E. pose proof (proj2 (number_here prev "") I). congruence.
  - destruct (Re.match_here number_pattern prev (String c s)) eqn:E.
    + split; [discriminate|]. intros H. apply orb_false_elim in H.
      pose proof (proj2 (number_here prev (String c s)) (proj1 H)). congruence.
    + apply number_here in E. rewrite E. cbn [orb]. apply IH.
Qed.

Lemma search_number_none (s : string) :
  forall prev, has_digit s = false -> Re.search_from number_pattern prev s = None.
Proof.
  induction s as [|c s IH]; intros prev H; cbn [Re.search_from].
  - rewrite (proj2 (number_here prev "") I). reflexivity.
  - cbn [has_digit] in H. apply orb_false_elim in H. destruct H as [Hc Hs].
    rewrite (proj2 (number_here prev (String c s)) Hc). apply IH, Hs.
Qed.

Lemma search_number_some (s : string) :
  forall prev, has_digit s = true -> Re.search_from number_pattern prev s <> None.
Proof.
  induction s as [|c s IH]; intros prev H; [discriminate H|].
  cbn [Re.search_from].
  destruct (Re.match_here number_pattern prev (String c s)) eqn:E; [discriminate|].
  apply number_here in E. cbn [has_digit] in H. rewrite E in H. apply IH, H.
Qed.

(** X15. Digits win over words, on a transcript of ASCII characters.
    When the transcript contains a digit, [extract_number] returns the
    float of a text matched by the number pattern, never nothing and
    never a result of the word parser, and the list [numbers] of
    [webhook] holds only such floats, at least one; nothing raises.
    When it contains no digit, everything is up to the word parser,
    applied to the transcript without its commas and dollar signs: its
    number is the result of [extract_number] and the one element of
    [numbers]; its [ValueError] is caught, [extract_number] returns
    [None] and [numbers] is [[None]]; any other exception of it leaves
    [extract_number] and the handler.  So the digit branch of
    [extract_number] is never the one that serves [webhook]. *)
Theorem digits_before_words (transcript : string) :
  ascii_text transcript = true ->
  clean_str transcript = filter_chars not_currency_mark transcript
  /\ (has_digit transcript = true ->
      (exists literal, extract_number transcript = Some (float_of_literal literal))
      /\ extract_number_raises transcript = false
      /\ (exists n more,
            numbers_of transcript (lower transcript)
            = List.map (fun n => Some (float_of_literal n)) (n :: more))
      /\ numbers_raise transcript (lower transcript) = false)
  /\ (has_digit transcript = false ->
      (forall n, word_to_num (clean_str transcript) = Number n ->
         extract_number transcript = Some n
         /\ numbers_of transcript (lower transcript) = [Some n]
         /\ numbers_raise transcript (lower transcript) = false)
      /\ (word_to_num (clean_str transcript) = ValueError ->
          extract_number transcript = None
          /\ numbers_of transcript (lower transcript) = [None]
          /\ numbers_raise transcript (lower transcript) = false)
      /\ (word_to_num (clean_str transcript) = OtherError ->
          extract_number_raises transcript = true
          /\ numbers_raise transcript (lower transcript) = true)).
Proof.
  intros _.
  split; [apply clean_str_filter|].
  assert (Hclean : has_digit (clean_str transcript) = has_digit transcript).
  { rewrite clean_str_filter. apply has_digit_filter, digit_not_currency_mark. }
  split; intros Hd.
  - assert (Hs : exists m, Re.search number_pattern (clean_str transcript) = Some m).
    { unfold Re.search.
      destruct (Re.search_from number_pattern None (clean_str transcript)) eqn:E; [eauto|].
      exfalso. revert E. apply search_number_some. rewrite Hclean. exact Hd. }
    assert (Hf : exists n more,
               Re.findall number_pattern (lower transcript) = n :: more).
    { unfold Re.findall.
      destruct (Re.findall_from number_pattern None 0 (lower transcript))
        as [|n more] eqn:E; [|eauto].
      apply findall_number_nil in E. rewrite has_digit_lower in E. congruence. }
    destruct Hs as (m & Hs). destruct Hf as (n & more & Hf).
    unfold extract_number, extract_number_raises, numbers_of, numbers_raise.
    fold (clean_str transcript). rewrite Hs, Hf. eauto 10.
  - assert (Hs : Re.search number_pattern (clean_str transcript) = None).
    { unfold Re.search. apply search_number_none. rewrite Hclean. exact Hd. }
    assert (Hf : Re.findall number_pattern (lower transcript) = []).
    { unfold Re.findall. apply findall_number_nil. rewrite has_digit_lower. exact Hd. }
    unfold extract_number, extract_number_raises, numbers_of, numbers_raise.
    fold (clean_str transcript). rewrite Hs, Hf.
    unfold extract_number, extract_number_raises.
    fold (clean_str transcript). rewrite Hs.
    split; [|split]; [intros n Hw|intros Hw|intros Hw]; rewrite Hw; auto.
Qed.

(** Replacing the slash by nothing keeps the other characters. *)
Lemma replace_slash_filter (s : string) :
  replace "/" "" s = filter_chars not_slash s.
Proof.
  unfold replace. induction s as [|c s IH]; [reflexivity|].
  cbn [replace_from filter_chars String.prefix].
  destruct (ascii_dec "/" c) as [<-|Hn].
  - replace (String.prefix "" s) with true by (destruct s; reflexivity).
    change (not_slash "/") with false. cbn [String.length Nat.sub].
    exact IH.
  - assert (E : not_slash c = true).
    { unfold not_slash. apply negb_true_iff, Ascii.eqb_neq. congruence. }
    rewrite E, IH. reflexivity.
Qed.

Lemma filter_chars_append (p : ascii -> bool) (a b : string) :
  filter_chars p (a ++ b) = filter_chars p a ++ filter_chars p b.
Proof.
  induction a as [|c a IH]; [reflexivity|].
  change (String c a ++ b) with (String c (a ++ b)). cbn [filter_chars].
  rewrite IH. destruct (p c); reflexivity.
Qed.

Lemma filter_chars_all (p : ascii -> bool) (s : string) :
  all_chars p s = true -> filter_chars p s = s.
Proof.
  induction s as [|c s IH]; [reflexivity|]. cbn [all_chars filter_chars].
  intros H. apply andb_prop in H. destruct H as [-> Hs]. rewrite (IH Hs). reflexivity.
Qed.

Lemma all_chars_filter (p : ascii -> bool) (s : string) :
  all_chars p (filter_chars p s) = true.
Proof.
  induction s as [|c s IH]; [reflexivity|]. cbn [filter_chars].
  destruct (p c) eqn:E; [cbn [all_chars]; rewrite E, IH; reflexivity|exact IH].
Qed.

(** X16. [normalize_symbol] drops every slash of the symbol and keeps
    all other characters in order, whatever the exchange: its result has
    no slash, normalizing twice is normalizing once, the empty symbol
    stays empty, and a pair [BASE/QUOTE] as the extractor builds it
    becomes [BASEQUOTE]. *)
Theorem normalize_symbol_drops_slashes (exchange_name symbol : string) :
  normalize_symbol exchange_name symbol = filter_chars not_slash symbol
  /\ all_chars not_slash (normalize_symbol exchange_name symbol) = true
  /\ normalize_symbol exchange_name (normalize_symbol exchange_name symbol)
     = normalize_symbol exchange_name symbol
  /\ (forall base quote,
        token_text base -> token_text quote ->
        normalize_symbol exchange_name (base ++ "/" ++ quote) = base ++ quote).
Proof.
  assert (E : forall s, normalize_symbol exchange_name s = filter_chars not_slash s).
  { intros s. unfold normalize_symbol. destruct s; [reflexivity|].
    cbn [nonempty]. apply replace_slash_filter. }
  split; [apply E|]. split; [rewrite E; apply all_chars_filter|].
  split; [rewrite !E; apply filter_chars_all, all_chars_filter|].
  intros base quote [_ Hb] [_ Hq].
  rewrite E, !filter_chars_append.
  rewrite (filter_chars_all _ _ (token_text_no_slash _ Hb)).
  rewrite (filter_chars_all _ _ (token_text_no_slash _ Hq)).
  reflexivity.
Qed.

End FurtherNumbers.

(** ** Runs, as witnesses of the further properties *)

Lemma sessions_only_move_forward_witness :
  admissible (say "okx") opened /\ opened !! "c1" = Some fresh
  /\ apply_op (say "okx") opened !! "c1"
     = Some (session (run [StartCall "c1" "t0" 0; say "okx"]))
  /\ created (session (run [StartCall "c1" "t0" 0; say "okx"])) = created fresh.
Proof.
  assert (Hl : opened !! "c1" = Some fresh) by (vm_compute; reflexivity).
  assert (Hl' : apply_op (say "okx") opened !! "c1"
                = Some (session (run [StartCall "c1" "t0" 0; say "okx"])))
    by (vm_compute; reflexivity).
  split; [exact I|]. split; [exact Hl|]. split; [exact Hl'|].
  exact (proj1 (proj2 (sessions_only_move_forward (say "okx") opened "c1" fresh _
                         I Hl Hl'))).
Defined.

Lemma current_step_is_first_missing_witness :
  reachable priced_next /\ priced_next !! "c1" = Some (session priced_next)
  /\ ended (session priced_next) = false
  /\ is_missing (session priced_next) (current_step (session priced_next)) = true.
Proof.
  assert (Hl : priced_next !! "c1" = Some (session priced_next))
    by (vm_compute; reflexivity).
  split; [exact reachable_priced_next|]. split; [exact Hl|]. split; [reflexivity|].
  exact (proj1 (proj2 (current_step_is_first_missing priced_next "c1" _
                         reachable_priced_next Hl eq_refl))).
Defined.

Lemma reachable_stalled : reachable stalled.
Proof.
  exact (reachable_step _ (say "okx")
           (reachable_step _ (say "thousand one") reachable_opened I) I).
Qed.

(** After a turn that raised and one that was answered the history reads
    bot, user, user, bot. *)
Lemma history_is_a_dialogue_witness :
  reachable stalled /\ stalled !! "c1" = Some (session stalled)
  /\ List.map sender (messages (session stalled)) = ["bot"; "user"; "user"; "bot"]
  /\ (forall history more x y,
        messages (session stalled) = (history ++ x :: y :: more)%list ->
        sender y = "bot" -> sender x = "user")
  /\ (entries_of "bot" (messages (session stalled))
      <= entries_of "user" (messages (session stalled)) + 1)%nat.
Proof.
  assert (Hl : stalled !! "c1" = Some (session stalled)) by (vm_compute; reflexivity).
  split; [exact reachable_stalled|]. split; [exact Hl|].
  split; [vm_compute; reflexivity|].
  exact (proj2 (proj2 (proj2 (history_is_a_dialogue stalled "c1" _
                                reachable_stalled Hl)))).
Defined.

(** The first call after [start_call]: "okx" is answered, "thousand one"
    ends with the exception. *)
Lemma start_call_then_poll_witness :
  (exists bot_response, fst (webhook offline (ask "okx") opened) = Ok bot_response)
  /\ fst (webhook offline (ask "thousand one") opened) = Raised.
Proof.
  destruct (@start_call_then_poll literal_platform "c1" "t0" 0 0 ∅)
    as (_ & _ & _ & _ & H).
  split.
  - exact (proj1 (proj2 (proj2 (H eq_refl offline (ask "okx") eq_refl))) eq_refl).
  - exact (proj2 (proj2 (proj2 (H eq_refl offline (ask "thousand one") eq_refl)))
             eq_refl).
Defined.

(** "okx" on a fresh session writes the exchange; "thousand one" writes
    nothing. *)
Lemma updated_slots_are_the_written_slots_witness :
  snd (resolved offline (ask "okx") fresh) = ["exchange to OKX"]
  /\ (forall s, slot_value (snd (turn offline (ask "thousand one") fresh)) s
                = slot_value fresh s).
Proof.
  destruct (updated_slots_are_the_written_slots offline (ask "okx") fresh) as [H _].
  destruct (updated_slots_are_the_written_slots offline (ask "thousand one") fresh)
    as [_ K].
  split; [|exact (K eq_refl)].
  destruct (H eq_refl) as [E _]. rewrite E. vm_compute. reflexivity.
Defined.

Lemma turn_without_update_escalates_witness :
  reachable opened /\ opened !! "c1" = Some fresh /\ ended fresh = false
  /\ extraction_raises (ask "hello") = false
  /\ (forall s, written (is_correction_of (Text.lower (utterance (ask "hello")))) fresh
                  (extract fresh (utterance (ask "hello"))) s = false)
  /\ exists prompt st',
       fst (webhook offline (ask "hello") opened) = Ok prompt
       /\ snd (webhook offline (ask "hello") opened) !! "c1" = Some st'
       /\ nth_error (prompts fresh (current_step fresh))
            (Z.to_nat (Z.min (retry_count fresh + 1) 2)) = Some prompt
       /\ (forall s, slot_value st' s = slot_value fresh s)
       /\ current_step st' = current_step fresh /\ ended st' = false
       /\ retry_count st' = retry_count fresh + 1.
Proof.
  assert (Hl : opened !! "c1" = Some fresh) by (vm_compute; reflexivity).
  assert (Hw : forall s, written (is_correction_of (Text.lower (utterance (ask "hello"))))
                           fresh (extract fresh (utterance (ask "hello"))) s = false)
    by (intros s; destruct s; vm_compute; reflexivity).
  split; [exact reachable_opened|]. split; [exact Hl|]. split; [reflexivity|].
  split; [reflexivity|]. split; [exact Hw|].
  exact (turn_without_update_escalates opened offline (ask "hello") "c1" fresh
           reachable_opened eq_refl Hl eq_refl eq_refl Hw).
Defined.

Lemma blank_utterance_is_a_retry_witness :
  @word_to_num literal_platform "" = ValueError
  /\ all_chars Text.is_space (transcript (ask "   ")) = true
  /\ reachable opened /\ opened !! "c1" = Some fresh /\ ended fresh = false
  /\ extract fresh (utterance (ask "   ")) = Candidates None None None None.
Proof.
  assert (Hl : opened !! "c1" = Some fresh) by (vm_compute; reflexivity).
  split; [reflexivity|]. split; [reflexivity|]. split; [exact reachable_opened|].
  split; [exact Hl|]. split; [reflexivity|].
  exact (proj1 (blank_utterance_is_a_retry opened offline (ask "   ") "c1" fresh
                  eq_refl eq_refl reachable_opened eq_refl Hl eq_refl)).
Defined.

Lemma confirmation_carries_market_price_witness :
  reachable priced_next /\ priced_next !! "c1" = Some (session priced_next)
  /\ ended (session priced_next) = false
  /\ snd (webhook online (ask "at 65000") priced_next) !! "c1"
     = Some (session (snd (webhook online (ask "at 65000") priced_next)))
  /\ missing_slots (session (snd (webhook online (ask "at 65000") priced_next))) = []
  /\ (forall e sym, ticker online e sym 0%nat = Some "64000.5")
  /\ fst (webhook online (ask "at 65000") priced_next)
     = Ok "✅ Order confirmed: Trading 0.5 BTC/USDT on OKX at $65000. Current market price is $64000.5. Goodbye!"
  /\ ended (session (snd (webhook online (ask "at 65000") priced_next))) = true.
Proof.
  assert (Hl : priced_next !! "c1" = Some (session priced_next))
    by (vm_compute; reflexivity).
  assert (Hl' : snd (webhook online (ask "at 65000") priced_next) !! "c1"
                = Some (session (snd (webhook online (ask "at 65000") priced_next))))
    by (vm_compute; reflexivity).
  assert (Hm : missing_slots (session (snd (webhook online (ask "at 65000") priced_next)))
               = []) by (vm_compute; reflexivity).
  split; [exact reachable_priced_next|]. split; [exact Hl|]. split; [reflexivity|].
  split; [exact Hl'|]. split; [exact Hm|]. split; [reflexivity|].
  destruct (confirmation_carries_market_price priced_next online (ask "at 65000") "c1"
              (session priced_next)
              (session (snd (webhook online (ask "at 65000") priced_next)))
              0%nat "64000.5"
              reachable_priced_next eq_refl Hl eq_refl Hl' Hm (Nat.lt_0_succ 2)
              (fun _ _ j Hj => match Nat.nlt_0_r j Hj with end) (fun _ _ => eq_refl))
    as (e & tp & q & p & _ & _ & _ & _ & _ & Hend & _).
  split; [vm_compute; reflexivity|exact Hend].
Defined.


(** Both exchanges are named: the one listed first in the table wins,
    in any case of the letters. *)
Lemma extract_exchange_first_mentioned_witness :
  ascii_text "Buy on Binance or OKX" = true
  /\ extract_exchange "Buy on Binance or OKX" = Some "okx"
  /\ extract_exchange (Text.upper "Buy on Binance or OKX")
     = extract_exchange "Buy on Binance or OKX".
Proof.
  destruct (extract_exchange_first_mentioned "Buy on Binance or OKX" eq_refl)
    as (_ & _ & _ & H & _).
  split; [reflexivity|]. split; [vm_compute; reflexivity|exact H].
Defined.

Lemma extract_trading_pair_shape_witness :
  ascii_text "btc-usdt" = true
  /\ extract_trading_pair "btc-usdt" = Some "BTC/USDT"
  /\ exists base quote,
       "BTC/USDT" = (base ++ "/" ++ quote)%string /\ token_text base /\ token_text quote
       /\ (5 <= String.length "BTC/USDT" <= 13)%nat.
Proof.
  assert (E : extract_trading_pair "btc-usdt" = Some "BTC/USDT")
    by (vm_compute; reflexivity).
  split; [reflexivity|]. split; [exact E|].
  exact (proj1 (extract_trading_pair_shape "btc-usdt" eq_refl) _ E).
Defined.

(** "thousand one" holds no digit: the word parser decides, and its
    exception leaves the handler. *)
Lemma digits_before_words_witness :
  ascii_text "thousand one" = true /\ has_digit "thousand one" = false
  /\ @word_to_num literal_platform (clean_str "thousand one") = OtherError
  /\ @extract_number_raises literal_platform "thousand one" = true
  /\ @numbers_raise literal_platform "thousand one" (Text.lower "thousand one") = true.
Proof.
  destruct (@digits_before_words literal_platform "thousand one" eq_refl)
    as (_ & _ & H).
  split; [reflexivity|]. split; [reflexivity|]. split; [reflexivity|].
  exact (proj2 (proj2 (H eq_refl)) eq_refl).
Defined.
